(** * Job control core of the shell (shell.c)

    A shallow embedding of the job registry, the SIGCHLD reaper, the
    process launcher and the job-control built-ins of [shell.c], with the
    properties of its specification stated and proved over it.

    The shell process is modelled by explicit state passing: every C
    function becomes a function from the shell state (the global
    variables, the blocked-signal mask and the trace of system calls made
    so far) to the new state.  What the operating system answers (the
    result of [fork], [kill], [waitpid], ...) is an argument of the
    function that makes the call. *)

From Stdlib Require Import ZArith String Ascii DecimalString Lia.
From Stdlib Require DecimalPos DecimalFacts.
From stdpp Require Import base gmap sets list strings sorting.

Local Open Scope Z_scope.

(** ** What the system headers provide

    [shell.c] uses signal numbers, [waitpid] options and the status
    macros of <signal.h> and <sys/wait.h>.  Their values are not part of
    the program, so they are parameters of the development.  POSIX
    guarantees that a status is of one kind only; the two laws say so. *)

Class Platform := {
  SIGTERM : Z;
  SIGCHLD : Z;
  SIGCONT : Z;
  SIGTTOU : Z;
  (** the signals [sigprocmask] blocks when it is given the set
      [sigfillset] builds *)
  all_signals : gset Z;
  WNOHANG : Z;
  WUNTRACED : Z;
  WIFEXITED : Z → bool;
  WIFSTOPPED : Z → bool;
  WIFSIGNALED : Z → bool;
  WTERMSIG : Z → Z;
  STDIN_FILENO : Z;
  wait_exited_only : ∀ s,
    WIFEXITED s = true → WIFSTOPPED s = false ∧ WIFSIGNALED s = false;
  wait_stopped_only : ∀ s,
    WIFSTOPPED s = true → WIFSIGNALED s = false
}.

(** ** Machine integers *)

Definition INT_MAX : Z := 2147483647.

(** [int] arithmetic: the result of an operation, reduced to 32 bits in
    two's complement. *)
Definition wrap_int (z : Z) : Z := (z + 2147483648) mod 4294967296 - 2147483648.

(** [printf("%d", z)] *)
Definition fmt_d (z : Z) : string := NilEmpty.string_of_int (Z.to_int z).

Definition nl : string := String (ascii_of_nat 10) EmptyString.

(** ** Data model (shell.c, lines 15-42) *)

Inductive job_state :=
  | RUNNING      (* job is running in background/foreground *)
  | STOPPED      (* job is stopped *)
  | TERMINATED   (* job is terminated by signal *)
  | COMPLETED.   (* job completed normally *)

#[global] Instance job_state_eq_dec : EqDecision job_state.
Proof. solve_decision. Defined.

(** [struct job] without its [next] field: the linked list is the Rocq
    list [jobList] below. *)
Record job := Job {
  id : Z;
  command : string;
  originalCommand : string;
  pgid : Z;
  state : job_state;
  bgProcess : Z;
  termSig : Z
}.

#[global] Instance job_eq_dec : EqDecision job.
Proof. solve_decision. Defined.

Definition set_state (s : job_state) (j : job) : job :=
  Job (id j) (command j) (originalCommand j) (pgid j) s (bgProcess j) (termSig j).
Definition set_bgProcess (b : Z) (j : job) : job :=
  Job (id j) (command j) (originalCommand j) (pgid j) (state j) b (termSig j).
Definition set_termSig (t : Z) (j : job) : job :=
  Job (id j) (command j) (originalCommand j) (pgid j) (state j) (bgProcess j) t.

(** The system calls and library calls with an effect outside the
    program, in the order the shell makes them. *)
Inductive event :=
  | EvWrite (s : string)                      (* printf, puts *)
  | EvFree (j : job)                          (* freeJob *)
  | EvFork
  | EvSetpgid (pid pg : Z)
  | EvExecv (path : string) (argv : list string)
  | EvExit (code : Z)
  | EvKill (pg sig : Z)
  | EvSignalIgnore (sig : Z)                  (* signal(sig, SIG_IGN) *)
  | EvTcsetpgrp (fd pg : Z)
  | EvWaitpid (pid options : Z) (blocked : gset Z)
  | EvChdir (dir : string)
  | EvSetenv (name value : string).

(** The state of the shell process.  [jobList] is the chain of nodes from
    [jobListHead]; [jobListTail] is its last node ([addJob] and
    [cleanUpJobs] keep it there), so appending to the list is what
    [addJob] does through the tail pointer.  [sigmask] is the set of
    blocked signals, [trace] what the process has done so far. *)
Record shell := Shell {
  jobList : list job;
  nextJobId : Z;
  activeJobs : Z;
  sigmask : gset Z;
  trace : list event
}.

Definition set_jobList (l : list job) (st : shell) : shell :=
  Shell l (nextJobId st) (activeJobs st) (sigmask st) (trace st).
Definition set_nextJobId (n : Z) (st : shell) : shell :=
  Shell (jobList st) n (activeJobs st) (sigmask st) (trace st).
Definition set_activeJobs (n : Z) (st : shell) : shell :=
  Shell (jobList st) (nextJobId st) n (sigmask st) (trace st).
Definition set_sigmask (m : gset Z) (st : shell) : shell :=
  Shell (jobList st) (nextJobId st) (activeJobs st) m (trace st).
Definition emit (e : event) (st : shell) : shell :=
  Shell (jobList st) (nextJobId st) (activeJobs st) (sigmask st) (trace st ++ [e]).

(** The globals as initialised at lines 37-42, with nothing blocked. *)
Definition initial : shell := Shell [] 1 0 ∅ [].

(** [printf] without a newline, and [puts]. *)
Definition printf (s : string) (st : shell) : shell := emit (EvWrite s) st.
Definition puts (s : string) (st : shell) : shell := emit (EvWrite (s ++ nl)%string) st.

(** What the process has written on its standard output. *)
Fixpoint stdout (t : list event) : string :=
  match t with
  | [] => EmptyString
  | EvWrite s :: t' => (s ++ stdout t')%string
  | _ :: t' => stdout t'
  end.

(** [sigprocmask(SIG_BLOCK, set, ...)] and [sigprocmask(SIG_SETMASK, set, NULL)] *)
Definition sig_block (set : gset Z) (st : shell) : shell :=
  set_sigmask (sigmask st ∪ set) st.
Definition sig_setmask (set : gset Z) (st : shell) : shell :=
  set_sigmask set st.

(** [p->field = ...] on the node at position [i] of the list. *)
Definition modify_job (i : nat) (f : job → job) (st : shell) : shell :=
  set_jobList (alter f i (jobList st)) st.

(** ** The job registry *)

Section Registry.
Context `{Platform}.

(** lines 253-272 *)
Definition createJob (command0 originalCommand0 : string) (pgid0 : Z)
    (state0 : job_state) (bgProcess0 : Z) (st : shell) : job * shell :=
  let st1 :=
    if activeJobs st =? 0 then set_nextJobId 1 st
    else set_nextJobId (wrap_int (nextJobId st + 1)) st in
  (Job (nextJobId st1) command0 originalCommand0 pgid0 state0 bgProcess0 (-1), st1).

(** lines 274-282 *)
Definition addJob (j : job) (st : shell) : shell :=
  let st1 := set_activeJobs (wrap_int (activeJobs st + 1)) st in
  match jobList st1 with
  | [] => set_jobList [j] st1
  | _ :: _ => set_jobList (jobList st1 ++ [j]) st1
  end.

(** The assignments of lines 297-300 on the node found. *)
Definition mark (state0 : job_state) (termSig0 : Z) (c : job) : job :=
  let c1 := set_state state0 c in
  if decide (state c1 = TERMINATED) then set_termSig termSig0 c1 else c1.

(** The search of lines 288-291: the position of the first node with
    this process group id, if there is one. *)
Fixpoint find_pgid (pgid0 : Z) (current : list job) : option nat :=
  match current with
  | [] => None
  | c :: next =>
      if pgid c =? pgid0 then Some 0%nat
      else S <$> find_pgid pgid0 next
  end.

(** lines 284-302 *)
Definition markJob (pgid0 : Z) (state0 : job_state) (termSig0 : Z)
    (st : shell) : Z * shell :=
  match find_pgid pgid0 (jobList st) with
  | None => (-1, st)
  | Some i => (0, modify_job i (mark state0 termSig0) st)
  end.

Definition terminated_notice (j : job) : string :=
  ("[" ++ fmt_d (id j) ++ "] " ++ fmt_d (pgid j) ++ " terminated by signal "
   ++ fmt_d (termSig j) ++ nl)%string.

(** lines 402-406 *)
Definition freeJob (j : job) (st : shell) : shell := emit (EvFree j) st.

(** The loop of lines 314-334.  [previous] holds the nodes already
    visited and kept, ending in the node the C variable [previous] points
    to ([previous == NULL] when it is empty); [current] is the rest of the
    chain.  Both branches of the deletion unlink the first node of
    [current].  The result is the chain left and the final state. *)
Fixpoint cleanUpJobs_loop (previous current : list job) (st : shell)
    : list job * shell :=
  match current with
  | [] => (previous, st)
  | c :: next =>
      if bool_decide (state c = COMPLETED) || bool_decide (state c = TERMINATED) then
        let st1 :=
          if bool_decide (state c = TERMINATED)
          then printf (terminated_notice c) st else st in
        let st2 := freeJob c st1 in
        cleanUpJobs_loop previous next
          (set_activeJobs (wrap_int (activeJobs st2 - 1)) st2)
      else cleanUpJobs_loop (previous ++ [c]) next st
  end.

(** lines 304-339 *)
Definition cleanUpJobs (st : shell) : shell :=
  let prevOne := sigmask st in
  let st1 := sig_block {[SIGCHLD]} st in
  let '(l, st2) := cleanUpJobs_loop [] (jobList st1) st1 in
  sig_setmask prevOne (set_jobList l st2).

(** One turn of the loop of lines 381-399. *)
Definition printJob (current : job) (st : shell) : shell :=
  let st1 := printf ("[" ++ fmt_d (id current) ++ "] " ++ fmt_d (pgid current) ++ " ") st in
  let st2 :=
    if decide (state current = RUNNING) then printf "Running " st1
    else if decide (state current = STOPPED) then printf "Stopped " st1
    else st1 in
  let st3 := printf (originalCommand current ++ " ") st2 in
  let st4 := if bgProcess current =? 0 then st3 else printf "&" st3 in
  puts EmptyString st4.

(** lines 378-400 *)
Definition printJobs (st : shell) : shell :=
  fold_left (λ s current, printJob current s) (jobList st) st.

End Registry.

(** ** What the operating system answers

    The answers the kernel and the C library give to the calls one
    command makes.  [kill_ret pg sig] is the result of [kill(pg, sig)],
    [waitpid_ret] the pair (returned pid, status) of the blocking
    [waitpid] of a foreground wait, [execv_ret] is [None] when [execv]
    replaced the process image and so never returned. *)
Record os_replies := OsReplies {
  fork_ret : Z;
  execv_ret : option Z;
  errno : Z;
  strerror_errno : string;
  kill_ret : Z → Z → Z;
  waitpid_ret : Z * Z;
  getpid_ret : Z;
  getpgid_ret : Z → Z;
  fileExists_ret : string → Z;
  getenv_HOME : option string;
  chdir_ret : string → Z
}.

(** ** Helpers at the end of shell.c *)

(** [isdigit] on a character *)
Definition isdigit (c : ascii) : bool :=
  (48 <=? Z.of_N (N_of_ascii c)) && (Z.of_N (N_of_ascii c) <=? 57).

(** The loop of lines 764-771 from position [i] on; [s] is the rest of
    the string from there. *)
Fixpoint stringToJobId_loop (s : string) (result : Z) : Z :=
  match s with
  | EmptyString => result
  | String c rest =>
      if negb (isdigit c) then -1
      else
        let result1 := wrap_int (result * 10) in
        let result2 := wrap_int (result1 + (Z.of_N (N_of_ascii c) - 48)) in
        stringToJobId_loop rest result2
  end.

(** lines 755-774.  The first character of an empty string is the
    terminator, which is not a percent sign. *)
Definition stringToJobId (s : string) : Z :=
  match s with
  | EmptyString => -1
  | String c rest =>
      if negb (Ascii.eqb c "%") then -1 else stringToJobId_loop rest 0
  end.

(** lines 776-798, on the first [argc] strings of [argv] *)
Fixpoint join_args (argv : list string) : string :=
  match argv with
  | [] => EmptyString
  | [a] => a
  | a :: rest => (a ++ " " ++ join_args rest)%string
  end.

Definition joinString (argc : Z) (argv : list string) : string :=
  join_args (take (Z.to_nat argc) argv).

(** [s[0] == '.' || s[0] == '/'] *)
Definition looks_like_path (s : string) : bool :=
  match s with
  | EmptyString => false
  | String c _ => Ascii.eqb c "." || Ascii.eqb c "/"
  end.

(** ** The reaper, the built-ins and the launcher *)

Section Shell.
Context `{Platform}.

(** The search by job id of [bg], [fg] and [killFunc] (lines 519-522,
    586-589, 655-658): the position and the contents of the first node
    with this id. *)
Fixpoint find_id (jid : Z) (current : list job) : option (nat * job) :=
  match current with
  | [] => None
  | c :: next =>
      if negb (id c =? jid) then
        (λ r : nat * job, (S r.1, r.2)) <$> find_id jid next
      else Some (0%nat, c)
  end.

(** The three tests on the status of a foreground wait (lines 616-628 and
    730-744), on the node at position [i]. *)
Definition record_status (i : nat) (status : Z) (st : shell) : shell :=
  let st1 :=
    if WIFEXITED status then modify_job i (set_state COMPLETED) st else st in
  let st2 :=
    if WIFSTOPPED status then modify_job i (set_state STOPPED) st1 else st1 in
  if WIFSIGNALED status then
    modify_job i (set_termSig (WTERMSIG status))
      (modify_job i (set_state TERMINATED) st2)
  else st2.

(** The body of the loop of [sigchldHandler] (lines 438-450) for one
    child. *)
Definition reap (pid status : Z) (st : shell) : shell :=
  let prevAll := sigmask st in
  let st1 := sig_block all_signals st in
  let st2 :=
    if WIFEXITED status then (markJob pid COMPLETED (-1) st1).2 else st1 in
  let st3 :=
    if WIFSTOPPED status then (markJob pid STOPPED (-1) st2).2 else st2 in
  let st4 :=
    if WIFSIGNALED status
    then (markJob pid TERMINATED (WTERMSIG status) st3).2 else st3 in
  sig_setmask prevAll st4.

(** lines 429-453.  [replies] are the answers (pid, status) of the
    successive calls [waitpid(-1, &status, WUNTRACED | WNOHANG)]; when
    they run out the next call finds no changed child and returns 0 or
    -1.  [errno] is saved and restored and is not part of the state. *)
Fixpoint sigchldHandler (replies : list (Z * Z)) (st : shell) : shell :=
  let st1 := emit (EvWaitpid (-1) (Z.lor WUNTRACED WNOHANG) (sigmask st)) st in
  match replies with
  | [] => st1
  | (pid, status) :: rest =>
      if pid >? 0 then sigchldHandler rest (reap pid status st1) else st1
  end.

(** Delivery of SIGCHLD to the process, as [safeSignal] installs the
    handler (lines 420-427: empty [sa_mask], no [SA_NODEFER]): a blocked
    signal stays pending and the handler does not run; otherwise the
    handler runs with SIGCHLD added to the mask and the mask is put back
    when it returns. *)
Definition deliver_SIGCHLD (replies : list (Z * Z)) (st : shell) : shell :=
  if decide (SIGCHLD ∈ sigmask st) then st
  else
    let entry := sigmask st in
    sig_setmask entry (sigchldHandler replies (sig_block {[SIGCHLD]} st)).

(** lines 505-541 *)
Definition bg (argv : list string) (numTokens : Z) (os : os_replies)
    (st : shell) : shell :=
  if negb (numTokens =? 2) then puts "bg: wrong number of arguments" st
  else
    let jid := stringToJobId (nth 1 argv EmptyString) in
    if jid =? -1 then puts "bg: invalid job id" st
    else
      match find_id jid (jobList st) with
      | None => puts "bg: job not found" st
      | Some (i, current) =>
          if decide (state current = RUNNING) then
            puts "bg: job is already running" st
          else
            let st1 := modify_job i (set_bgProcess 1) st in
            let st2 := modify_job i (set_state RUNNING) st1 in
            let st3 := emit (EvKill (pgid current) SIGCONT) st2 in
            if kill_ret os (pgid current) SIGCONT <? 0 then
              puts "bg: could not continue process" st3
            else st3
      end.

(** The foreground wait of [fg] (lines 606-609) and of [runCommand]
    (lines 719-722) for the process [pid]: ignore SIGTTOU, give the
    terminal to the group of [pid], wait, take the terminal back. *)
Definition foreground_wait (pid : Z) (os : os_replies) (st : shell) : shell :=
  let st1 := emit (EvSignalIgnore SIGTTOU) st in
  let st2 := emit (EvTcsetpgrp STDIN_FILENO (getpgid_ret os pid)) st1 in
  let st3 := emit (EvWaitpid pid WUNTRACED (sigmask st2)) st2 in
  emit (EvTcsetpgrp STDIN_FILENO (getpgid_ret os (getpid_ret os))) st3.

(** lines 571-629 *)
Definition fg (argv : list string) (numTokens : Z) (os : os_replies)
    (st : shell) : shell :=
  if negb (numTokens =? 2) then puts "fg: wrong number of arguments" st
  else
    let jid := stringToJobId (nth 1 argv EmptyString) in
    if jid =? -1 then puts "fg: invalid job id" st
    else
      match find_id jid (jobList st) with
      | None => puts "fg: job not found" st
      | Some (i, current) =>
          let st1 := modify_job i (set_bgProcess 0) st in
          let resumed : shell + shell :=
            if decide (state current = STOPPED) then
              let st2 := emit (EvKill (pgid current) SIGCONT) st1 in
              if kill_ret os (pgid current) SIGCONT <? 0 then
                inl (puts "fg: could not continue process" st2)
              else inr (modify_job i (set_state RUNNING) st2)
            else inr st1 in
          match resumed with
          | inl st' => st'
          | inr st3 =>
              let st4 := foreground_wait (pgid current) os st3 in
              let '(wpid, status) := waitpid_ret os in
              if wpid <? 0 then puts (strerror_errno os) st4
              else record_status i status st4
          end
      end.

(** lines 632-639 *)
Definition jobs (numTokens : Z) (st : shell) : shell :=
  if numTokens >? 1 then puts "jobs: too many arguments" st
  else printJobs st.

(** lines 641-669 *)
Definition killFunc (argv : list string) (numTokens : Z) (os : os_replies)
    (st : shell) : shell :=
  if negb (numTokens =? 2) then puts "kill: wrong number of arguments" st
  else
    let jid := stringToJobId (nth 1 argv EmptyString) in
    if jid =? -1 then puts "kill: invalid job id" st
    else
      match find_id jid (jobList st) with
      | None => puts "kill: job not found" st
      | Some (i, current) =>
          let st1 := emit (EvKill (pgid current) SIGTERM) st in
          if kill_ret os (pgid current) SIGTERM <? 0 then
            puts "kill: could not terminate job" st1
          else st1
      end.

(** lines 543-560 *)
Definition cd (argv : list string) (numTokens : Z) (os : os_replies)
    (st : shell) : shell :=
  if numTokens >? 2 then puts "cd: too many arguments" st
  else
    let directory :=
      if numTokens =? 1 then getenv_HOME os
      else Some (nth 1 argv EmptyString) in
    match directory with
    | None => st
    | Some dir =>
        let st1 := emit (EvChdir dir) st in
        if negb (chdir_ret os dir =? 0) then
          printf ("cd: no such file or directory: " ++ dir ++ nl) st1
        else emit (EvSetenv "PWD" dir) st1
    end.

(** How a call of [runCommand] ends: it returns a value, or (in the
    forked child) the process image is replaced or the process exits. *)
Inductive outcome :=
  | Returned (v : Z)
  | Replaced
  | Exited (code : Z).

(** lines 671-753 *)
Definition runCommand (command0 : string) (argc : Z) (argv : list string)
    (bgProcess0 : Z) (os : os_replies) (st : shell) : outcome * shell :=
  let prevOne := sigmask st in
  let st1 := sig_block {[SIGCHLD]} st in
  let st2 := emit EvFork st1 in
  let pid := fork_ret os in
  if pid =? 0 then
    (* child process *)
    let st3 := sig_setmask prevOne st2 in
    let st4 := emit (EvSetpgid 0 0) st3 in
    let st5 := emit (EvExecv command0 argv) st4 in
    match execv_ret os with
    | None => (Replaced, st5)
    | Some r =>
        if negb (r =? 0) then
          let st6 :=
            if looks_like_path (nth 0 argv EmptyString)
            then printf (command0 ++ ": No such file or directory" ++ nl) st5
            else st5 in
          (Exited (errno os), emit (EvExit (errno os)) st6)
        else (Returned (-1), st5)
    end
  else if pid >? 0 then
    let st3 := sig_block all_signals st2 in
    let st4 := emit (EvSetpgid pid pid) st3 in
    let originalCommand0 := joinString argc argv in
    if negb (bgProcess0 =? 0) then
      (* create and add job to job list *)
      let '(j, st5) := createJob command0 originalCommand0 pid RUNNING 1 st4 in
      let st6 := addJob j st5 in
      let st7 := printf ("[" ++ fmt_d (id j) ++ "] " ++ fmt_d pid ++ nl) st6 in
      (Returned 0, sig_setmask prevOne st7)
    else
      let '(j, st5) := createJob command0 originalCommand0 pid RUNNING 0 st4 in
      let st6 := addJob j st5 in
      (* [j] is the node just added, the last of the list *)
      let i := (length (jobList st6) - 1)%nat in
      let st7 := foreground_wait pid os st6 in
      let '(wpid, status) := waitpid_ret os in
      if wpid <? 0 then (Returned (-1), puts (strerror_errno os) st7)
      else (Returned 0, sig_setmask prevOne (record_status i status st7))
  else
    (* failed to fork *)
    (Returned (-1), st2).

(** ** The body of the read loop *)

Inductive loop_ctl :=
  | Continue     (* next turn of the loop *)
  | Break        (* leave the loop: [exit] *)
  | Gone.        (* the process is a forked child that did not return *)

Definition after_run (r : outcome * shell) : loop_ctl * shell :=
  match r.1 with
  | Returned _ => (Continue, r.2)
  | _ => (Gone, r.2)
  end.

(** lines 164-231: the command of a line already split into [tokens]
    (with [numTokens] the number of tokens, not zero). *)
Definition dispatch (tokens : list string) (bgProcess0 : Z) (os : os_replies)
    (st : shell) : loop_ctl * shell :=
  let numTokens := Z.of_nat (length tokens) in
  let command0 := nth 0 tokens EmptyString in
  if looks_like_path command0 then
    (* relative or absolute filepath *)
    if negb (fileExists_ret os command0 =? 0) then
      after_run (runCommand command0 numTokens tokens bgProcess0 os st)
    else (Continue, printf (command0 ++ ": No such file or directory" ++ nl) st)
  else
    (* direct command name *)
    let prevOne := sigmask st in
    let st1 := sig_block {[SIGCHLD]} st in
    if String.eqb command0 "bg" then
      (Continue, sig_setmask prevOne (bg tokens numTokens os st1))
    else if String.eqb command0 "fg" then
      (Continue, sig_setmask prevOne (fg tokens numTokens os st1))
    else if String.eqb command0 "cd" then
      (Continue, cd tokens numTokens os (sig_setmask prevOne st1))
    else if String.eqb command0 "jobs" then
      (Continue, sig_setmask prevOne (jobs numTokens st1))
    else if String.eqb command0 "kill" then
      (Continue, sig_setmask prevOne (killFunc tokens numTokens os st1))
    else if String.eqb command0 "exit" then
      (Break, sig_setmask prevOne st1)
    else
      (* check /bin and /usr/bin in that order *)
      let binPrefix := ("/bin/" ++ command0)%string in
      let usrBinPrefix := ("/usr/bin/" ++ command0)%string in
      let st2 := sig_setmask prevOne st1 in
      if negb (fileExists_ret os binPrefix =? 0) then
        after_run (runCommand binPrefix numTokens tokens bgProcess0 os st2)
      else if negb (fileExists_ret os usrBinPrefix =? 0) then
        after_run (runCommand usrBinPrefix numTokens tokens bgProcess0 os st2)
      else (Continue, printf (command0 ++ ": command not found" ++ nl) st2).

(** lines 136-242 with no signal delivered in between: the cleanup pass,
    the command, the cleanup pass.  A line without tokens ends the turn
    after the first pass (lines 141-156). *)
Definition mainBody (tokens : list string) (bgProcess0 : Z) (os : os_replies)
    (st : shell) : loop_ctl * shell :=
  let st1 := cleanUpJobs st in
  match tokens with
  | [] => (Continue, st1)
  | _ :: _ =>
      match dispatch tokens bgProcess0 os st1 with
      | (Continue, st2) => (Continue, cleanUpJobs st2)
      | r => r
      end
  end.

End Shell.

(** ** Runs of the shell

    What happens to the registry between two prompts is a sequence of
    calls of the functions above: a command is launched, a built-in runs,
    a cleanup pass is made, or SIGCHLD is delivered. *)

Inductive op :=
  | OpRun (command0 : string) (argv : list string) (bgProcess0 : Z)
      (os : os_replies)                       (* runCommand *)
  | OpCleanup                                 (* cleanUpJobs *)
  | OpSigchld (replies : list (Z * Z))        (* SIGCHLD is delivered *)
  | OpBg (argv : list string) (os : os_replies)
  | OpFg (argv : list string) (os : os_replies)
  | OpKill (argv : list string) (os : os_replies)
  | OpJobs (numTokens : Z).

(** The operations in which the parent creates a job: a [runCommand]
    whose [fork] succeeds. *)
Definition creates (o : op) : bool :=
  match o with
  | OpRun _ _ _ os => fork_ret os >? 0
  | _ => false
  end.

Section Runs.
Context `{Platform}.

Definition exec1 (o : op) (st : shell) : shell :=
  match o with
  | OpRun command0 argv bgProcess0 os =>
      (runCommand command0 (Z.of_nat (length argv)) argv bgProcess0 os st).2
  | OpCleanup => cleanUpJobs st
  | OpSigchld replies => deliver_SIGCHLD replies st
  | OpBg argv os => bg argv (Z.of_nat (length argv)) os st
  | OpFg argv os => fg argv (Z.of_nat (length argv)) os st
  | OpKill argv os => killFunc argv (Z.of_nat (length argv)) os st
  | OpJobs numTokens => jobs numTokens st
  end.

Fixpoint exec (ops : list op) (st : shell) : shell :=
  match ops with
  | [] => st
  | o :: rest => exec rest (exec1 o st)
  end.

End Runs.

(** ** Vocabulary of the statements *)

(** The state [st] with [es] added to what the process has done. *)
Definition emit_all (es : list event) (st : shell) : shell :=
  Shell (jobList st) (nextJobId st) (activeJobs st) (sigmask st) (trace st ++ es).

(** A job the cleanup pass removes. *)
Definition is_finished (j : job) : Prop :=
  state j = COMPLETED ∨ state j = TERMINATED.

#[global] Instance is_finished_dec j : Decision (is_finished j).
Proof. unfold is_finished. apply _. Defined.

(** The line that tells of a job killed by a signal, as the
    specification gives it: "[<id>] <pid> terminated by signal <signum>"
    and a newline. *)
Definition notice_line (j : job) : string :=
  ("[" ++ fmt_d (id j) ++ "] " ++ fmt_d (pgid j) ++ " terminated by signal "
   ++ fmt_d (termSig j) ++ nl)%string.

(** What the cleanup pass does about one job. *)
Definition cleanup_events (j : job) : list event :=
  if decide (state j = TERMINATED) then [EvWrite (notice_line j); EvFree j]
  else if decide (state j = COMPLETED) then [EvFree j]
  else [].

(** The events of [st'] that were not yet in [st]. *)
Definition new_events (st st' : shell) : list event :=
  drop (length (trace st)) (trace st').

(** Whom a signal is for.  POSIX, kill(2): a positive first argument
    names the one process with that process id; 0 stands for the process
    group of the caller, -1 for every process the caller may signal, and
    a number below -1 for the process group whose id is its absolute
    value. *)
Inductive recipient :=
  | OneProcess (pid : Z)
  | CallersGroup
  | EveryProcess
  | ProcessGroup (pgid : Z).

Definition kill_recipient (pid : Z) : recipient :=
  if 0 <? pid then OneProcess pid
  else if pid =? 0 then CallersGroup
  else if pid =? -1 then EveryProcess
  else ProcessGroup (- pid).

(** The signals the calls of [kill] among the events [es] ask for, in
    order, each with its recipient. *)
Fixpoint signals_to (es : list event) : list (recipient * Z) :=
  match es with
  | [] => []
  | EvKill pid sig :: rest => (kill_recipient pid, sig) :: signals_to rest
  | _ :: rest => signals_to rest
  end.

(** The line of the [jobs] listing for one job. *)
Definition state_word (j : job) : string :=
  match state j with
  | RUNNING => "Running "
  | STOPPED => "Stopped "
  | _ => EmptyString
  end.

Definition listing_line (j : job) : string :=
  ("[" ++ fmt_d (id j) ++ "] " ++ fmt_d (pgid j) ++ " " ++ state_word j
   ++ originalCommand j ++ " " ++ (if (bgProcess j =? 0)%Z then EmptyString else "&") ++ nl)%string.

Fixpoint concat_lines (l : list string) : string :=
  match l with
  | [] => EmptyString
  | s :: rest => (s ++ concat_lines rest)%string
  end.

Section ReapAll.
Context `{Platform}.

(** The state after the children of [replies] have been reaped one after
    the other. *)
Definition reap_all (replies : list (Z * Z)) (st : shell) : shell :=
  foldl (λ s r, reap r.1 r.2 s) st replies.

End ReapAll.

Section ForegroundResume.
Context `{Platform}.

(** The job as [fg] has it when the wait begins (lines 596-604), and
    what [fg] has done until then. *)
Definition fg_resumed (j : job) : job :=
  if decide (state j = STOPPED) then set_state RUNNING (set_bgProcess 0 j)
  else set_bgProcess 0 j.

Definition fg_resume_events (j : job) : list event :=
  if decide (state j = STOPPED) then [EvKill (pgid j) SIGCONT] else [].

(** The calls of a foreground wait for the process [pid], made with the
    signals [blocked]. *)
Definition wait_events (pid : Z) (os : os_replies) (blocked : gset Z) : list event :=
  [EvSignalIgnore SIGTTOU;
   EvTcsetpgrp STDIN_FILENO (getpgid_ret os pid);
   EvWaitpid pid WUNTRACED blocked;
   EvTcsetpgrp STDIN_FILENO (getpgid_ret os (getpid_ret os))].

End ForegroundResume.

Section Waits.
Context `{Platform}.

(** Every [waitpid] among the events [es] is a wait for a stop or an end
    ([WUNTRACED] and not [WNOHANG]) made with the signals [m] blocked. *)
Definition waits_blocking (m : gset Z) (es : list event) : Prop :=
  ∀ pid options blocked,
    EvWaitpid pid options blocked ∈ es → options = WUNTRACED ∧ blocked = m.

(** SIGCHLD is let through during every wait among the events [es]. *)
Definition waits_let_SIGCHLD_through (es : list event) : Prop :=
  ∀ pid options blocked, EvWaitpid pid options blocked ∈ es → SIGCHLD ∉ blocked.

End Waits.

(** The [jobs] listing shows the jobs of the registry that are [RUNNING]
    or [STOPPED], each with its state word, and no other job. *)
Definition jobs_lists_only_live (st : shell) : Prop :=
  stdout (new_events st (jobs 1 st))
  = concat_lines
      (listing_line <$> filter (λ j, state j = RUNNING ∨ state j = STOPPED) (jobList st)).

(** What a built-in called with [argv] prints. *)
Definition output_of (f : list string → Z → os_replies → shell → shell)
    (argv : list string) (os : os_replies) (st : shell) : string :=
  stdout (new_events st (f argv (Z.of_nat (length argv)) os st)).

(** A job reference of the form percent sign, then digits only. *)
Fixpoint all_digits (s : string) : bool :=
  match s with
  | EmptyString => true
  | String c rest => isdigit c && all_digits rest
  end.

Definition well_formed_ref (s : string) : bool :=
  match s with
  | EmptyString => false
  | String c rest => Ascii.eqb c "%" && all_digits rest
  end.

(** [j] is the job the search by process group id stops at: the first
    node of [l] with this process group id, at position [i]. *)
Definition first_with_pgid (pgid0 : Z) (l : list job) (i : nat) (j : job) : Prop :=
  l !! i = Some j ∧ pgid j = pgid0
  ∧ ∀ k j', (k < i)%nat → l !! k = Some j' → pgid j' ≠ pgid0.

(** The same for the search by job id. *)
Definition first_with_id (jid : Z) (l : list job) (i : nat) (j : job) : Prop :=
  l !! i = Some j ∧ id j = jid
  ∧ ∀ k j', (k < i)%nat → l !! k = Some j' → id j' ≠ jid.

(** [st'] has the same job ids in the registry and the same counters as
    [st]: no job was created or removed in between. *)
Definition same_ids (st st' : shell) : Prop :=
  id <$> jobList st' = id <$> jobList st
  ∧ nextJobId st' = nextJobId st
  ∧ activeJobs st' = activeJobs st.

(** The number of jobs created in a run. *)
Fixpoint creations (ops : list op) : nat :=
  match ops with
  | [] => 0
  | o :: rest => ((if creates o then 1 else 0) + creations rest)%nat
  end.

(** The registry after at most [n] jobs were created: [activeJobs] counts
    the tracked jobs, the ids of the tracked jobs increase along the list
    and lie between 1 and [nextJobId], the last id given out. *)
Definition registry_ok (n : Z) (st : shell) : Prop :=
  activeJobs st = Z.of_nat (length (jobList st))
  ∧ Z.of_nat (length (jobList st)) ≤ n
  ∧ 1 ≤ nextJobId st ≤ Z.max 1 n
  ∧ Forall (λ k, 1 ≤ k ≤ nextJobId st) (id <$> jobList st)
  ∧ StronglySorted Z.lt (id <$> jobList st).

(** The id [createJob] computes in the state [st] (lines 256-262). *)
Definition fresh_id (st : shell) : Z :=
  if activeJobs st =? 0 then 1 else wrap_int (nextJobId st + 1).

(** What [printJobs] does for one job. *)
Definition listing_events (j : job) : list event :=
  [EvWrite ("[" ++ fmt_d (id j) ++ "] " ++ fmt_d (pgid j) ++ " ")%string]
  ++ match state j with
     | RUNNING => [EvWrite "Running "]
     | STOPPED => [EvWrite "Stopped "]
     | _ => []
     end
  ++ [EvWrite (originalCommand j ++ " ")%string]
  ++ (if bgProcess j =? 0 then [] else [EvWrite "&"])
  ++ [EvWrite nl].

(** ** The platform of the README: Linux with glibc

    The values of <signal.h> and the macros of <bits/waitstatus.h>, used
    to run the model on concrete inputs. *)

Module Linux.

Definition wifexited (s : Z) : bool := Z.land s 127 =? 0.
Definition wifstopped (s : Z) : bool := Z.land s 255 =? 127.
(** [((signed char) ((s & 0x7f) + 1) >> 1) > 0] *)
Definition wifsignaled (s : Z) : bool :=
  let t := Z.land s 127 + 1 in
  let c := if t >=? 128 then t - 256 else t in
  Z.shiftr c 1 >? 0.
Definition wtermsig (s : Z) : Z := Z.land s 127.

#[export] Instance platform : Platform.
Proof.
  refine {|
    SIGTERM := 15;
    SIGCHLD := 17;
    SIGCONT := 18;
    SIGTTOU := 22;
    (* [sigfillset] of glibc fills in the signals 1 to 64 but 32 and 33,
       which the library keeps for itself, and [sigprocmask] leaves
       SIGKILL (9) and SIGSTOP (19) unblocked *)
    all_signals :=
      list_to_set (seqZ 1 8 ++ seqZ 10 9 ++ seqZ 20 12 ++ seqZ 34 31);
    WNOHANG := 1;
    WUNTRACED := 2;
    WIFEXITED := wifexited;
    WIFSTOPPED := wifstopped;
    WIFSIGNALED := wifsignaled;
    WTERMSIG := wtermsig;
    STDIN_FILENO := 0
  |}.
  - (* the low seven bits are zero: the low eight are not 0x7f *)
    unfold wifexited, wifstopped, wifsignaled. intros s E.
    apply Z.eqb_eq in E. split.
    + apply Z.eqb_neq. intros S.
      replace (Z.land s 127) with (Z.land (Z.land s 255) 127) in E
        by (rewrite <- Z.land_assoc; reflexivity).
      rewrite S in E. discriminate E.
    + rewrite E. reflexivity.
  - (* the low eight bits are 0x7f: the signed char test fails *)
    unfold wifstopped, wifsignaled. intros s S. apply Z.eqb_eq in S.
    replace (Z.land s 127) with (Z.land (Z.land s 255) 127)
      by (rewrite <- Z.land_assoc; reflexivity).
    rewrite S. reflexivity.
Defined.

(** Answers of a system where every call succeeds: the child [pid] is
    forked, and the foreground wait returns it with [status]. *)
Definition replies (pid status : Z) : os_replies := {|
  fork_ret := pid;
  execv_ret := None;
  errno := 0;
  strerror_errno := "Success";
  kill_ret := λ _ _, 0;
  waitpid_ret := (pid, status);
  getpid_ret := 1;
  getpgid_ret := λ p, p;
  fileExists_ret := λ _, 1;
  getenv_HOME := Some "/root"%string;
  chdir_ret := λ _, 0
|}.

(** The same, with [kill] failing. *)
Definition replies_kill_fails (pid status : Z) : os_replies := {|
  fork_ret := pid;
  execv_ret := None;
  errno := 3;
  strerror_errno := "No such process";
  kill_ret := λ _ _, -1;
  waitpid_ret := (pid, status);
  getpid_ret := 1;
  getpgid_ret := λ p, p;
  fileExists_ret := λ _, 1;
  getenv_HOME := Some "/root"%string;
  chdir_ret := λ _, 0
|}.

(** The same, with the foreground [waitpid] failing. *)
Definition replies_wait_fails (pid : Z) : os_replies := {|
  fork_ret := pid;
  execv_ret := None;
  errno := 10;
  strerror_errno := "No child processes";
  kill_ret := λ _ _, 0;
  waitpid_ret := (-1, 0);
  getpid_ret := 1;
  getpgid_ret := λ p, p;
  fileExists_ret := λ _, 1;
  getenv_HOME := Some "/root"%string;
  chdir_ret := λ _, 0
|}.

(** Statuses as [waitpid] reports them: a normal exit with code 0, a
    stop by SIGTSTP (20) and a death by SIGTERM (15). *)
Definition status_exit0 : Z := 0.
Definition status_stopped : Z := 5247.
Definition status_sigterm : Z := 15.

(** [sleep 5 &] has been launched as process 100. *)
Definition one_job : shell :=
  (runCommand "/bin/sleep" 2 ["sleep"; "5"]%string 1 (replies 100 0) initial).2.

(** Then [sleep 10] was launched in the foreground as process 101 and
    stopped from the keyboard. *)
Definition two_jobs : shell :=
  (runCommand "/bin/sleep" 2 ["sleep"; "10"]%string 0
     (replies 101 status_stopped) one_job).2.

(** Two background launches, as operations of a run. *)
Definition sleep5 : op :=
  OpRun "/bin/sleep" ["sleep"; "5"]%string 1 (replies 100 0).
Definition sleep9 : op :=
  OpRun "/bin/sleep" ["sleep"; "9"]%string 1 (replies 101 0).

(** [sleep 5 &] was launched, the cleanup pass at the top of the loop
    has run, and before the command of the line is looked at the child is
    killed by SIGTERM and SIGCHLD is delivered. *)
Definition reaped_after_cleanup : shell :=
  exec [sleep5; OpCleanup; OpSigchld [(100, status_sigterm)]] initial.

End Linux.

(** * The rest of shell.c *)

(** ** Reading a line: [tokenize] and [handleAmpersand]

    Strings stand for C strings: the characters before the terminator. *)

(** [strchr(delims, c) != NULL] for a character that is not the
    terminator. *)
Fixpoint is_delim (delims : string) (c : ascii) : bool :=
  match delims with
  | EmptyString => false
  | String d rest => Ascii.eqb c d || is_delim rest c
  end.

(** [s + strspn(s, delims)] *)
Fixpoint skip_delims (delims : string) (s : string) : string :=
  match s with
  | EmptyString => EmptyString
  | String c rest => if is_delim delims c then skip_delims delims rest else s
  end.

(** The characters of [s] before the first delimiter, and what follows
    that delimiter (nothing when there is none): [strcspn], the
    terminator written over the delimiter, and the saved pointer. *)
Fixpoint scan_token (delims : string) (s : string) : string * string :=
  match s with
  | EmptyString => (EmptyString, EmptyString)
  | String c rest =>
      if is_delim delims c then (EmptyString, rest)
      else let '(tok, save) := scan_token delims rest in (String c tok, save)
  end.

(** The C library's [strtok] on the string the saved pointer is at: the
    token found, if any, and the new saved pointer. *)
Definition strtok (delims : string) (s : string) : option string * string :=
  match skip_delims delims s with
  | EmptyString => (None, EmptyString)
  | String c rest =>
      let '(tok, save) := scan_token delims (String c rest) in (Some tok, save)
  end.

Definition tab : string := String (ascii_of_nat 9) EmptyString.
Definition cr : string := String (ascii_of_nat 13) EmptyString.

(** The delimiters of the first call of [strtok] (line 465) and of the
    later ones (line 475). *)
Definition first_delims : string := (" " ++ tab ++ cr ++ nl)%string.
Definition later_delims : string := " ".

(** The loop of lines 467-477.  [token] is the result of the last call of
    [strtok] and [save] its saved pointer; [result] holds the
    [currentSize] tokens stored so far in an array of [maxSize] slots.
    One turn is made for each unit of [fuel]; [None] when it runs out. *)
Fixpoint tokenize_loop (fuel : nat) (token : option string) (save : string)
    (result : list string) (currentSize maxSize : Z) : option (list string * Z * Z) :=
  match token with
  | None => Some (result, currentSize, maxSize)
  | Some t =>
      match fuel with
      | O => None
      | S fuel' =>
          let maxSize1 :=
            if currentSize =? maxSize then wrap_int (maxSize + 1) else maxSize in
          let '(token', save') := strtok later_delims save in
          tokenize_loop fuel' token' save' (result ++ [t])
            (wrap_int (currentSize + 1)) maxSize1
      end
  end.

(** lines 461-482: the tokens, [*numTokens] and [*capacity].  Every turn
    of the loop takes at least one character of the input, so its length
    is fuel enough. *)
Definition tokenize (input : string) : option (list string * Z * Z) :=
  let '(token, save) := strtok first_delims input in
  tokenize_loop (String.length input) token save [] 0 1.

(** The last character of a string, and the string without it. *)
Fixpoint last_char (s : string) : option ascii :=
  match s with
  | EmptyString => None
  | String c EmptyString => Some c
  | String _ rest => last_char rest
  end.

Fixpoint drop_last_char (s : string) : string :=
  match s with
  | EmptyString => EmptyString
  | String _ EmptyString => EmptyString
  | String c rest => String c (drop_last_char rest)
  end.

(** lines 484-503, called as in [main] with [*numTokens] the number of
    tokens of the array: the value returned, the tokens left and the new
    [*numTokens].  [None] stands for a read outside an object: of
    [tokens[-1]] when there is no token, of the character before an empty
    last token. *)
Definition handleAmpersand (tokens : list string) (numTokens : Z)
    : option (Z * list string * Z) :=
  match last tokens with
  | None => None
  | Some lastToken =>
      (* last token is an ampersand *)
      if String.eqb lastToken "&" then
        Some (1, removelast tokens, wrap_int (numTokens - 1))
      else
        match last_char lastToken with
        | None => None
        | Some c =>
            (* last character of last token is an ampersand *)
            if Ascii.eqb c "&"
            then Some (1, removelast tokens ++ [drop_last_char lastToken], numTokens)
            else Some (0, tokens, numTokens)
        end
  end.

(** What lines 129-162 make of the line [getline] has read. *)
Inductive parsed :=
  | EmptyLine                                  (* [continue] *)
  | Command (tokens : list string) (bgProcess0 : Z) (capacity : Z).

(** lines 138-162 for a line [input] as [getline] returns it (at least
    one character) when it holds no null character, without the cleanup
    pass: the last character is cut off, the rest is split into tokens,
    the ampersand is looked for, and the array gets room for the final
    null pointer.  [None] when [handleAmpersand] reads outside an object
    (or the loop of [tokenize] is out of fuel). *)
Definition parseLine (input : string) : option parsed :=
  let charsRead := Z.of_nat (String.length input) - 1 in
  let input1 := drop_last_char input in
  if charsRead =? 0 then Some EmptyLine
  else
    match tokenize input1 with
    | None => None
    | Some (tokens, numTokens, capacity) =>
        match handleAmpersand tokens numTokens with
        | None => None
        | Some (bgProcess0, tokens1, numTokens1) =>
            if numTokens1 =? 0 then Some EmptyLine
            else
              let capacity1 :=
                if numTokens1 =? capacity then wrap_int (capacity + 1)
                else capacity in
              Some (Command tokens1 bgProcess0 capacity1)
        end
    end.

(** The C string a buffer holds: the characters before its first null
    character.  [getline] counts every character it has read, null
    characters too; [strtok], [strcmp] and [strlen] stop at the first
    one. *)
Fixpoint c_string (buffer : string) : string :=
  match buffer with
  | EmptyString => EmptyString
  | String c rest =>
      if Ascii.eqb c Ascii.zero then EmptyString else String c (c_string rest)
  end.

(** lines 138-162 for any characters [buffer] that [getline] has read
    (at least one): [charsRead] counts them all, the last one is
    overwritten with the terminator, and what is split into tokens is
    the C string the buffer then holds.  For a line without null
    character this is [parseLine]. *)
Definition readLine (buffer : string) : option parsed :=
  let charsRead := Z.of_nat (String.length buffer) - 1 in
  let input := c_string (drop_last_char buffer) in
  if charsRead =? 0 then Some EmptyLine
  else
    match tokenize input with
    | None => None
    | Some (tokens, numTokens, capacity) =>
        match handleAmpersand tokens numTokens with
        | None => None
        | Some (bgProcess0, tokens1, numTokens1) =>
            if numTokens1 =? 0 then Some EmptyLine
            else
              let capacity1 :=
                if numTokens1 =? capacity then wrap_int (capacity + 1)
                else capacity in
              Some (Command tokens1 bgProcess0 capacity1)
        end
    end.

(** ** [joinString] and its buffer

    [joinString] above gives the string built.  Here are the size it
    asks [malloc] for and the writes into the buffer. *)

(** The loop of lines 780-782 on the arguments left, [resultSize] being
    the sum so far. *)
Fixpoint joinString_lengths (argv : list string) (resultSize : Z) : Z :=
  match argv with
  | [] => resultSize
  | a :: rest =>
      joinString_lengths rest (wrap_int (resultSize + Z.of_nat (String.length a)))
  end.

(** lines 778-785: [resultSize] when the buffer is allocated. *)
Definition joinString_resultSize (argc : Z) (argv : list string) : Z :=
  let resultSize := 1 (* null terminator *) in
  let resultSize1 := joinString_lengths (take (Z.to_nat argc) argv) resultSize in
  wrap_int (resultSize1 + (argc - 1)) (* separators *).

(** [strcat(result, src)] where [result] points to [size] characters:
    the string in the buffer afterwards, [None] when the string and its
    terminator do not fit (or an earlier write was outside already). *)
Definition strcat_within (size : Z) (result : option string) (src : string)
    : option string :=
  match result with
  | None => None
  | Some r =>
      if Z.of_nat (String.length (r ++ src)) + 1 <=? size
      then Some (r ++ src)%string else None
  end.

(** The loop of lines 790-795 on the arguments left; [i < argc - 1]
    holds when another argument follows. *)
Fixpoint joinString_fill (size : Z) (argv : list string) (result : option string)
    : option string :=
  match argv with
  | [] => result
  | a :: rest =>
      let result1 := strcat_within size result a in
      let result2 :=
        match rest with
        | [] => result1
        | _ :: _ => strcat_within size result1 " "
        end in
      joinString_fill size rest result2
  end.

(** lines 776-798 with the buffer: the string returned, [None] when
    [argv] has fewer than [argc] strings or a write is outside the
    [resultSize] characters allocated ([result[0]] included). *)
Definition joinString_buffer (argc : Z) (argv : list string) : option string :=
  let resultSize := joinString_resultSize argc argv in
  if Z.of_nat (length argv) <? argc then None
  else if resultSize <? 1 then None
  else joinString_fill resultSize (take (Z.to_nat argc) argv) (Some EmptyString).

Section Turn.
Context `{Platform}.

(** One turn of the read loop for the line [input] (lines 136-242). *)
Definition mainTurn (input : string) (os : os_replies) (st : shell)
    : option (loop_ctl * shell) :=
  match readLine input with
  | None => None
  | Some EmptyLine => Some (mainBody [] 0 os st)
  | Some (Command tokens bgProcess0 _) => Some (mainBody tokens bgProcess0 os st)
  end.

End Turn.

(** ** Leaving the shell: [freeAllJobs] and [cleanUpShell] *)

Section Shutdown.
Context `{Platform}.
(** The number of the hang-up signal, from <signal.h>. *)
Variable SIGHUP : Z.

(** lines 408-418 *)
Definition freeAllJobs (st : shell) : shell :=
  set_jobList [] (fold_left (λ s current, freeJob current s) (jobList st) st).

(** The loop of lines 349-370. *)
Fixpoint cleanUpShell_loop (current : list job) (os : os_replies) (st : shell)
    : shell :=
  match current with
  | [] => st
  | c :: next =>
      if decide (state c = STOPPED) then
        let st1 := emit (EvKill (pgid c) SIGHUP) st in
        if kill_ret os (pgid c) SIGHUP <? 0 then
          cleanUpShell_loop next os (puts "SIGHUP failed" st1)
        else
          let st2 := emit (EvKill (pgid c) SIGCONT) st1 in
          if kill_ret os (pgid c) SIGCONT <? 0 then
            cleanUpShell_loop next os (puts "SIGCONT failed" st2)
          else cleanUpShell_loop next os st2
      else if decide (state c = RUNNING) then
        let st1 := emit (EvKill (pgid c) SIGHUP) st in
        if kill_ret os (pgid c) SIGHUP <? 0 then
          cleanUpShell_loop next os (puts "SIGHUP failed" st1)
        else cleanUpShell_loop next os st1
      else cleanUpShell_loop next os st
  end.

(** lines 341-376: the process ends in [exit(0)], the call after it is
    never made. *)
Definition cleanUpShell (os : os_replies) (st : shell) : shell :=
  let st1 := sig_block {[SIGCHLD]} st in
  let st2 := cleanUpShell_loop (jobList st1) os st1 in
  let st3 := freeAllJobs st2 in
  emit (EvExit 0) st3.

End Shutdown.

(** ** Vocabulary of the further statements *)

(** Some character of [s] is one of [delims]. *)
Fixpoint has_delim (delims : string) (s : string) : bool :=
  match s with
  | EmptyString => false
  | String c rest => is_delim delims c || has_delim delims rest
  end.

(** Every character of [s] is one of [delims]. *)
Fixpoint only_delims (delims : string) (s : string) : bool :=
  match s with
  | EmptyString => true
  | String c rest => is_delim delims c && only_delims delims rest
  end.

(** The value of the decimal digits of [s] after the digits read so far,
    whose value is [result]. *)
Fixpoint dec_value (s : string) (result : Z) : Z :=
  match s with
  | EmptyString => result
  | String c rest => dec_value rest (result * 10 + (Z.of_N (N_of_ascii c) - 48))
  end.

(** [st'] is [st] with more events, all of them satisfying [P]. *)
Definition trace_grows (P : event → Prop) (st st' : shell) : Prop :=
  ∃ es, trace st' = trace st ++ es ∧ Forall P es.

(** The events of the built-ins: output, signals sent, the terminal, the
    wait, the working directory; no process is created, replaced or
    ended and no job is freed. *)
Definition builtin_event (e : event) : Prop :=
  match e with
  | EvWrite _ | EvKill _ _ | EvSignalIgnore _ | EvTcsetpgrp _ _
  | EvWaitpid _ _ _ | EvChdir _ | EvSetenv _ _ => True
  | _ => False
  end.

(** The fields of a job the reaper never writes. *)
Definition fixed_fields (j : job) : Z * string * string * Z * Z :=
  (id j, command j, originalCommand j, pgid j, bgProcess j).

(** The names [main] compares the command with (lines 183-198). *)
Definition builtin_names : list string :=
  ["bg"; "fg"; "cd"; "jobs"; "kill"; "exit"]%string.

(** What leaving the shell does about the job [c], in words of the
    system calls: [kill(pgid, SIGHUP)] for a job that runs or is stopped
    and, for a stopped job, [kill(pgid, SIGCONT)] after a hang-up that
    could be sent; a call that fails is followed by the line "SIGHUP
    failed" or "SIGCONT failed" and nothing more is done about the
    job. *)
Definition shutdown_events `{Platform} (SIGHUP : Z) (os : os_replies) (c : job)
    : list event :=
  let hangup := EvKill (pgid c) SIGHUP in
  let hangup_failed := [hangup; EvWrite ("SIGHUP failed" ++ nl)%string] in
  match state c with
  | RUNNING =>
      if kill_ret os (pgid c) SIGHUP <? 0 then hangup_failed else [hangup]
  | STOPPED =>
      if kill_ret os (pgid c) SIGHUP <? 0 then hangup_failed
      else if kill_ret os (pgid c) SIGCONT <? 0
      then [hangup; EvKill (pgid c) SIGCONT; EvWrite ("SIGCONT failed" ++ nl)%string]
      else [hangup; EvKill (pgid c) SIGCONT]
  | _ => []
  end.

(** The signals sent by the events [es], in order. *)
Fixpoint kills (es : list event) : list (Z * Z) :=
  match es with
  | [] => []
  | EvKill pg sig :: rest => (pg, sig) :: kills rest
  | _ :: rest => kills rest
  end.

(** * Properties *)

(** ** Strings, events and the fields of the state *)

Lemma string_app_cons (x : ascii) (a b : string) :
  (String x a ++ b)%string = String x (a ++ b)%string.
Proof. reflexivity. Qed.

Lemma string_app_assoc (a b c : string) :
  ((a ++ b) ++ c = a ++ (b ++ c))%string.
Proof.
  induction a as [|x a IH]; [reflexivity |].
  now rewrite !string_app_cons, IH.
Qed.

Lemma string_app_nil_r (a : string) : (a ++ EmptyString)%string = a.
Proof.
  induction a as [|x a IH]; [reflexivity |].
  now rewrite string_app_cons, IH.
Qed.

Lemma stdout_app (t1 t2 : list event) :
  stdout (t1 ++ t2) = (stdout t1 ++ stdout t2)%string.
Proof.
  induction t1 as [|e t1 IH]; simpl; [reflexivity |].
  destruct e; simpl; rewrite IH; try reflexivity.
  now rewrite string_app_assoc.
Qed.

Lemma new_events_app (st st' : shell) (es : list event) :
  trace st' = trace st ++ es → new_events st st' = es.
Proof. unfold new_events. intros ->. now rewrite drop_app_length. Qed.

(** ** The cleanup pass *)

Section Cleanup.
Context `{Platform}.

Lemma cleanUpJobs_loop_list (current : list job) :
  ∀ previous st,
    (cleanUpJobs_loop previous current st).1
    = previous ++ filter (λ j, ¬ is_finished j) current.
Proof.
  induction current as [|c next IH]; intros previous st; simpl.
  - now rewrite app_nil_r.
  - destruct (state c) eqn:E; simpl; rewrite IH.
    + rewrite filter_cons_True; [now rewrite <- app_assoc |].
      unfold is_finished. rewrite E. intros [?|?]; discriminate.
    + rewrite filter_cons_True; [now rewrite <- app_assoc |].
      unfold is_finished. rewrite E. intros [?|?]; discriminate.
    + rewrite filter_cons_False; [reflexivity |].
      unfold is_finished. rewrite E. tauto.
    + rewrite filter_cons_False; [reflexivity |].
      unfold is_finished. rewrite E. tauto.
Qed.

Lemma cleanUpJobs_loop_trace (current : list job) :
  ∀ previous st,
    trace (cleanUpJobs_loop previous current st).2
    = trace st ++ flat_map cleanup_events current.
Proof.
  induction current as [|c next IH]; intros previous st; simpl.
  - now rewrite app_nil_r.
  - unfold cleanup_events at 1.
    destruct (state c) eqn:E; simpl; rewrite IH; simpl;
      rewrite <- ?app_assoc; reflexivity.
Qed.

Lemma cleanUpJobs_loop_frame (current : list job) :
  ∀ previous st,
    nextJobId (cleanUpJobs_loop previous current st).2 = nextJobId st
    ∧ sigmask (cleanUpJobs_loop previous current st).2 = sigmask st.
Proof.
  induction current as [|c next IH]; intros previous st; simpl; [easy |].
  destruct (state c); simpl; rewrite !(proj1 (IH _ _)), !(proj2 (IH _ _)); easy.
Qed.

(** The counter follows the length of the chain as long as it fits an
    [int]. *)
Lemma cleanUpJobs_loop_active (current : list job) :
  ∀ previous st,
    activeJobs st = Z.of_nat (length previous + length current) →
    activeJobs st ≤ INT_MAX →
    activeJobs (cleanUpJobs_loop previous current st).2
    = Z.of_nat (length (cleanUpJobs_loop previous current st).1).
Proof.
  unfold INT_MAX.
  induction current as [|c next IH]; intros previous st Hact Hmax; simpl.
  - rewrite Hact. f_equal. simpl. lia.
  - assert (Hdec : wrap_int (activeJobs st - 1)
                   = Z.of_nat (length previous + length next)).
    { unfold wrap_int. simpl in Hact. rewrite Z.mod_small; lia. }
    simpl in Hact.
    destruct (state c); simpl.
    + apply IH; simpl; [rewrite length_app; simpl; lia | lia].
    + apply IH; simpl; [rewrite length_app; simpl; lia | lia].
    + apply IH; simpl; rewrite Hdec; lia.
    + apply IH; simpl; rewrite Hdec; lia.
Qed.

Lemma cleanUpJobs_jobList (st : shell) :
  jobList (cleanUpJobs st) = filter (λ j, ¬ is_finished j) (jobList st).
Proof.
  unfold cleanUpJobs.
  destruct (cleanUpJobs_loop _ _ _) as [l st2] eqn:E. simpl.
  change l with (l, st2).1. rewrite <- E. now rewrite cleanUpJobs_loop_list.
Qed.

Lemma cleanUpJobs_trace (st : shell) :
  trace (cleanUpJobs st) = trace st ++ flat_map cleanup_events (jobList st).
Proof.
  unfold cleanUpJobs.
  destruct (cleanUpJobs_loop _ _ _) as [l st2] eqn:E. simpl.
  change st2 with (l, st2).2. rewrite <- E. now rewrite cleanUpJobs_loop_trace.
Qed.

Lemma cleanUpJobs_frame (st : shell) :
  nextJobId (cleanUpJobs st) = nextJobId st
  ∧ sigmask (cleanUpJobs st) = sigmask st.
Proof.
  unfold cleanUpJobs.
  destruct (cleanUpJobs_loop _ _ _) as [l st2] eqn:E. simpl.
  change st2 with (l, st2).2. rewrite <- E.
  now rewrite (proj1 (cleanUpJobs_loop_frame _ _ _)).
Qed.

Lemma cleanUpJobs_active (st : shell) :
  activeJobs st = Z.of_nat (length (jobList st)) →
  activeJobs st ≤ INT_MAX →
  activeJobs (cleanUpJobs st) = Z.of_nat (length (jobList (cleanUpJobs st))).
Proof.
  intros Hact Hmax. unfold cleanUpJobs.
  destruct (cleanUpJobs_loop _ _ _) as [l st2] eqn:E. simpl.
  change st2 with (l, st2).2. change l with (l, st2).1 at 2. rewrite <- E.
  apply cleanUpJobs_loop_active; simpl; assumption.
Qed.

Lemma stdout_cleanup_events (l : list job) :
  stdout (flat_map cleanup_events l)
  = concat_lines (notice_line <$> filter (λ j, state j = TERMINATED) l).
Proof.
  induction l as [|c next IH]; simpl; [reflexivity |].
  rewrite stdout_app, IH. unfold cleanup_events.
  destruct (decide (state c = TERMINATED)) as [E|E].
  - rewrite filter_cons_True by assumption. cbn [fmap list_fmap concat_lines stdout].
    now rewrite string_app_nil_r.
  - rewrite filter_cons_False by assumption.
    destruct (decide (state c = COMPLETED)); reflexivity.
Qed.

Lemma filter_not_finished_Forall (l : list job) :
  Forall (λ j, ¬ is_finished j) (filter (λ j, ¬ is_finished j) l).
Proof.
  apply Forall_forall. intros j Hj.
  apply list_elem_of_filter in Hj. tauto.
Qed.

(** C2.  The cleanup pass goes through the registry once, from the head.
    It removes exactly the jobs whose state is [COMPLETED] or
    [TERMINATED] and keeps the others in their order; what it does about
    a job is, in the order of the registry, to print the line
    "[id] pgid terminated by signal signum" and then free the job when it
    is [TERMINATED], to free it when it is [COMPLETED], and nothing
    otherwise, so the notice of a terminated job is printed once, before
    the job is removed; after the pass no [COMPLETED] or [TERMINATED] job
    is in the registry; the blocked signals and the job counter for ids
    are as before. *)
Theorem cleanUpJobs_removes_finished (st : shell) :
  jobList (cleanUpJobs st) = filter (λ j, ¬ is_finished j) (jobList st)
  ∧ new_events st (cleanUpJobs st) = flat_map cleanup_events (jobList st)
  ∧ stdout (new_events st (cleanUpJobs st))
    = concat_lines
        ((λ j, "[" ++ fmt_d (id j) ++ "] " ++ fmt_d (pgid j)
               ++ " terminated by signal " ++ fmt_d (termSig j) ++ nl)%string
           <$> filter (λ j, state j = TERMINATED) (jobList st))
  ∧ Forall (λ j, ¬ is_finished j) (jobList (cleanUpJobs st))
  ∧ sigmask (cleanUpJobs st) = sigmask st
  ∧ nextJobId (cleanUpJobs st) = nextJobId st.
Proof.
  pose proof (new_events_app st (cleanUpJobs st) _ (cleanUpJobs_trace st)) as Hn.
  repeat split.
  - apply cleanUpJobs_jobList.
  - exact Hn.
  - rewrite Hn. apply stdout_cleanup_events.
  - rewrite cleanUpJobs_jobList. apply filter_not_finished_Forall.
  - apply cleanUpJobs_frame.
  - apply cleanUpJobs_frame.
Qed.

End Cleanup.

Section CleanupOnLinux.
#[local] Existing Instance Linux.platform.

(** [sleep 5 &], process 100, has been killed by SIGTERM and reaped: the
    next pass prints the line and removes the job. *)
Lemma cleanUpJobs_removes_finished_witness :
  jobList Linux.reaped_after_cleanup
  = [Job 1 "/bin/sleep" "sleep 5" 100 TERMINATED 1 15]
  ∧ stdout (new_events Linux.reaped_after_cleanup
              (cleanUpJobs Linux.reaped_after_cleanup))
    = "[1] 100 terminated by signal 15
"%string
  ∧ jobList (cleanUpJobs Linux.reaped_after_cleanup) = [].
Proof.
  destruct (cleanUpJobs_removes_finished Linux.reaped_after_cleanup)
    as (Hl & _ & Hout & _).
  rewrite Hl, Hout. repeat split.
Defined.

End CleanupOnLinux.

(** ** Searching the registry *)

Lemma list_alter_insert {A} (f : A → A) (l : list A) (i : nat) (x : A) :
  l !! i = Some x → alter f i l = <[i := f x]> l.
Proof.
  revert i. induction l as [|y l IH]; intros [|i] Hx; simpl in *; try discriminate.
  - now inversion Hx.
  - f_equal. now apply IH.
Qed.

Lemma fmap_alter_same {A B} (g : A → B) (f : A → A) (l : list A) (i : nat) :
  (∀ x, g (f x) = g x) → g <$> alter f i l = g <$> l.
Proof.
  intros Hg. revert i. induction l as [|y l IH]; intros [|i]; simpl; try reflexivity.
  - now rewrite Hg.
  - f_equal. apply IH.
Qed.

Lemma find_pgid_None (pgid0 : Z) (l : list job) :
  Forall (λ j, pgid j ≠ pgid0) l → find_pgid pgid0 l = None.
Proof.
  induction 1 as [|c next Hc _ IH]; simpl; [reflexivity |].
  apply Z.eqb_neq in Hc. now rewrite Hc, IH.
Qed.

Lemma find_pgid_first (pgid0 : Z) (l : list job) (i : nat) (j : job) :
  first_with_pgid pgid0 l i j → find_pgid pgid0 l = Some i.
Proof.
  revert i. induction l as [|c next IH]; intros i (Hi & Hp & Hbefore).
  - discriminate.
  - simpl. destruct i as [|i]; simpl in Hi.
    + inversion Hi; subst. now rewrite Z.eqb_refl.
    + assert (Hc : pgid c ≠ pgid0) by (apply (Hbefore 0%nat c); [lia | reflexivity]).
      apply Z.eqb_neq in Hc. rewrite Hc.
      rewrite (IH i); [reflexivity |].
      repeat split; try assumption.
      intros k j' Hk Hj'. apply (Hbefore (S k) j'); [lia | exact Hj'].
Qed.

Lemma find_pgid_Some (pgid0 : Z) (l : list job) (i : nat) :
  find_pgid pgid0 l = Some i → ∃ j, first_with_pgid pgid0 l i j.
Proof.
  revert i. induction l as [|c next IH]; intros i Hf; simpl in Hf; [discriminate |].
  destruct (pgid c =? pgid0) eqn:E.
  - inversion Hf; subst. exists c. apply Z.eqb_eq in E.
    repeat split; [assumption |]. intros k j' Hk. lia.
  - destruct (find_pgid pgid0 next) as [i'|] eqn:E'; [|discriminate].
    inversion Hf; subst. destruct (IH i' eq_refl) as (j & Hi & Hp & Hbefore).
    exists j. repeat split; try assumption.
    intros [|k] j' Hk Hj'; simpl in Hj'.
    + inversion Hj'; subst. now apply Z.eqb_neq.
    + apply (Hbefore k j'); [lia | exact Hj'].
Qed.

Lemma find_id_None (jid : Z) (l : list job) :
  Forall (λ j, id j ≠ jid) l → find_id jid l = None.
Proof.
  induction 1 as [|c next Hc _ IH]; simpl; [reflexivity |].
  apply Z.eqb_neq in Hc. now rewrite Hc, IH.
Qed.

Lemma find_id_first (jid : Z) (l : list job) (i : nat) (j : job) :
  first_with_id jid l i j → find_id jid l = Some (i, j).
Proof.
  revert i. induction l as [|c next IH]; intros i (Hi & Hp & Hbefore).
  - discriminate.
  - simpl. destruct i as [|i]; simpl in Hi.
    + inversion Hi; subst. now rewrite Z.eqb_refl.
    + assert (Hc : id c ≠ jid) by (apply (Hbefore 0%nat c); [lia | reflexivity]).
      apply Z.eqb_neq in Hc. rewrite Hc. simpl.
      rewrite (IH i); [reflexivity |].
      repeat split; try assumption.
      intros k j' Hk Hj'. apply (Hbefore (S k) j'); [lia | exact Hj'].
Qed.

Lemma find_id_Some (jid : Z) (l : list job) (i : nat) (j : job) :
  find_id jid l = Some (i, j) → first_with_id jid l i j.
Proof.
  revert i. induction l as [|c next IH]; intros i Hf; simpl in Hf; [discriminate |].
  destruct (id c =? jid) eqn:E; simpl in Hf.
  - inversion Hf; subst. apply Z.eqb_eq in E.
    repeat split; [assumption |]. intros k j' Hk. lia.
  - destruct (find_id jid next) as [[i' j0]|] eqn:E'; [|discriminate].
    simpl in Hf. inversion Hf; subst. destruct (IH i' eq_refl) as (Hi & Hp & Hbefore).
    repeat split; try assumption.
    intros [|k] j' Hk Hj'; simpl in Hj'.
    + inversion Hj'; subst. now apply Z.eqb_neq.
    + apply (Hbefore k j'); [lia | exact Hj'].
Qed.

Lemma find_id_inv_None (jid : Z) (l : list job) :
  find_id jid l = None → Forall (λ j, id j ≠ jid) l.
Proof.
  induction l as [|c next IH]; simpl; intros Hf; [constructor |].
  destruct (id c =? jid) eqn:E; simpl in Hf; [discriminate |].
  destruct (find_id jid next); [discriminate |].
  constructor; [now apply Z.eqb_neq | now apply IH].
Qed.

(** The search by id either finds the first job with the id or there is
    no job with it. *)
Lemma find_id_cases (jid : Z) (l : list job) :
  (∃ i j, first_with_id jid l i j) ∨ Forall (λ j, id j ≠ jid) l.
Proof.
  destruct (find_id jid l) as [[i j]|] eqn:E.
  - left. exists i, j. now apply find_id_Some.
  - right. now apply find_id_inv_None.
Qed.

Lemma find_pgid_cases (pgid0 : Z) (l : list job) :
  (∃ i j, first_with_pgid pgid0 l i j) ∨ Forall (λ j, pgid j ≠ pgid0) l.
Proof.
  induction l as [|c next IH].
  - right. constructor.
  - destruct (decide (pgid c = pgid0)) as [E|E].
    + left. exists 0%nat, c. repeat split; [assumption |]. intros k j' Hk. lia.
    + destruct IH as [(i & j & Hi & Hp & Hbefore)|Hno].
      * left. exists (S i), j. repeat split; try assumption.
        intros [|k] j' Hk Hj'; simpl in Hj'.
        -- now inversion Hj'; subst.
        -- apply (Hbefore k j'); [lia | exact Hj'].
      * right. now constructor.
Qed.

(** ** The reaper *)

Section Reaper.
Context `{Platform}.

Lemma markJob_unmatched (pgid0 : Z) (s : job_state) (t : Z) (st : shell) :
  Forall (λ j, pgid j ≠ pgid0) (jobList st) → markJob pgid0 s t st = (-1, st).
Proof. intros Hno. unfold markJob. now rewrite find_pgid_None. Qed.

Lemma markJob_matched (pgid0 : Z) (s : job_state) (t : Z) (st : shell) i j :
  first_with_pgid pgid0 (jobList st) i j →
  markJob pgid0 s t st
  = (0, set_jobList (<[i := mark s t j]> (jobList st)) st).
Proof.
  intros Hfirst. unfold markJob. rewrite (find_pgid_first _ _ _ _ Hfirst).
  unfold modify_job. destruct Hfirst as (Hi & _).
  now rewrite (list_alter_insert _ _ _ _ Hi).
Qed.

Lemma wait_signaled_only (s : Z) :
  WIFSIGNALED s = true → WIFEXITED s = false ∧ WIFSTOPPED s = false.
Proof.
  intros Hs. split.
  - destruct (WIFEXITED s) eqn:E; [|reflexivity].
    destruct (wait_exited_only s E) as [_ E']. congruence.
  - destruct (WIFSTOPPED s) eqn:E; [|reflexivity].
    pose proof (wait_stopped_only s E). congruence.
Qed.

Lemma wait_stopped_not_exited (s : Z) :
  WIFSTOPPED s = true → WIFEXITED s = false.
Proof.
  intros Hs. destruct (WIFEXITED s) eqn:E; [|reflexivity].
  destruct (wait_exited_only s E) as [E' _]. congruence.
Qed.

Lemma reap_unmatched (pid status : Z) (st : shell) :
  Forall (λ j, pgid j ≠ pid) (jobList st) → reap pid status st = st.
Proof.
  intros Hno. unfold reap.
  assert (Hk : ∀ s t, (markJob pid s t (sig_block all_signals st)).2
                      = sig_block all_signals st).
  { intros s t. now rewrite markJob_unmatched. }
  destruct (WIFEXITED status), (WIFSTOPPED status), (WIFSIGNALED status);
    rewrite ?Hk; now destruct st.
Qed.

Lemma reap_matched (pid status : Z) (st : shell) i j :
  first_with_pgid pid (jobList st) i j →
  (WIFEXITED status = true →
     reap pid status st
     = set_jobList (<[i := set_state COMPLETED j]> (jobList st)) st)
  ∧ (WIFSTOPPED status = true →
     reap pid status st
     = set_jobList (<[i := set_state STOPPED j]> (jobList st)) st)
  ∧ (WIFSIGNALED status = true →
     reap pid status st
     = set_jobList
         (<[i := set_termSig (WTERMSIG status) (set_state TERMINATED j)]> (jobList st))
         st).
Proof.
  intros Hfirst.
  assert (Hm : ∀ s t, markJob pid s t (sig_block all_signals st)
     = (0, set_jobList (<[i := mark s t j]> (jobList st)) (sig_block all_signals st))).
  { intros s t. exact (markJob_matched pid s t (sig_block all_signals st) i j Hfirst). }
  repeat split; intros Hs; unfold reap.
  - destruct (wait_exited_only _ Hs) as [-> ->]. rewrite Hs, Hm. reflexivity.
  - rewrite (wait_stopped_not_exited _ Hs), (wait_stopped_only _ Hs), Hs, Hm.
    reflexivity.
  - destruct (wait_signaled_only _ Hs) as [-> ->]. rewrite Hs, Hm. reflexivity.
Qed.

Lemma reap_frame (pid status : Z) (st : shell) :
  nextJobId (reap pid status st) = nextJobId st
  ∧ activeJobs (reap pid status st) = activeJobs st
  ∧ sigmask (reap pid status st) = sigmask st
  ∧ trace (reap pid status st) = trace st
  ∧ id <$> jobList (reap pid status st) = id <$> jobList st.
Proof.
  unfold reap, markJob. simpl.
  destruct (WIFEXITED status), (WIFSTOPPED status), (WIFSIGNALED status); simpl;
    repeat (match goal with
            | |- context [find_pgid ?p ?l] => destruct (find_pgid p l); simpl
            end);
    repeat split; rewrite ?fmap_alter_same; try reflexivity;
    intros x; unfold mark; simpl; destruct (decide _); reflexivity.
Qed.

Lemma markJob_emit_all (pgid0 : Z) (s : job_state) (t : Z) es (st : shell) :
  (markJob pgid0 s t (emit_all es st)).2 = emit_all es (markJob pgid0 s t st).2.
Proof.
  unfold markJob. cbn [jobList emit_all].
  destruct (find_pgid pgid0 (jobList st)); reflexivity.
Qed.

Lemma reap_emit_all (pid status : Z) (es : list event) (st : shell) :
  reap pid status (emit_all es st) = emit_all es (reap pid status st).
Proof.
  unfold reap.
  change (sig_block all_signals (emit_all es st))
    with (emit_all es (sig_block all_signals st)).
  destruct (WIFEXITED status), (WIFSTOPPED status), (WIFSIGNALED status);
    rewrite ?markJob_emit_all; reflexivity.
Qed.

Lemma reap_all_emit_all (replies : list (Z * Z)) :
  ∀ es st, reap_all replies (emit_all es st) = emit_all es (reap_all replies st).
Proof.
  induction replies as [|[pid status] rest IH]; intros es st; [reflexivity |].
  unfold reap_all in *. simpl. now rewrite reap_emit_all, IH.
Qed.

Lemma emit_all_emit_all (es1 es2 : list event) (st : shell) :
  emit_all es2 (emit_all es1 st) = emit_all (es1 ++ es2) st.
Proof. unfold emit_all. simpl. now rewrite <- app_assoc. Qed.

(** When every answer of [waitpid] reports a child, the handler reaps
    them all, and stops at the call that reports none. *)
Lemma sigchldHandler_all (replies : list (Z * Z)) :
  ∀ st,
    Forall (λ r, 0 < r.1) replies →
    sigchldHandler replies st
    = emit_all (replicate (S (length replies))
                  (EvWaitpid (-1) (Z.lor WUNTRACED WNOHANG) (sigmask st)))
        (reap_all replies st).
Proof.
  induction replies as [|[pid status] rest IH]; intros st Hpos.
  - reflexivity.
  - inversion Hpos as [|? ? Hp Hrest]; subst. simpl in Hp.
    apply Z.gtb_lt in Hp. cbn [sigchldHandler]. rewrite Hp.
    change (emit ?e st) with (emit_all [e] st).
    rewrite IH by exact Hrest.
    rewrite !reap_emit_all, reap_all_emit_all, emit_all_emit_all.
    cbn [sigmask emit_all].
    destruct (reap_frame pid status st) as (_ & _ & -> & _).
    reflexivity.
Qed.

End Reaper.

Section ReaperClaim.
Context `{Platform}.

Lemma sigchldHandler_stops (good more : list (Z * Z)) (p s : Z) (st : shell) :
  Forall (λ r, 0 < r.1) good → p ≤ 0 →
  sigchldHandler (good ++ (p, s) :: more) st = sigchldHandler good st.
Proof.
  intros Hgood Hp. revert st.
  induction Hgood as [|[pid status] rest Hpos _ IH]; intros st.
  - simpl. destruct (p >? 0) eqn:E; [apply Z.gtb_lt in E; lia | reflexivity].
  - simpl in Hpos. apply Z.gtb_lt in Hpos. cbn [app sigchldHandler].
    rewrite Hpos. apply IH.
Qed.

(** C4.  What the reaper does with one status [waitpid] gave it for the
    child [pid]: when no job of the registry has this process group id
    the whole state is left as it was; otherwise the first job with this
    process group id is marked [COMPLETED] for a normal exit, [STOPPED]
    for a stop, and [TERMINATED] with the terminating signal recorded for
    a death by signal, and nothing else changes.  The handler calls
    [waitpid] without blocking and reaps every child reported, in order,
    until the call that reports none (a return value that is not
    positive), where it stops. *)
Theorem sigchldHandler_marks_jobs (pid status : Z) (st : shell) :
  (Forall (λ j, pgid j ≠ pid) (jobList st) → reap pid status st = st)
  ∧ (∀ i j, first_with_pgid pid (jobList st) i j →
       (WIFEXITED status = true →
          reap pid status st
          = set_jobList (<[i := set_state COMPLETED j]> (jobList st)) st)
       ∧ (WIFSTOPPED status = true →
          reap pid status st
          = set_jobList (<[i := set_state STOPPED j]> (jobList st)) st)
       ∧ (WIFSIGNALED status = true →
          reap pid status st
          = set_jobList
              (<[i := set_termSig (WTERMSIG status) (set_state TERMINATED j)]>
                 (jobList st)) st))
  ∧ (∀ replies, Forall (λ r, 0 < r.1) replies →
       sigchldHandler replies st
       = emit_all (replicate (S (length replies))
                     (EvWaitpid (-1) (Z.lor WUNTRACED WNOHANG) (sigmask st)))
           (reap_all replies st))
  ∧ (∀ replies p s more, Forall (λ r, 0 < r.1) replies → p ≤ 0 →
       sigchldHandler (replies ++ (p, s) :: more) st
       = sigchldHandler replies st).
Proof.
  split; [apply reap_unmatched |].
  split; [intros i j; apply reap_matched |].
  split; [intros replies; apply sigchldHandler_all |].
  intros replies p s more. apply sigchldHandler_stops.
Qed.

End ReaperClaim.

Section ReaperOnLinux.
#[local] Existing Instance Linux.platform.

Lemma sigchldHandler_marks_jobs_witness :
  reap 999 Linux.status_exit0 Linux.two_jobs = Linux.two_jobs
  ∧ state <$> jobList (reap 100 Linux.status_exit0 Linux.two_jobs)
    = [COMPLETED; STOPPED]
  ∧ state <$> jobList (reap 100 Linux.status_stopped Linux.two_jobs)
    = [STOPPED; STOPPED]
  ∧ (λ j, (state j, termSig j)) <$> jobList (reap 101 Linux.status_sigterm Linux.two_jobs)
    = [(RUNNING, -1); (TERMINATED, 15)]
  ∧ state <$> jobList (sigchldHandler [(101, Linux.status_sigterm); (100, 0)] Linux.two_jobs)
    = [COMPLETED; TERMINATED]
  ∧ sigchldHandler [(100, 0); (0, 0); (101, 0)] Linux.two_jobs
    = sigchldHandler [(100, 0)] Linux.two_jobs.
Proof.
  assert (F0 : first_with_pgid 100 (jobList Linux.two_jobs) 0
                 (Job 1 "/bin/sleep" "sleep 5" 100 RUNNING 1 (-1))).
  { repeat split. intros k j' Hk. lia. }
  assert (F1 : first_with_pgid 101 (jobList Linux.two_jobs) 1
                 (Job 2 "/bin/sleep" "sleep 10" 101 STOPPED 0 (-1))).
  { repeat split. intros [|[|k]] j' Hk Hj; [|lia|lia].
    vm_compute in Hj. inversion Hj. simpl. lia. }
  split.
  { apply (sigchldHandler_marks_jobs 999 Linux.status_exit0 Linux.two_jobs).
    vm_compute. repeat constructor; discriminate. }
  split.
  { destruct (sigchldHandler_marks_jobs 100 Linux.status_exit0 Linux.two_jobs)
      as (_ & Hm & _).
    destruct (Hm _ _ F0) as (-> & _); reflexivity. }
  split.
  { destruct (sigchldHandler_marks_jobs 100 Linux.status_stopped Linux.two_jobs)
      as (_ & Hm & _).
    destruct (Hm _ _ F0) as (_ & -> & _); reflexivity. }
  split.
  { destruct (sigchldHandler_marks_jobs 101 Linux.status_sigterm Linux.two_jobs)
      as (_ & Hm & _).
    destruct (Hm _ _ F1) as (_ & _ & ->); reflexivity. }
  split.
  { destruct (sigchldHandler_marks_jobs 0 0 Linux.two_jobs) as (_ & _ & Hall & _).
    rewrite Hall; [reflexivity |]. repeat constructor. }
  { destruct (sigchldHandler_marks_jobs 0 0 Linux.two_jobs) as (_ & _ & _ & Hstop).
    apply (Hstop [(100, 0)] 0 0 [(101, 0)]); [repeat constructor | lia]. }
Defined.

End ReaperOnLinux.

(** ** Operations that create and remove no job *)

Create HintDb frame.

Lemma same_ids_refl (st : shell) : same_ids st st.
Proof. now repeat split. Qed.

Lemma same_ids_trans (st1 st2 st3 : shell) :
  same_ids st1 st2 → same_ids st2 st3 → same_ids st1 st3.
Proof. intros (A & B & C) (D & E & F). repeat split; congruence. Qed.

Lemma same_ids_emit (e : event) (st st' : shell) :
  same_ids st st' → same_ids st (emit e st').
Proof. easy. Qed.

Lemma same_ids_puts (s : string) (st st' : shell) :
  same_ids st st' → same_ids st (puts s st').
Proof. easy. Qed.

Lemma same_ids_printf (s : string) (st st' : shell) :
  same_ids st st' → same_ids st (printf s st').
Proof. easy. Qed.

Lemma same_ids_sig_setmask (m : gset Z) (st st' : shell) :
  same_ids st st' → same_ids st (sig_setmask m st').
Proof. easy. Qed.

Lemma same_ids_sig_block (m : gset Z) (st st' : shell) :
  same_ids st st' → same_ids st (sig_block m st').
Proof. easy. Qed.

Lemma same_ids_emit_all (es : list event) (st st' : shell) :
  same_ids st st' → same_ids st (emit_all es st').
Proof. easy. Qed.

Lemma same_ids_modify_job (i : nat) (f : job → job) (st st' : shell) :
  (∀ x, id (f x) = id x) → same_ids st st' → same_ids st (modify_job i f st').
Proof.
  intros Hf (A & B & C). repeat split; try assumption.
  simpl. now rewrite fmap_alter_same.
Qed.

Lemma id_set_state s x : id (set_state s x) = id x.
Proof. reflexivity. Qed.
Lemma id_set_bgProcess b x : id (set_bgProcess b x) = id x.
Proof. reflexivity. Qed.
Lemma id_set_termSig t x : id (set_termSig t x) = id x.
Proof. reflexivity. Qed.

#[local] Hint Resolve same_ids_refl same_ids_emit same_ids_puts same_ids_printf
  same_ids_sig_setmask same_ids_sig_block same_ids_emit_all same_ids_modify_job
  id_set_state id_set_bgProcess id_set_termSig : frame.

Section Frames.
Context `{Platform}.

Lemma same_ids_record_status (i : nat) (status : Z) (st st' : shell) :
  same_ids st st' → same_ids st (record_status i status st').
Proof.
  intros Hs. unfold record_status.
  destruct (WIFEXITED status), (WIFSTOPPED status), (WIFSIGNALED status);
    auto 10 with frame.
Qed.

Lemma same_ids_foreground_wait (pid : Z) (os : os_replies) (st st' : shell) :
  same_ids st st' → same_ids st (foreground_wait pid os st').
Proof. intros Hs. unfold foreground_wait. auto 10 with frame. Qed.

Lemma same_ids_bg argv numTokens os (st : shell) :
  same_ids st (bg argv numTokens os st).
Proof. unfold bg. repeat case_match; auto 10 with frame. Qed.

Lemma same_ids_fg argv numTokens os (st : shell) :
  same_ids st (fg argv numTokens os st).
Proof.
  unfold fg. repeat case_match; simplify_eq;
    auto 10 using same_ids_record_status, same_ids_foreground_wait with frame.
Qed.

Lemma same_ids_killFunc argv numTokens os (st : shell) :
  same_ids st (killFunc argv numTokens os st).
Proof. unfold killFunc. repeat case_match; auto 10 with frame. Qed.

Lemma printJob_events (j : job) (st : shell) :
  printJob j st = emit_all (listing_events j) st.
Proof.
  unfold printJob, listing_events, emit_all, puts, printf, emit.
  destruct (state j), (bgProcess j =? 0); simpl; rewrite <- ?app_assoc; reflexivity.
Qed.

Lemma printJobs_events (st : shell) :
  printJobs st = emit_all (flat_map listing_events (jobList st)) st.
Proof.
  unfold printJobs. generalize (jobList st) as l. intros l. revert st.
  induction l as [|j l IH]; intros st; simpl.
  - unfold emit_all. rewrite app_nil_r. now destruct st.
  - rewrite IH, printJob_events, emit_all_emit_all. reflexivity.
Qed.

Lemma same_ids_jobs numTokens (st : shell) : same_ids st (jobs numTokens st).
Proof.
  unfold jobs. case_match; [auto with frame |].
  rewrite printJobs_events. auto with frame.
Qed.

Lemma same_ids_reap pid status (st : shell) : same_ids st (reap pid status st).
Proof.
  destruct (reap_frame pid status st) as (A & B & _ & _ & C). now repeat split.
Qed.

Lemma same_ids_sigchldHandler (replies : list (Z * Z)) :
  ∀ st, same_ids st (sigchldHandler replies st).
Proof.
  induction replies as [|[pid status] rest IH]; intros st; cbn [sigchldHandler].
  - auto with frame.
  - case_match; [|auto with frame].
    eapply same_ids_trans; [|apply IH].
    eapply same_ids_trans; [|apply same_ids_reap]. auto with frame.
Qed.

Lemma same_ids_deliver_SIGCHLD replies (st : shell) :
  same_ids st (deliver_SIGCHLD replies st).
Proof.
  unfold deliver_SIGCHLD. case_match; [auto with frame |].
  apply same_ids_sig_setmask.
  eapply same_ids_trans; [|apply same_ids_sigchldHandler]. auto with frame.
Qed.

(** ** The launcher and the registry *)

Lemma runCommand_no_job command0 argc argv bgProcess0 os (st : shell) :
  fork_ret os ≤ 0 →
  same_ids st (runCommand command0 argc argv bgProcess0 os st).2.
Proof.
  intros Hf. unfold runCommand.
  destruct (fork_ret os =? 0) eqn:E0.
  - repeat case_match; simpl; auto 10 with frame.
  - destruct (fork_ret os >? 0) eqn:E1; [apply Z.gtb_lt in E1; lia |].
    simpl. auto with frame.
Qed.

Lemma registry_of_addJob (j : job) (st : shell) :
  jobList (addJob j st) = jobList st ++ [j]
  ∧ nextJobId (addJob j st) = nextJobId st
  ∧ activeJobs (addJob j st) = wrap_int (activeJobs st + 1)
  ∧ sigmask (addJob j st) = sigmask st
  ∧ trace (addJob j st) = trace st.
Proof. unfold addJob. simpl. destruct (jobList st); simpl; easy. Qed.

(** A successful [fork] makes the parent add one job at the tail, with
    the id [createJob] computes, which becomes [nextJobId]. *)
Lemma runCommand_creates command0 argc argv bgProcess0 os (st : shell) :
  0 < fork_ret os →
  let st' := (runCommand command0 argc argv bgProcess0 os st).2 in
  id <$> jobList st' = (id <$> jobList st) ++ [fresh_id st]
  ∧ nextJobId st' = fresh_id st
  ∧ activeJobs st' = wrap_int (activeJobs st + 1).
Proof.
  intros Hf. unfold runCommand.
  destruct (fork_ret os =? 0) eqn:E0; [apply Z.eqb_eq in E0; lia |].
  apply Z.gtb_lt in Hf. rewrite Hf. unfold createJob, fresh_id.
  set (st4 := emit _ (sig_block all_signals _)).
  assert (Hn : ∀ b s,
    let j := Job (nextJobId (if activeJobs st =? 0 then set_nextJobId 1 st4
                             else set_nextJobId (wrap_int (nextJobId st + 1)) st4))
               command0 (joinString argc argv) (fork_ret os) s b (-1) in
    let st6 := addJob j (if activeJobs st =? 0 then set_nextJobId 1 st4
                         else set_nextJobId (wrap_int (nextJobId st + 1)) st4) in
    same_ids (Shell (jobList st ++ [j])
                (if activeJobs st =? 0 then 1 else wrap_int (nextJobId st + 1))
                (wrap_int (activeJobs st + 1)) ∅ []) st6).
  { intros b s. simpl. unfold addJob. simpl.
    destruct (activeJobs st =? 0); simpl; destruct (jobList st); simpl;
      repeat split. }
  cbn [activeJobs nextJobId] in *.
  change (activeJobs st4) with (activeJobs st).
  change (nextJobId st4) with (nextJobId st).
  destruct (bgProcess0 =? 0) eqn:Eb; cbn [negb].
  - destruct (waitpid_ret os) as [wpid status].
    specialize (Hn 0 RUNNING). cbv zeta in Hn.
    match type of Hn with same_ids ?a ?b =>
      assert (Hs : same_ids b
        (if wpid <? 0
         then (Returned (-1), puts (strerror_errno os) (foreground_wait (fork_ret os) os b))
         else (Returned 0, sig_setmask (sigmask st)
                 (record_status (length (jobList b) - 1) status
                    (foreground_wait (fork_ret os) os b)))).2)
    end.
    { destruct (wpid <? 0); simpl;
        auto 10 using same_ids_record_status, same_ids_foreground_wait with frame. }
    destruct (same_ids_trans _ _ _ Hn Hs) as (A & B & C).
    simpl in A, B, C. rewrite fmap_app in A. simpl in A.
    destruct (activeJobs st =? 0); simpl in *; auto.
  - specialize (Hn 1 RUNNING). cbv zeta in Hn.
    destruct Hn as (A & B & C).
    simpl in A, B, C. rewrite fmap_app in A. simpl in A.
    destruct (activeJobs st =? 0); simpl in *; auto.
Qed.

End Frames.

(** ** The registry along a run *)

Lemma sublist_Forall_keep {A} (P : A → Prop) (l1 l2 : list A) :
  sublist l1 l2 → Forall P l2 → Forall P l1.
Proof.
  induction 1 as [|x l1 l2 _ IH|x l1 l2 _ IH]; intros HP.
  - constructor.
  - inversion HP; subst. constructor; auto.
  - inversion HP; subst. auto.
Qed.

Lemma sublist_StronglySorted {A} (R : relation A) (l1 l2 : list A) :
  sublist l1 l2 → StronglySorted R l2 → StronglySorted R l1.
Proof.
  induction 1 as [|x l1 l2 Hs IH|x l1 l2 _ IH]; intros HS.
  - constructor.
  - inversion HS; subst. constructor; [auto |].
    eapply sublist_Forall_keep; eassumption.
  - inversion HS; subst. auto.
Qed.

Lemma wrap_int_small (z : Z) :
  -2147483648 ≤ z ≤ INT_MAX → wrap_int z = z.
Proof. unfold wrap_int, INT_MAX. intros Hz. rewrite Z.mod_small; lia. Qed.

Lemma registry_ok_same_ids (n : Z) (st st' : shell) :
  same_ids st st' → registry_ok n st → registry_ok n st'.
Proof.
  intros (Hids & Hnext & Hact) (A & B & C & D & E).
  assert (Hlen : length (jobList st') = length (jobList st)).
  { rewrite <- (length_fmap id (jobList st')), Hids. apply length_fmap. }
  unfold registry_ok. rewrite Hids, Hnext, Hact, Hlen. easy.
Qed.

Section Invariant.
Context `{Platform}.

Lemma registry_ok_cleanUpJobs (n : Z) (st : shell) :
  n ≤ INT_MAX → registry_ok n st → registry_ok n (cleanUpJobs st).
Proof.
  intros Hn (A & B & C & D & E).
  assert (Hsub : sublist (id <$> jobList (cleanUpJobs st)) (id <$> jobList st)).
  { rewrite cleanUpJobs_jobList. apply fmap_sublist, sublist_filter. }
  unfold registry_ok. rewrite (proj1 (cleanUpJobs_frame st)).
  split; [apply cleanUpJobs_active; lia |].
  split.
  { rewrite cleanUpJobs_jobList.
    pose proof (length_filter (λ j, ¬ is_finished j) (jobList st)). lia. }
  split; [assumption |].
  split; [eapply sublist_Forall_keep; eassumption |].
  eapply sublist_StronglySorted; eassumption.
Qed.

Lemma fresh_id_ok (n : Z) (st : shell) :
  registry_ok n st → n + 1 ≤ INT_MAX →
  fresh_id st = (if decide (jobList st = []) then 1 else nextJobId st + 1)
  ∧ (jobList st ≠ [] → 1 ≤ n).
Proof.
  intros (A & B & C & _) Hn. unfold fresh_id. rewrite A.
  destruct (jobList st) as [|j l]; simpl.
  - split; [reflexivity | congruence].
  - destruct (decide (j :: l = [])) as [?|_]; [discriminate |].
    simpl in B. split; [|lia].
    destruct (Z.of_nat (S (length l)) =? 0) eqn:E; [apply Z.eqb_eq in E; lia |].
    apply wrap_int_small. unfold INT_MAX in *. lia.
Qed.

Lemma registry_ok_runCommand (n : Z) command0 argc argv bgProcess0 os (st : shell) :
  registry_ok n st → n + 1 ≤ INT_MAX → 0 < fork_ret os →
  registry_ok (n + 1) (runCommand command0 argc argv bgProcess0 os st).2.
Proof.
  intros Hok Hn Hf.
  destruct (runCommand_creates command0 argc argv bgProcess0 os st Hf)
    as (Hids & Hnext & Hact).
  destruct (fresh_id_ok n st Hok Hn) as (Hfresh & Hne).
  destruct Hok as (A & B & C & D & E).
  assert (Hlen : length (jobList (runCommand command0 argc argv bgProcess0 os st).2)
                 = S (length (jobList st))).
  { rewrite <- (length_fmap id), Hids, length_app, length_fmap. simpl. lia. }
  assert (Hlast : Forall (λ k, k < fresh_id st) (id <$> jobList st)).
  { rewrite Hfresh. destruct (decide (jobList st = [])) as [->|_]; [constructor |].
    eapply Forall_impl; [exact D |]. simpl. intros k Hk. lia. }
  assert (Hone : 1 ≤ fresh_id st ≤ Z.max 1 (n + 1)).
  { rewrite Hfresh. destruct (decide (jobList st = [])) as [|Hl]; [lia |].
    specialize (Hne Hl). lia. }
  unfold registry_ok. rewrite Hids, Hnext, Hact, Hlen.
  split; [rewrite wrap_int_small; unfold INT_MAX in *; lia |].
  split; [lia |].
  split; [assumption |].
  split.
  - apply Forall_app. split.
    + apply Forall_forall. intros k Hk.
      rewrite Forall_forall in D, Hlast.
      specialize (D k Hk). specialize (Hlast k Hk). lia.
    + repeat constructor; lia.
  - apply StronglySorted_app_2; [| assumption | repeat constructor].
    intros x1 x2 H1 H2. apply list_elem_of_singleton in H2. subst x2.
    rewrite Forall_forall in Hlast. now apply Hlast.
Qed.

Lemma exec1_quiet_same_ids (o : op) (st : shell) :
  creates o = false → o ≠ OpCleanup → same_ids st (exec1 o st).
Proof.
  intros Hq Hc. destruct o; simpl in *; try congruence.
  - apply runCommand_no_job. destruct (fork_ret os >? 0) eqn:E; [discriminate |].
    rewrite Z.gtb_ltb in E. apply Z.ltb_ge in E. exact E.
  - apply same_ids_deliver_SIGCHLD.
  - apply same_ids_bg.
  - apply same_ids_fg.
  - apply same_ids_killFunc.
  - apply same_ids_jobs.
Qed.

(** An operation that creates no job leaves [nextJobId] alone. *)
Lemma exec1_quiet (n : Z) (o : op) (st : shell) :
  creates o = false → n ≤ INT_MAX → registry_ok n st →
  registry_ok n (exec1 o st) ∧ nextJobId (exec1 o st) = nextJobId st.
Proof.
  intros Hq Hn Hok.
  assert (Hc : o = OpCleanup ∨ o ≠ OpCleanup) by (destruct o; auto; now right).
  destruct Hc as [->|Hc].
  - split; [now apply registry_ok_cleanUpJobs | apply cleanUpJobs_frame].
  - pose proof (exec1_quiet_same_ids o st Hq Hc) as Hs. split.
    + eapply registry_ok_same_ids; eassumption.
    + apply Hs.
Qed.

Lemma exec_quiet (n : Z) (qs : list op) :
  ∀ st, Forall (λ o, creates o = false) qs → n ≤ INT_MAX → registry_ok n st →
    registry_ok n (exec qs st) ∧ nextJobId (exec qs st) = nextJobId st.
Proof.
  induction qs as [|o qs IH]; intros st Hq Hn Hok; simpl; [easy |].
  inversion Hq; subst.
  destruct (exec1_quiet n o st) as (Hok1 & Hnext1); try assumption.
  destruct (IH (exec1 o st)) as (Hok2 & Hnext2); try assumption.
  split; [assumption | congruence].
Qed.

(** The registry stays well formed along every run in which the number
    of jobs created fits an [int]. *)
Lemma exec_registry_ok (ops : list op) :
  ∀ n st, registry_ok n st → n + Z.of_nat (creations ops) ≤ INT_MAX →
    registry_ok (n + Z.of_nat (creations ops)) (exec ops st).
Proof.
  induction ops as [|o ops IH]; intros n st Hok Hn; simpl in *.
  - now rewrite Z.add_0_r.
  - destruct (creates o) eqn:Ec.
    + replace (n + Z.of_nat (1 + creations ops))
        with ((n + 1) + Z.of_nat (creations ops)) in * by lia.
      apply IH; [|lia].
      destruct o; simpl in Ec; try discriminate.
      apply registry_ok_runCommand; [assumption | lia | now apply Z.gtb_lt].
    + simpl in *. apply IH; [|lia].
      apply exec1_quiet; [assumption | lia | assumption].
Qed.

Lemma registry_ok_initial : registry_ok 0 initial.
Proof. unfold registry_ok. simpl. repeat split; try lia; constructor. Qed.

End Invariant.

(** ** Job ids *)

Section JobIds.
Context `{Platform}.

(** C1.  Take any run of the shell from its start, a launch [r1] after
    it, then operations [qs] that create no job (cleanup passes, reaps,
    built-ins, failed launches), then a launch [r2], the number of jobs
    created fitting an [int].  Each launch adds one job at the tail of the
    registry; let [k1] and [k2] be the ids of the two jobs.  Then [k2] is
    1 when no job is tracked at the time of [r2] and [k1 + 1] otherwise,
    which is what [createJob] returns there whatever its arguments; and
    [k1] is 1 when [r1] is the first launch of the run.  So the ids go up
    by one from launch to launch while the registry is not empty, and
    start again at 1 after it has become empty.  The counter
    [activeJobs] that [createJob] tests is the number of tracked jobs. *)
Theorem createJob_numbers_jobs (ops : list op) (r1 : op) (qs : list op) (r2 : op) :
  creates r1 = true → Forall (λ o, creates o = false) qs → creates r2 = true →
  Z.of_nat (creations ops) + 2 ≤ INT_MAX →
  let st0 := exec ops initial in
  let st1 := exec1 r1 st0 in
  let st2 := exec qs st1 in
  let st3 := exec1 r2 st2 in
  ∃ k1 k2,
    id <$> jobList st1 = (id <$> jobList st0) ++ [k1]
    ∧ id <$> jobList st3 = (id <$> jobList st2) ++ [k2]
    ∧ k2 = (if decide (jobList st2 = []) then 1 else k1 + 1)
    ∧ (∀ c oc p s b, id (createJob c oc p s b st2).1 = k2)
    ∧ (creations ops = 0%nat → k1 = 1)
    ∧ activeJobs st2 = Z.of_nat (length (jobList st2)).
Proof.
  intros Hr1 Hqs Hr2 Hbound st0 st1 st2 st3.
  assert (Hok0 : registry_ok (Z.of_nat (creations ops)) st0).
  { apply (exec_registry_ok ops 0 initial registry_ok_initial). lia. }
  destruct r1 as [c1 a1 b1 os1| | | | | |]; try discriminate Hr1.
  destruct r2 as [c2 a2 b2 os2| | | | | |]; try discriminate Hr2.
  simpl in Hr1, Hr2. apply Z.gtb_lt in Hr1, Hr2.
  subst st3 st2 st1. cbn [exec1] in *.
  set (st1 := (runCommand c1 (Z.of_nat (length a1)) a1 b1 os1 st0).2) in *.
  destruct (runCommand_creates c1 (Z.of_nat (length a1)) a1 b1 os1 st0 Hr1)
    as (Hids1 & Hnext1 & _).
  assert (Hok1 : registry_ok (Z.of_nat (creations ops) + 1) st1).
  { apply registry_ok_runCommand; [assumption | lia | assumption]. }
  destruct (exec_quiet (Z.of_nat (creations ops) + 1) qs st1 Hqs) as (Hok2 & Hnext2);
    [lia | assumption |].
  destruct (runCommand_creates c2 (Z.of_nat (length a2)) a2 b2 os2 (exec qs st1) Hr2)
    as (Hids3 & _ & _).
  destruct (fresh_id_ok _ (exec qs st1) Hok2) as (Hfresh2 & _); [lia |].
  exists (fresh_id st0), (fresh_id (exec qs st1)).
  split; [exact Hids1 |]. split; [exact Hids3 |].
  split.
  { rewrite Hfresh2, Hnext2. fold st1 in Hnext1. now rewrite Hnext1. }
  split.
  { intros c oc p s b. unfold createJob, fresh_id. simpl.
    now destruct (activeJobs (exec qs st1) =? 0). }
  split; [|apply Hok2].
  intros Hfirst. rewrite Hfirst in Hok0.
  destruct (fresh_id_ok 0 st0 Hok0) as (-> & _); [unfold INT_MAX; lia |].
  destruct Hok0 as (_ & Hlen & _).
  destruct (jobList st0); [reflexivity | simpl in Hlen; lia].
Qed.

End JobIds.

Section JobIdsOnLinux.
#[local] Existing Instance Linux.platform.

(** Two background launches with a [jobs] in between get the ids 1 and
    2; when the first job has exited and a cleanup pass has emptied the
    registry in between, the second launch gets the id 1 again. *)
Lemma createJob_numbers_jobs_witness :
  id <$> jobList (exec [Linux.sleep5; OpJobs 1; Linux.sleep9] initial) = [1; 2]
  ∧ id <$> jobList
      (exec [Linux.sleep5; OpSigchld [(100, 0)]; OpCleanup; Linux.sleep9] initial)
    = [1].
Proof.
  pose (r1 := Linux.sleep5). pose (r2 := Linux.sleep9). split.
  - destruct (createJob_numbers_jobs [] r1 [OpJobs 1] r2)
      as (k1 & k2 & _ & H3 & H4 & _ & H6 & _);
      [reflexivity | repeat constructor | reflexivity | unfold INT_MAX; simpl; lia |].
    change (exec [Linux.sleep5; OpJobs 1; Linux.sleep9] initial)
      with (exec1 r2 (exec [OpJobs 1] (exec1 r1 (exec [] initial)))).
    rewrite H3, H4, (H6 eq_refl). reflexivity.
  - destruct (createJob_numbers_jobs [] r1 [OpSigchld [(100, 0)]; OpCleanup] r2)
      as (k1 & k2 & _ & H3 & H4 & _ & H6 & _);
      [reflexivity | repeat constructor | reflexivity | unfold INT_MAX; simpl; lia |].
    change (exec [Linux.sleep5; OpSigchld [(100, 0)]; OpCleanup; Linux.sleep9] initial)
      with (exec1 r2 (exec [OpSigchld [(100, 0)]; OpCleanup] (exec1 r1 (exec [] initial)))).
    rewrite H3, H4. reflexivity.
Defined.

End JobIdsOnLinux.

(** ** The built-ins [bg] and [fg] *)

Lemma modify_job_at (i : nat) (f : job → job) (j : job) (st : shell) :
  jobList st !! i = Some j →
  modify_job i f st = set_jobList (<[i := f j]> (jobList st)) st.
Proof. intros Hi. unfold modify_job. now rewrite (list_alter_insert f _ _ _ Hi). Qed.

Lemma insert_at_lookup (i : nat) (j x : job) (l : list job) :
  l !! i = Some j → <[i := x]> l !! i = Some x.
Proof. intros Hi. apply list_lookup_insert_eq. eapply lookup_lt_Some, Hi. Qed.

Section BgFg.
Context `{Platform}.

Lemma record_status_trace (i : nat) (status : Z) (st : shell) :
  trace (record_status i status st) = trace st
  ∧ sigmask (record_status i status st) = sigmask st.
Proof.
  unfold record_status.
  destruct (WIFEXITED status), (WIFSTOPPED status), (WIFSIGNALED status); easy.
Qed.

(** What the three tests on the status of a foreground wait do to the
    job waited for. *)
Lemma record_status_matched (i : nat) (j : job) (status : Z) (st : shell) :
  jobList st !! i = Some j →
  (WIFEXITED status = true →
     record_status i status st
     = set_jobList (<[i := set_state COMPLETED j]> (jobList st)) st)
  ∧ (WIFSTOPPED status = true →
     record_status i status st
     = set_jobList (<[i := set_state STOPPED j]> (jobList st)) st)
  ∧ (WIFSIGNALED status = true →
     record_status i status st
     = set_jobList
         (<[i := set_termSig (WTERMSIG status) (set_state TERMINATED j)]> (jobList st))
         st).
Proof.
  intros Hi. repeat split; intros Hs; unfold record_status.
  - destruct (wait_exited_only _ Hs) as [-> ->]. rewrite Hs.
    now apply modify_job_at.
  - rewrite (wait_stopped_not_exited _ Hs), (wait_stopped_only _ Hs), Hs.
    now apply modify_job_at.
  - destruct (wait_signaled_only _ Hs) as [-> ->]. rewrite Hs.
    rewrite (modify_job_at i (set_state TERMINATED) j st Hi).
    rewrite (modify_job_at i _ (set_state TERMINATED j)).
    + simpl. unfold set_jobList. simpl. now rewrite list_insert_insert_eq.
    + simpl. eapply insert_at_lookup, Hi.
Qed.

(** [bg] with one argument that names a tracked job, after the search. *)
Lemma bg_found (argv : list string) (os : os_replies) (st : shell) i j :
  stringToJobId (nth 1 argv EmptyString) ≠ -1 →
  first_with_id (stringToJobId (nth 1 argv EmptyString)) (jobList st) i j →
  bg argv 2 os st
  = if decide (state j = RUNNING) then puts "bg: job is already running" st
    else
      let st3 := emit (EvKill (pgid j) SIGCONT)
                   (set_jobList (<[i := set_state RUNNING (set_bgProcess 1 j)]> (jobList st))
                      st) in
      if kill_ret os (pgid j) SIGCONT <? 0
      then puts "bg: could not continue process" st3 else st3.
Proof.
  intros Hjid Hfirst. unfold bg. simpl.
  apply Z.eqb_neq in Hjid. rewrite Hjid, (find_id_first _ _ _ _ Hfirst).
  destruct (decide (state j = RUNNING)); [reflexivity |].
  destruct Hfirst as (Hi & _).
  rewrite (modify_job_at i (set_bgProcess 1) j st Hi).
  rewrite (modify_job_at i (set_state RUNNING) (set_bgProcess 1 j));
    [|simpl; eapply insert_at_lookup, Hi].
  simpl. unfold set_jobList. simpl. rewrite list_insert_insert_eq. reflexivity.
Qed.

Lemma foreground_wait_events (pid : Z) (os : os_replies) (st : shell) :
  foreground_wait pid os st = emit_all (wait_events pid os (sigmask st)) st.
Proof.
  unfold foreground_wait, wait_events, emit_all, emit. simpl.
  now rewrite <- !app_assoc.
Qed.

(** [fg] with one argument that names a tracked job, after the search. *)
Lemma fg_found (argv : list string) (os : os_replies) (st : shell) i j :
  stringToJobId (nth 1 argv EmptyString) ≠ -1 →
  first_with_id (stringToJobId (nth 1 argv EmptyString)) (jobList st) i j →
  fg argv 2 os st
  = if decide (state j = STOPPED ∧ kill_ret os (pgid j) SIGCONT < 0) then
      puts "fg: could not continue process"
        (emit (EvKill (pgid j) SIGCONT)
           (set_jobList (<[i := set_bgProcess 0 j]> (jobList st)) st))
    else
      let st3 := emit_all (fg_resume_events j)
                   (set_jobList (<[i := fg_resumed j]> (jobList st)) st) in
      let st4 := foreground_wait (pgid j) os st3 in
      if (waitpid_ret os).1 <? 0 then puts (strerror_errno os) st4
      else record_status i (waitpid_ret os).2 st4.
Proof.
  intros Hjid Hfirst. unfold fg. simpl.
  apply Z.eqb_neq in Hjid. rewrite Hjid, (find_id_first _ _ _ _ Hfirst).
  destruct Hfirst as (Hi & _).
  rewrite (modify_job_at i (set_bgProcess 0) j st Hi).
  unfold fg_resumed, fg_resume_events.
  destruct (waitpid_ret os) as [wpid status]. simpl.
  destruct (decide (state j = STOPPED)) as [Hs|Hs].
  - destruct (kill_ret os (pgid j) SIGCONT <? 0) eqn:Ek.
    + apply Z.ltb_lt in Ek. rewrite decide_True by (split; assumption). reflexivity.
    + apply Z.ltb_ge in Ek. rewrite decide_False by lia.
      rewrite (modify_job_at i (set_state RUNNING) (set_bgProcess 0 j));
        [|simpl; eapply insert_at_lookup, Hi].
      simpl. unfold set_jobList, emit_all, emit. simpl.
      rewrite list_insert_insert_eq. reflexivity.
  - rewrite decide_False by tauto.
    unfold emit_all. simpl. rewrite app_nil_r. reflexivity.
Qed.

(** C7, as the code has it.  [bg %N] for a tracked job: when the job is
    [RUNNING] the only thing done is to print "bg: job is already
    running"; otherwise the job is marked background and [RUNNING] and
    the one call [kill(pgid, SIGCONT)] is made, and that is all ([bg]
    makes no wait), with one more line printed when the call fails.  The
    first argument of the call is the process id of the child the shell
    forked, a positive number, so the continue signal is for that one
    process, the leader of the job's process group, and not for the
    group.  When the call succeeds the job has [bgProcess] 1 and state
    [RUNNING]. *)
Theorem bg_resumes_in_background (argv : list string) (os : os_replies)
    (st : shell) (i : nat) (j : job) :
  stringToJobId (nth 1 argv EmptyString) ≠ -1 →
  first_with_id (stringToJobId (nth 1 argv EmptyString)) (jobList st) i j →
  (state j = RUNNING →
     bg argv 2 os st = puts "bg: job is already running" st)
  ∧ (state j ≠ RUNNING →
     jobList (bg argv 2 os st)
     = <[i := set_state RUNNING (set_bgProcess 1 j)]> (jobList st)
     ∧ new_events st (bg argv 2 os st)
       = EvKill (pgid j) SIGCONT
         :: (if kill_ret os (pgid j) SIGCONT <? 0
             then [EvWrite ("bg: could not continue process" ++ nl)%string] else [])
     ∧ (0 < pgid j →
        signals_to (new_events st (bg argv 2 os st))
        = [(OneProcess (pgid j), SIGCONT)])
     ∧ (0 ≤ kill_ret os (pgid j) SIGCONT →
        bg argv 2 os st
        = emit (EvKill (pgid j) SIGCONT)
            (set_jobList (<[i := set_state RUNNING (set_bgProcess 1 j)]> (jobList st)) st)
        ∧ ∃ j', jobList (bg argv 2 os st) !! i = Some j'
                ∧ bgProcess j' = 1 ∧ state j' = RUNNING
                ∧ id j' = id j ∧ pgid j' = pgid j)).
Proof.
  intros Hjid Hfirst. rewrite (bg_found argv os st i j Hjid Hfirst).
  destruct Hfirst as (Hi & _). split.
  - intros Hr. now rewrite decide_True.
  - intros Hr. rewrite decide_False by assumption. cbv zeta.
    assert (Hev : new_events st
                    (if kill_ret os (pgid j) SIGCONT <? 0
                     then puts "bg: could not continue process"
                            (emit (EvKill (pgid j) SIGCONT)
                               (set_jobList
                                  (<[i := set_state RUNNING (set_bgProcess 1 j)]>
                                     (jobList st)) st))
                     else emit (EvKill (pgid j) SIGCONT)
                            (set_jobList
                               (<[i := set_state RUNNING (set_bgProcess 1 j)]>
                                  (jobList st)) st))
                  = EvKill (pgid j) SIGCONT
                    :: (if kill_ret os (pgid j) SIGCONT <? 0
                        then [EvWrite ("bg: could not continue process" ++ nl)%string]
                        else [])).
    { apply new_events_app.
      destruct (kill_ret os (pgid j) SIGCONT <? 0); simpl;
        now rewrite <- ?app_assoc. }
    split; [|split; [|split]].
    + destruct (kill_ret os (pgid j) SIGCONT <? 0); reflexivity.
    + exact Hev.
    + intros Hpos. rewrite Hev. apply Z.ltb_lt in Hpos.
      cbn [signals_to]. unfold kill_recipient. rewrite Hpos.
      now destruct (kill_ret os (pgid j) SIGCONT <? 0).
    + intros Hk. apply Z.ltb_ge in Hk. rewrite Hk. split; [reflexivity |].
      exists (set_state RUNNING (set_bgProcess 1 j)). simpl.
      split; [eapply insert_at_lookup, Hi | easy].
Qed.

(** C10.  When the continue signal cannot be sent, [bg] has already
    marked the job background and [RUNNING], and [fg] (for a stopped job)
    has already marked it not background; the error is printed and the
    job stays as marked. *)
Theorem bg_fg_mutate_before_signal (argv : list string) (os : os_replies)
    (st : shell) (i : nat) (j : job) :
  stringToJobId (nth 1 argv EmptyString) ≠ -1 →
  first_with_id (stringToJobId (nth 1 argv EmptyString)) (jobList st) i j →
  kill_ret os (pgid j) SIGCONT < 0 →
  (state j ≠ RUNNING →
     bg argv 2 os st
     = puts "bg: could not continue process"
         (emit (EvKill (pgid j) SIGCONT)
            (set_jobList (<[i := set_state RUNNING (set_bgProcess 1 j)]> (jobList st)) st))
     ∧ ∃ j', jobList (bg argv 2 os st) !! i = Some j'
             ∧ bgProcess j' = 1 ∧ state j' = RUNNING)
  ∧ (state j = STOPPED →
     fg argv 2 os st
     = puts "fg: could not continue process"
         (emit (EvKill (pgid j) SIGCONT)
            (set_jobList (<[i := set_bgProcess 0 j]> (jobList st)) st))
     ∧ ∃ j', jobList (fg argv 2 os st) !! i = Some j'
             ∧ bgProcess j' = 0 ∧ state j' = STOPPED).
Proof.
  intros Hjid Hfirst Hk. split; intros Hs.
  - rewrite (bg_found argv os st i j Hjid Hfirst).
    rewrite decide_False by assumption. cbv zeta.
    apply Z.ltb_lt in Hk. rewrite Hk. split; [reflexivity |].
    exists (set_state RUNNING (set_bgProcess 1 j)). simpl.
    split; [eapply insert_at_lookup, Hfirst | easy].
  - rewrite (fg_found argv os st i j Hjid Hfirst).
    rewrite decide_True by (split; assumption). split; [reflexivity |].
    exists (set_bgProcess 0 j). simpl.
    split; [eapply insert_at_lookup, Hfirst | easy].
Qed.

(** C6.  [fg %N] for a tracked job, when the continue signal (sent only
    to a [STOPPED] job) can be sent.  Before the wait the job is marked
    not background and, when it was [STOPPED], [RUNNING], the continue
    signal having been sent to its process group.  Then, with nothing
    else in between, SIGTTOU is ignored, the terminal is given to the
    process group of the job, [waitpid] is called on it without
    [WNOHANG] (with [WUNTRACED]), and the terminal is given back to the
    process group of the shell.  When the wait fails, the error text is
    printed and the job stays as it was when the wait began; otherwise
    the status is recorded in the job ([COMPLETED], [STOPPED], or
    [TERMINATED] with its signal) and nothing more is done, so whatever
    the status the last call made is the one that takes the terminal
    back. *)
Theorem fg_waits_in_foreground (argv : list string) (os : os_replies)
    (st : shell) (i : nat) (j : job) :
  stringToJobId (nth 1 argv EmptyString) ≠ -1 →
  first_with_id (stringToJobId (nth 1 argv EmptyString)) (jobList st) i j →
  state j ≠ STOPPED ∨ 0 ≤ kill_ret os (pgid j) SIGCONT →
  let before_wait :=
    emit_all (fg_resume_events j)
      (set_jobList (<[i := fg_resumed j]> (jobList st)) st) in
  let after_wait := emit_all (wait_events (pgid j) os (sigmask st)) before_wait in
  bgProcess (fg_resumed j) = 0
  ∧ (state j = STOPPED → state (fg_resumed j) = RUNNING
                         ∧ fg_resume_events j = [EvKill (pgid j) SIGCONT])
  ∧ (state j ≠ STOPPED → state (fg_resumed j) = state j ∧ fg_resume_events j = [])
  ∧ ((waitpid_ret os).1 < 0 →
       fg argv 2 os st = puts (strerror_errno os) after_wait
       ∧ jobList (fg argv 2 os st) = <[i := fg_resumed j]> (jobList st))
  ∧ (0 ≤ (waitpid_ret os).1 →
       fg argv 2 os st = record_status i (waitpid_ret os).2 after_wait
       ∧ new_events st (fg argv 2 os st)
         = fg_resume_events j ++ wait_events (pgid j) os (sigmask st)
       ∧ (WIFEXITED (waitpid_ret os).2 = true →
            jobList (fg argv 2 os st)
            = <[i := set_state COMPLETED (fg_resumed j)]> (jobList st))
       ∧ (WIFSTOPPED (waitpid_ret os).2 = true →
            jobList (fg argv 2 os st)
            = <[i := set_state STOPPED (fg_resumed j)]> (jobList st))
       ∧ (WIFSIGNALED (waitpid_ret os).2 = true →
            jobList (fg argv 2 os st)
            = <[i := set_termSig (WTERMSIG (waitpid_ret os).2)
                       (set_state TERMINATED (fg_resumed j))]> (jobList st))).
Proof.
  intros Hjid Hfirst Hkill before_wait after_wait.
  rewrite (fg_found argv os st i j Hjid Hfirst).
  rewrite decide_False by (intros [? ?]; destruct Hkill; [tauto | lia]). cbv zeta.
  rewrite foreground_wait_events. fold before_wait.
  change (sigmask before_wait) with (sigmask st). fold after_wait.
  destruct Hfirst as (Hi & _).
  assert (Hat : jobList after_wait !! i = Some (fg_resumed j)).
  { simpl. eapply insert_at_lookup, Hi. }
  split.
  { unfold fg_resumed. now destruct (decide (state j = STOPPED)). }
  split.
  { intros Hs. unfold fg_resumed, fg_resume_events. now rewrite !decide_True. }
  split.
  { intros Hs. unfold fg_resumed, fg_resume_events. now rewrite !decide_False. }
  split.
  - intros Hw. apply Z.ltb_lt in Hw. rewrite Hw. easy.
  - intros Hw. apply Z.ltb_ge in Hw. rewrite Hw.
    split; [reflexivity |].
    split.
    { apply new_events_app.
      rewrite (proj1 (record_status_trace _ _ _)). simpl. now rewrite <- app_assoc. }
    destruct (record_status_matched i _ (waitpid_ret os).2 after_wait Hat)
      as (He & Hs & Hg).
    repeat split; intros Hst.
    + rewrite (He Hst). simpl. now rewrite list_insert_insert_eq.
    + rewrite (Hs Hst). simpl. now rewrite list_insert_insert_eq.
    + rewrite (Hg Hst). simpl. now rewrite list_insert_insert_eq.
Qed.

End BgFg.

Section BgFgOnLinux.
#[local] Existing Instance Linux.platform.

(** The two jobs of [Linux.two_jobs] and where the search finds them. *)
Lemma two_jobs_first (name : string) :
  first_with_id (stringToJobId (nth 1 [name; "%1"]%string EmptyString))
    (jobList Linux.two_jobs) 0 (Job 1 "/bin/sleep" "sleep 5" 100 RUNNING 1 (-1)).
Proof. repeat split. intros k j' Hk. lia. Qed.

Lemma two_jobs_second (name : string) :
  first_with_id (stringToJobId (nth 1 [name; "%2"]%string EmptyString))
    (jobList Linux.two_jobs) 1 (Job 2 "/bin/sleep" "sleep 10" 101 STOPPED 0 (-1)).
Proof.
  repeat split. intros [|[|k]] j' Hk Hj; [|lia|lia].
  vm_compute in Hj. inversion Hj. vm_compute. discriminate.
Qed.

(** [bg %2] where job 2 is the stopped child 101: the claim as it is
    written has the continue signal go to the process group 101; the
    call made is [kill(101, SIGCONT)], which is for the process 101
    alone. *)
Lemma bg_signals_one_process_not_the_group :
  new_events Linux.two_jobs
    (bg ["bg"; "%2"]%string 2 (Linux.replies 0 0) Linux.two_jobs)
  = [EvKill 101 SIGCONT]
  ∧ signals_to
      (new_events Linux.two_jobs
         (bg ["bg"; "%2"]%string 2 (Linux.replies 0 0) Linux.two_jobs))
    = [(OneProcess 101, SIGCONT)]
  ∧ ¬ (signals_to
         (new_events Linux.two_jobs
            (bg ["bg"; "%2"]%string 2 (Linux.replies 0 0) Linux.two_jobs))
       = [(ProcessGroup 101, SIGCONT)]).
Proof. repeat split. discriminate. Qed.

Lemma bg_resumes_in_background_witness :
  bg ["bg"; "%1"]%string 2 (Linux.replies 0 0) Linux.two_jobs
  = puts "bg: job is already running" Linux.two_jobs
  ∧ (λ j, (state j, bgProcess j))
      <$> jobList (bg ["bg"; "%2"]%string 2 (Linux.replies 0 0) Linux.two_jobs)
    = [(RUNNING, 1); (RUNNING, 1)]
  ∧ new_events Linux.two_jobs
      (bg ["bg"; "%2"]%string 2 (Linux.replies 0 0) Linux.two_jobs)
    = [EvKill 101 18]
  ∧ signals_to
      (new_events Linux.two_jobs
         (bg ["bg"; "%2"]%string 2 (Linux.replies 0 0) Linux.two_jobs))
    = [(OneProcess 101, 18)].
Proof.
  split.
  - apply (bg_resumes_in_background ["bg"; "%1"]%string (Linux.replies 0 0)
             Linux.two_jobs 0 _ ltac:(vm_compute; discriminate) (two_jobs_first "bg")).
    reflexivity.
  - destruct (bg_resumes_in_background ["bg"; "%2"]%string (Linux.replies 0 0)
                Linux.two_jobs 1 _ ltac:(vm_compute; discriminate) (two_jobs_second "bg"))
      as (_ & Hb).
    destruct Hb as (-> & -> & Hone & _); [discriminate |].
    rewrite Hone by (simpl; lia). repeat split.
Defined.

Lemma bg_fg_mutate_before_signal_witness :
  (λ j, (state j, bgProcess j))
    <$> jobList (bg ["bg"; "%2"]%string 2 (Linux.replies_kill_fails 0 0) Linux.two_jobs)
  = [(RUNNING, 1); (RUNNING, 1)]
  ∧ (λ j, (state j, bgProcess j))
      <$> jobList (fg ["fg"; "%2"]%string 2 (Linux.replies_kill_fails 0 0) Linux.two_jobs)
    = [(RUNNING, 1); (STOPPED, 0)]
  ∧ stdout (new_events Linux.two_jobs
              (fg ["fg"; "%2"]%string 2 (Linux.replies_kill_fails 0 0) Linux.two_jobs))
    = ("fg: could not continue process" ++ nl)%string.
Proof.
  split.
  - destruct (bg_fg_mutate_before_signal ["bg"; "%2"]%string
                (Linux.replies_kill_fails 0 0) Linux.two_jobs 1 _
                ltac:(vm_compute; discriminate) (two_jobs_second "bg")
                ltac:(simpl; lia)) as (Hb & _).
    destruct Hb as (-> & _); [discriminate | reflexivity].
  - destruct (bg_fg_mutate_before_signal ["fg"; "%2"]%string
                (Linux.replies_kill_fails 0 0) Linux.two_jobs 1 _
                ltac:(vm_compute; discriminate) (two_jobs_second "fg")
                ltac:(simpl; lia)) as (_ & Hf).
    destruct Hf as (-> & _); [reflexivity |]. split; reflexivity.
Defined.

Lemma fg_waits_in_foreground_witness :
  (λ j, (state j, bgProcess j))
    <$> jobList (fg ["fg"; "%2"]%string 2 (Linux.replies 101 Linux.status_exit0)
                   Linux.two_jobs)
  = [(RUNNING, 1); (COMPLETED, 0)]
  ∧ new_events Linux.two_jobs
      (fg ["fg"; "%2"]%string 2 (Linux.replies 101 Linux.status_exit0) Linux.two_jobs)
    = [EvKill 101 18; EvSignalIgnore 22; EvTcsetpgrp 0 101; EvWaitpid 101 2 ∅;
       EvTcsetpgrp 0 1]
  ∧ (λ j, (state j, bgProcess j))
      <$> jobList (fg ["fg"; "%2"]%string 2 (Linux.replies_wait_fails 101)
                     Linux.two_jobs)
    = [(RUNNING, 1); (RUNNING, 0)].
Proof.
  split; [|split].
  - destruct (fg_waits_in_foreground ["fg"; "%2"]%string
                (Linux.replies 101 Linux.status_exit0) Linux.two_jobs 1 _
                ltac:(vm_compute; discriminate) (two_jobs_second "fg")
                ltac:(right; simpl; lia)) as (_ & _ & _ & _ & Hok).
    destruct Hok as (_ & _ & -> & _); [simpl; lia | reflexivity | reflexivity].
  - destruct (fg_waits_in_foreground ["fg"; "%2"]%string
                (Linux.replies 101 Linux.status_exit0) Linux.two_jobs 1 _
                ltac:(vm_compute; discriminate) (two_jobs_second "fg")
                ltac:(right; simpl; lia)) as (_ & _ & _ & _ & Hok).
    destruct Hok as (_ & -> & _); [simpl; lia | reflexivity].
  - destruct (fg_waits_in_foreground ["fg"; "%2"]%string
                (Linux.replies_wait_fails 101) Linux.two_jobs 1 _
                ltac:(vm_compute; discriminate) (two_jobs_second "fg")
                ltac:(right; simpl; lia)) as (_ & _ & _ & Hfail & _).
    destruct Hfail as (_ & ->); [simpl; lia | reflexivity].
Defined.

End BgFgOnLinux.

(** ** Reachable registries *)

Section Reachable.
Context `{Platform}.

(** Along every run the ids of the tracked jobs are positive and
    pairwise different, and [activeJobs] is their number. *)
Lemma exec_ids_positive_distinct (ops : list op) :
  Z.of_nat (creations ops) ≤ INT_MAX →
  Forall (λ j, 0 < id j) (jobList (exec ops initial))
  ∧ NoDup (id <$> jobList (exec ops initial))
  ∧ activeJobs (exec ops initial)
    = Z.of_nat (length (jobList (exec ops initial))).
Proof.
  intros Hn.
  destruct (exec_registry_ok ops 0 initial registry_ok_initial)
    as (Hact & _ & _ & Hids & Hsorted); [lia |].
  split; [|split; [|exact Hact]].
  - rewrite Forall_fmap in Hids. eapply Forall_impl; [exact Hids |].
    simpl. intros j Hj. lia.
  - clear -Hsorted. induction Hsorted as [|k l _ IH Hall]; constructor; [|exact IH].
    intros Hin. rewrite Forall_forall in Hall. specialize (Hall k Hin). lia.
Qed.

End Reachable.

(** ** The launcher and the blocked signals *)

Section Launcher.
Context `{Platform}.

Lemma runCommand_fork_fails command0 argc argv bgProcess0 os (st : shell) :
  fork_ret os < 0 →
  runCommand command0 argc argv bgProcess0 os st
  = (Returned (-1), emit EvFork (sig_block {[SIGCHLD]} st)).
Proof.
  intros Hf. unfold runCommand.
  destruct (fork_ret os =? 0) eqn:E0; [apply Z.eqb_eq in E0; lia |].
  destruct (fork_ret os >? 0) eqn:E1; [apply Z.gtb_lt in E1; lia |].
  reflexivity.
Qed.

Lemma runCommand_child_mask command0 argc argv bgProcess0 os (st : shell) :
  fork_ret os = 0 →
  sigmask (runCommand command0 argc argv bgProcess0 os st).2 = sigmask st.
Proof.
  intros Hf. unfold runCommand. rewrite Hf. simpl.
  repeat case_match; reflexivity.
Qed.

(** The state in which the parent starts the foreground wait or prints
    the background notice: the job is in the registry and every signal is
    blocked. *)
Lemma runCommand_parent command0 argc argv bgProcess0 os (st : shell) :
  0 < fork_ret os →
  ∃ j st6,
    jobList st6 = jobList st ++ [j]
    ∧ pgid j = fork_ret os ∧ state j = RUNNING
    ∧ bgProcess j = (if bgProcess0 =? 0 then 0 else 1)
    ∧ sigmask st6 = sigmask st ∪ {[SIGCHLD]} ∪ all_signals
    ∧ trace st6 = trace st ++ [EvFork; EvSetpgid (fork_ret os) (fork_ret os)]
    ∧ runCommand command0 argc argv bgProcess0 os st
      = if negb (bgProcess0 =? 0) then
          (Returned 0,
           sig_setmask (sigmask st)
             (printf ("[" ++ fmt_d (id j) ++ "] " ++ fmt_d (fork_ret os) ++ nl) st6))
        else
          let st7 := foreground_wait (fork_ret os) os st6 in
          if (waitpid_ret os).1 <? 0
          then (Returned (-1), puts (strerror_errno os) st7)
          else (Returned 0,
                sig_setmask (sigmask st)
                  (record_status (length (jobList st)) (waitpid_ret os).2 st7)).
Proof.
  intros Hf. unfold runCommand, createJob.
  destruct (fork_ret os =? 0) eqn:E0; [apply Z.eqb_eq in E0; lia |].
  apply Z.gtb_lt in Hf. rewrite Hf. cbv beta iota zeta.
  set (st4 := emit _ (sig_block all_signals _)).
  set (st5 := if activeJobs st4 =? 0 then _ else _).
  assert (H5 : jobList st5 = jobList st
               ∧ sigmask st5 = sigmask st ∪ {[SIGCHLD]} ∪ all_signals
               ∧ trace st5 = trace st ++ [EvFork; EvSetpgid (fork_ret os) (fork_ret os)]).
  { subst st5. destruct (activeJobs st4 =? 0); simpl; rewrite <- ?app_assoc; easy. }
  destruct H5 as (Hl5 & Hm5 & Ht5).
  destruct (bgProcess0 =? 0) eqn:Eb; cbn [negb].
  - set (j := Job _ _ _ _ _ _ _). exists j, (addJob j st5).
    destruct (registry_of_addJob j st5) as (Al & An & Aa & Am & At).
    rewrite Al, Am, At, Hl5, Hm5, Ht5.
    assert (Hl : (length (jobList st ++ [j]) - 1)%nat = length (jobList st)).
    { rewrite length_app. simpl. lia. }
    rewrite Hl. destruct (waitpid_ret os) as [wpid status].
    repeat split; reflexivity.
  - set (j := Job _ _ _ _ _ _ _). exists j, (addJob j st5).
    destruct (registry_of_addJob j st5) as (Al & An & Aa & Am & At).
    rewrite Al, Am, At, Hl5, Hm5, Ht5.
    repeat split; reflexivity.
Qed.

(** C9.  The error returns of [runCommand] leave signals blocked.  When
    [fork] fails the function returns -1 having only blocked SIGCHLD, so
    SIGCHLD is blocked on return; when the foreground wait fails it
    returns -1 with SIGCHLD and every signal of [sigfillset] blocked.  In
    both cases the mask differs from the one at the call when SIGCHLD was
    not blocked then.  The returns with value 0 (and the child) put the
    mask of the call back. *)
Theorem runCommand_error_leaves_signals_blocked command0 argc argv bgProcess0 os
    (st : shell) :
  let r := runCommand command0 argc argv bgProcess0 os st in
  (fork_ret os < 0 →
     r.1 = Returned (-1)
     ∧ sigmask r.2 = sigmask st ∪ {[SIGCHLD]}
     ∧ SIGCHLD ∈ sigmask r.2
     ∧ (SIGCHLD ∉ sigmask st → sigmask r.2 ≠ sigmask st))
  ∧ (0 < fork_ret os → bgProcess0 = 0 → (waitpid_ret os).1 < 0 →
     r.1 = Returned (-1)
     ∧ sigmask r.2 = sigmask st ∪ {[SIGCHLD]} ∪ all_signals
     ∧ SIGCHLD ∈ sigmask r.2 ∧ all_signals ⊆ sigmask r.2
     ∧ (SIGCHLD ∉ sigmask st → sigmask r.2 ≠ sigmask st))
  ∧ (0 < fork_ret os → bgProcess0 ≠ 0 ∨ 0 ≤ (waitpid_ret os).1 →
     r.1 = Returned 0 ∧ sigmask r.2 = sigmask st)
  ∧ (fork_ret os = 0 → sigmask r.2 = sigmask st).
Proof.
  intros r. subst r. split; [|split; [|split]].
  - intros Hf. rewrite runCommand_fork_fails by exact Hf. simpl.
    split; [reflexivity |]. split; [reflexivity |].
    split; [apply elem_of_union_r, elem_of_singleton_2; reflexivity |].
    intros Hn Hsame. apply Hn. rewrite <- Hsame.
    apply elem_of_union_r, elem_of_singleton_2; reflexivity.
  - intros Hf Hb Hw.
    destruct (runCommand_parent command0 argc argv bgProcess0 os st Hf)
      as (j & st6 & _ & _ & _ & _ & Hm & _ & ->).
    rewrite Hb. simpl. apply Z.ltb_lt in Hw. rewrite Hw. simpl. rewrite Hm.
    assert (Hin : SIGCHLD ∈ sigmask st ∪ {[SIGCHLD]} ∪ all_signals).
    { apply elem_of_union_l, elem_of_union_r, elem_of_singleton_2; reflexivity. }
    split; [reflexivity |]. split; [reflexivity |].
    split; [exact Hin |]. split; [apply union_subseteq_r |].
    intros Hn Hsame. apply Hn. rewrite <- Hsame. exact Hin.
  - intros Hf Hok.
    destruct (runCommand_parent command0 argc argv bgProcess0 os st Hf)
      as (j & st6 & _ & _ & _ & _ & Hm & _ & ->).
    destruct (bgProcess0 =? 0) eqn:Eb; cbn [negb]; [|easy].
    apply Z.eqb_eq in Eb.
    destruct ((waitpid_ret os).1 <? 0) eqn:Ew; [apply Z.ltb_lt in Ew; lia |].
    easy.
  - apply runCommand_child_mask.
Qed.

End Launcher.

Section LauncherOnLinux.
#[local] Existing Instance Linux.platform.

Lemma runCommand_error_leaves_signals_blocked_witness :
  sigmask (runCommand "/bin/sleep" 2 ["sleep"; "5"]%string 1 (Linux.replies (-1) 0)
             initial).2 = {[17]}
  ∧ 17 ∈ sigmask (runCommand "/bin/sleep" 2 ["sleep"; "5"]%string 0
                    (Linux.replies_wait_fails 100) initial).2
  ∧ sigmask (runCommand "/bin/sleep" 2 ["sleep"; "5"]%string 0
               (Linux.replies_wait_fails 100) initial).2 ≠ ∅
  ∧ sigmask (runCommand "/bin/sleep" 2 ["sleep"; "5"]%string 0
               (Linux.replies 100 Linux.status_exit0) initial).2 = ∅
  ∧ sigmask (runCommand "/bin/sleep" 2 ["sleep"; "5"]%string 0
               (Linux.replies 0 0) initial).2 = ∅.
Proof.
  split; [|split; [|split; [|split]]].
  - destruct (runCommand_error_leaves_signals_blocked "/bin/sleep" 2
                ["sleep"; "5"]%string 1 (Linux.replies (-1) 0) initial) as (Hfail & _).
    destruct Hfail as (_ & -> & _); [simpl; lia |]. apply (left_id_L ∅ (∪)).
  - destruct (runCommand_error_leaves_signals_blocked "/bin/sleep" 2
                ["sleep"; "5"]%string 0 (Linux.replies_wait_fails 100) initial)
      as (_ & Hwait & _).
    destruct Hwait as (_ & _ & Hin & _); [simpl; lia | reflexivity | simpl; lia |].
    exact Hin.
  - destruct (runCommand_error_leaves_signals_blocked "/bin/sleep" 2
                ["sleep"; "5"]%string 0 (Linux.replies_wait_fails 100) initial)
      as (_ & Hwait & _).
    destruct Hwait as (_ & _ & _ & _ & Hne); [simpl; lia | reflexivity | simpl; lia |].
    apply Hne. apply not_elem_of_empty.
  - destruct (runCommand_error_leaves_signals_blocked "/bin/sleep" 2
                ["sleep"; "5"]%string 0 (Linux.replies 100 Linux.status_exit0) initial)
      as (_ & _ & Hok & _).
    destruct Hok as (_ & ->); [simpl; lia | right; simpl; lia | reflexivity].
  - destruct (runCommand_error_leaves_signals_blocked "/bin/sleep" 2
                ["sleep"; "5"]%string 0 (Linux.replies 0 0) initial)
      as (_ & _ & _ & Hchild).
    rewrite Hchild; reflexivity.
Defined.

End LauncherOnLinux.

(** ** The foreground wait and SIGCHLD *)

Section WaitMask.
Context `{Platform}.

Lemma waits_blocking_nil (m : gset Z) : waits_blocking m [].
Proof. intros pid o b Hin. inversion Hin. Qed.

Lemma waits_blocking_app (m : gset Z) (es1 es2 : list event) :
  waits_blocking m es1 → waits_blocking m es2 → waits_blocking m (es1 ++ es2).
Proof.
  intros H1 H2 pid o b Hin. apply elem_of_app in Hin as [Hin|Hin]; eauto.
Qed.

Lemma waits_blocking_one (m : gset Z) (e : event) :
  match e with
  | EvWaitpid _ o b => o = WUNTRACED ∧ b = m
  | _ => True
  end →
  waits_blocking m [e].
Proof.
  intros He pid o b Hin. apply list_elem_of_singleton in Hin. now subst e.
Qed.

Lemma waits_blocking_wait_events (pid : Z) (os : os_replies) (m : gset Z) :
  waits_blocking m (wait_events pid os m).
Proof.
  intros p o b Hin. unfold wait_events in Hin.
  repeat (apply elem_of_cons in Hin as [Hin|Hin]; [try discriminate Hin |]).
  - now inversion Hin.
  - inversion Hin.
Qed.

Lemma wait_events_has_wait (pid : Z) (os : os_replies) (m : gset Z) :
  EvWaitpid pid WUNTRACED m ∈ wait_events pid os m.
Proof. unfold wait_events. do 2 apply list_elem_of_further. apply list_elem_of_here. Qed.

(** What [runCommand] does in the parent for a foreground command. *)
Lemma runCommand_foreground_events command0 argc argv os (st : shell) :
  0 < fork_ret os →
  new_events st (runCommand command0 argc argv 0 os st).2
  = [EvFork; EvSetpgid (fork_ret os) (fork_ret os)]
    ++ wait_events (fork_ret os) os (sigmask st ∪ {[SIGCHLD]} ∪ all_signals)
    ++ (if (waitpid_ret os).1 <? 0
        then [EvWrite (strerror_errno os ++ nl)%string] else []).
Proof.
  intros Hf.
  destruct (runCommand_parent command0 argc argv 0 os st Hf)
    as (j & st6 & _ & _ & _ & _ & Hm & Ht & ->).
  simpl. rewrite foreground_wait_events, Hm. apply new_events_app.
  destruct ((waitpid_ret os).1 <? 0); simpl.
  - rewrite Ht, <- !app_assoc. reflexivity.
  - rewrite (proj1 (record_status_trace _ _ _)). simpl.
    rewrite Ht, <- !app_assoc. reflexivity.
Qed.

(** A stop of the child ends the foreground wait of [runCommand]: the
    call returns 0 and the job, the last of the registry, is [STOPPED]. *)
Lemma runCommand_foreground_stopped command0 argc argv os (st : shell) :
  0 < fork_ret os → 0 ≤ (waitpid_ret os).1 →
  WIFSTOPPED (waitpid_ret os).2 = true →
  (runCommand command0 argc argv 0 os st).1 = Returned 0
  ∧ ∃ j, last (jobList (runCommand command0 argc argv 0 os st).2) = Some j
         ∧ state j = STOPPED ∧ pgid j = fork_ret os.
Proof.
  intros Hf Hw Hs.
  destruct (runCommand_parent command0 argc argv 0 os st Hf)
    as (j & st6 & Hl & Hp & _ & _ & _ & _ & ->).
  simpl. apply Z.ltb_ge in Hw. rewrite Hw. split; [reflexivity |].
  assert (Hat : jobList (foreground_wait (fork_ret os) os st6)
                !! length (jobList st) = Some j).
  { change (jobList (foreground_wait (fork_ret os) os st6)) with (jobList st6).
    rewrite Hl. now apply list_lookup_middle. }
  destruct (record_status_matched _ _ (waitpid_ret os).2 _ Hat) as (_ & Hst & _).
  rewrite (Hst Hs).
  exists (set_state STOPPED j). simpl. rewrite Hl.
  rewrite insert_app_r_alt by lia. rewrite Nat.sub_diag. simpl.
  now rewrite last_snoc.
Qed.

(** What [fg] adds to the trace, on every path: its waits are made with
    the mask it was called with, which it does not change. *)
Lemma fg_waits argv numTokens os (st : shell) :
  waits_blocking (sigmask st) (new_events st (fg argv numTokens os st))
  ∧ sigmask (fg argv numTokens os st) = sigmask st.
Proof.
  unfold fg. destruct (negb (numTokens =? 2)).
  { split; [|reflexivity]. rewrite (new_events_app st _ [_]) by reflexivity.
    now apply waits_blocking_one. }
  destruct (stringToJobId (nth 1 argv EmptyString) =? -1).
  { split; [|reflexivity]. rewrite (new_events_app st _ [_]) by reflexivity.
    now apply waits_blocking_one. }
  destruct (find_id _ _) as [[i current]|].
  2:{ split; [|reflexivity]. rewrite (new_events_app st _ [_]) by reflexivity.
      now apply waits_blocking_one. }
  destruct (waitpid_ret os) as [wpid status].
  destruct (decide (state current = STOPPED)).
  - destruct (kill_ret os (pgid current) SIGCONT <? 0).
    + split; [|reflexivity].
      rewrite (new_events_app st _
                 ([EvKill (pgid current) SIGCONT]
                  ++ [EvWrite ("fg: could not continue process" ++ nl)%string])).
      * apply waits_blocking_app; now apply waits_blocking_one.
      * simpl. now rewrite <- app_assoc.
    + rewrite foreground_wait_events.
      destruct (wpid <? 0).
      * split; [|reflexivity].
        rewrite (new_events_app st _
                   ([EvKill (pgid current) SIGCONT]
                    ++ wait_events (pgid current) os (sigmask st)
                    ++ [EvWrite (strerror_errno os ++ nl)%string])).
        -- apply waits_blocking_app; [now apply waits_blocking_one |].
           apply waits_blocking_app; [apply waits_blocking_wait_events |].
           now apply waits_blocking_one.
        -- simpl. now rewrite <- !app_assoc.
      * destruct (record_status_trace i status
                    (emit_all (wait_events (pgid current) os
                       (sigmask (modify_job i (set_state RUNNING)
                          (emit (EvKill (pgid current) SIGCONT)
                             (modify_job i (set_bgProcess 0) st)))))
                       (modify_job i (set_state RUNNING)
                          (emit (EvKill (pgid current) SIGCONT)
                             (modify_job i (set_bgProcess 0) st)))))
          as (Ht & Hm).
        split; [|rewrite Hm; reflexivity].
        rewrite (new_events_app st _
                   ([EvKill (pgid current) SIGCONT]
                    ++ wait_events (pgid current) os (sigmask st))).
        -- apply waits_blocking_app; [now apply waits_blocking_one |].
           apply waits_blocking_wait_events.
        -- rewrite Ht. simpl. now rewrite <- !app_assoc.
  - rewrite foreground_wait_events.
    destruct (wpid <? 0).
    + split; [|reflexivity].
      rewrite (new_events_app st _
                 (wait_events (pgid current) os (sigmask st)
                  ++ [EvWrite (strerror_errno os ++ nl)%string])).
      * apply waits_blocking_app; [apply waits_blocking_wait_events |].
        now apply waits_blocking_one.
      * simpl. now rewrite <- !app_assoc.
    + destruct (record_status_trace i status
                  (emit_all (wait_events (pgid current) os
                     (sigmask (modify_job i (set_bgProcess 0) st)))
                     (modify_job i (set_bgProcess 0) st)))
        as (Ht & Hm).
      split; [|rewrite Hm; reflexivity].
      rewrite (new_events_app st _ (wait_events (pgid current) os (sigmask st))).
      * apply waits_blocking_wait_events.
      * rewrite Ht. reflexivity.
Qed.

(** The [fg] branch of the read loop (lines 175-188). *)
Lemma dispatch_fg (args : list string) (bgProcess0 : Z) (os : os_replies)
    (st : shell) :
  dispatch ("fg"%string :: args) bgProcess0 os st
  = (Continue,
     sig_setmask (sigmask st)
       (fg ("fg"%string :: args) (Z.of_nat (S (length args))) os
          (sig_block {[SIGCHLD]} st))).
Proof. reflexivity. Qed.

End WaitMask.

Section WaitMaskClaim.
Context `{Platform}.

(** [fg] on a tracked job that can be resumed, called from the read
    loop: what it does, and the job after a stop of the child. *)
Lemma dispatch_fg_found (arg : string) (bgProcess0 : Z) (os : os_replies)
    (st : shell) i j :
  stringToJobId arg ≠ -1 →
  first_with_id (stringToJobId arg) (jobList st) i j →
  state j ≠ STOPPED ∨ 0 ≤ kill_ret os (pgid j) SIGCONT →
  let st' := (dispatch ["fg"%string; arg] bgProcess0 os st).2 in
  new_events st st'
  = fg_resume_events j ++ wait_events (pgid j) os (sigmask st ∪ {[SIGCHLD]})
    ++ (if (waitpid_ret os).1 <? 0
        then [EvWrite (strerror_errno os ++ nl)%string] else [])
  ∧ (0 ≤ (waitpid_ret os).1 → WIFSTOPPED (waitpid_ret os).2 = true →
     jobList st' = <[i := set_state STOPPED (fg_resumed j)]> (jobList st)).
Proof.
  intros Hjid Hfirst Hkill st'. subst st'. rewrite dispatch_fg.
  cbn [snd length Z.of_nat Pos.of_succ_nat Pos.succ].
  rewrite (fg_found ["fg"%string; arg] os (sig_block {[SIGCHLD]} st) i j Hjid Hfirst).
  rewrite decide_False by (intros [? ?]; destruct Hkill; [tauto | lia]).
  cbv zeta. rewrite foreground_wait_events.
  set (before := emit_all (fg_resume_events j) _).
  change (sigmask before) with (sigmask st ∪ {[SIGCHLD]}).
  set (after := emit_all (wait_events _ _ _) before).
  assert (Hat : jobList after !! i = Some (fg_resumed j)).
  { simpl. eapply insert_at_lookup, Hfirst. }
  split.
  - apply new_events_app. destruct ((waitpid_ret os).1 <? 0); simpl.
    + now rewrite <- !app_assoc.
    + rewrite (proj1 (record_status_trace _ _ _)). simpl.
      now rewrite ?app_nil_r, <- ?app_assoc.
  - intros Hw Hs. apply Z.ltb_ge in Hw. rewrite Hw.
    destruct (record_status_matched i _ (waitpid_ret os).2 after Hat) as (_ & Hst & _).
    rewrite (Hst Hs). simpl. now rewrite list_insert_insert_eq.
Qed.

(** C3, as the code has it.  SIGCHLD is blocked, not let through, during
    every foreground wait.  [runCommand] makes the wait of a foreground
    launch with SIGCHLD and every signal of [sigfillset] blocked.  The
    read loop blocks SIGCHLD before it calls [fg] and puts the mask back
    after [fg] has returned, so the wait of [fg] is made with SIGCHLD
    blocked too.  The waits are made with [WUNTRACED] and without
    [WNOHANG]: when the child stops, the wait returns and the job is
    marked [STOPPED]. *)
Theorem foreground_waits_block_SIGCHLD (os : os_replies) (st : shell) :
  (∀ command0 argc argv, 0 < fork_ret os →
     let st' := (runCommand command0 argc argv 0 os st).2 in
     let m := sigmask st ∪ {[SIGCHLD]} ∪ all_signals in
     EvWaitpid (fork_ret os) WUNTRACED m ∈ new_events st st'
     ∧ waits_blocking m (new_events st st')
     ∧ SIGCHLD ∈ m
     ∧ (0 ≤ (waitpid_ret os).1 → WIFSTOPPED (waitpid_ret os).2 = true →
        (runCommand command0 argc argv 0 os st).1 = Returned 0
        ∧ ∃ j, last (jobList st') = Some j
               ∧ state j = STOPPED ∧ pgid j = fork_ret os))
  ∧ (∀ args bgProcess0,
     let st' := (dispatch ("fg"%string :: args) bgProcess0 os st).2 in
     let m := sigmask st ∪ {[SIGCHLD]} in
     waits_blocking m (new_events st st') ∧ SIGCHLD ∈ m ∧ sigmask st' = sigmask st)
  ∧ (∀ arg bgProcess0 i j,
     stringToJobId arg ≠ -1 →
     first_with_id (stringToJobId arg) (jobList st) i j →
     state j ≠ STOPPED ∨ 0 ≤ kill_ret os (pgid j) SIGCONT →
     let st' := (dispatch ["fg"%string; arg] bgProcess0 os st).2 in
     EvWaitpid (pgid j) WUNTRACED (sigmask st ∪ {[SIGCHLD]}) ∈ new_events st st'
     ∧ (0 ≤ (waitpid_ret os).1 → WIFSTOPPED (waitpid_ret os).2 = true →
        jobList st' = <[i := set_state STOPPED (fg_resumed j)]> (jobList st))).
Proof.
  split; [|split].
  - intros command0 argc argv Hf st' m. subst st'.
    rewrite runCommand_foreground_events by exact Hf. fold m.
    split.
    { apply elem_of_app. right. apply elem_of_app. left.
      apply wait_events_has_wait. }
    split.
    { apply (waits_blocking_app m [_; _]).
      - apply (waits_blocking_app m [_] [_]); now apply waits_blocking_one.
      - apply waits_blocking_app; [apply waits_blocking_wait_events |].
        destruct ((waitpid_ret os).1 <? 0);
          [now apply waits_blocking_one | apply waits_blocking_nil]. }
    split.
    { apply elem_of_union_l, elem_of_union_r, elem_of_singleton_2; reflexivity. }
    intros Hw Hs. now apply runCommand_foreground_stopped.
  - intros args bgProcess0 st' m. subst st'. rewrite dispatch_fg. cbn [snd].
    destruct (fg_waits ("fg"%string :: args) (Z.of_nat (S (length args))) os
                (sig_block {[SIGCHLD]} st)) as (Hwaits & _).
    split; [exact Hwaits |].
    split; [apply elem_of_union_r, elem_of_singleton_2; reflexivity | reflexivity].
  - intros arg bgProcess0 i j Hjid Hfirst Hkill st'.
    destruct (dispatch_fg_found arg bgProcess0 os st i j Hjid Hfirst Hkill)
      as (Hev & Hstop).
    split; [|exact Hstop].
    subst st'. rewrite Hev. apply elem_of_app. right. apply elem_of_app. left.
    apply wait_events_has_wait.
Qed.

End WaitMaskClaim.

Section WaitMaskOnLinux.
#[local] Existing Instance Linux.platform.

(** [sleep 10] launched in the foreground, and [fg %2] typed at the
    prompt: both wait with SIGCHLD (17) blocked. *)
Lemma foreground_wait_does_not_let_SIGCHLD_through :
  ¬ waits_let_SIGCHLD_through
      (new_events Linux.one_job
         (runCommand "/bin/sleep" 2 ["sleep"; "10"]%string 0
            (Linux.replies 101 Linux.status_stopped) Linux.one_job).2)
  ∧ ¬ waits_let_SIGCHLD_through
        (new_events Linux.two_jobs
           (dispatch ["fg"; "%2"]%string 0 (Linux.replies 101 Linux.status_exit0)
              Linux.two_jobs).2).
Proof.
  split; intros Hc.
  - rewrite runCommand_foreground_events in Hc by (simpl; lia).
    eapply Hc.
    + apply elem_of_app. right. apply elem_of_app. left.
      apply wait_events_has_wait.
    + apply elem_of_union_l, elem_of_union_r, elem_of_singleton_2; reflexivity.
  - destruct (dispatch_fg_found "%2" 0 (Linux.replies 101 Linux.status_exit0)
                Linux.two_jobs 1 _ ltac:(vm_compute; discriminate)
                (two_jobs_second "fg") ltac:(right; simpl; lia)) as (Hev & _).
    rewrite Hev in Hc. eapply Hc.
    + apply elem_of_app. right. apply elem_of_app. left.
      apply wait_events_has_wait.
    + apply elem_of_union_r, elem_of_singleton_2; reflexivity.
Qed.

Lemma foreground_waits_block_SIGCHLD_witness :
  EvWaitpid 101 2 ({[17]} ∪ all_signals)
    ∈ new_events Linux.one_job
        (runCommand "/bin/sleep" 2 ["sleep"; "10"]%string 0
           (Linux.replies 101 Linux.status_stopped) Linux.one_job).2
  ∧ state <$> jobList (runCommand "/bin/sleep" 2 ["sleep"; "10"]%string 0
                         (Linux.replies 101 Linux.status_stopped) Linux.one_job).2
    = [RUNNING; STOPPED]
  ∧ EvWaitpid 101 2 {[17]}
      ∈ new_events Linux.two_jobs
          (dispatch ["fg"; "%2"]%string 0 (Linux.replies 101 Linux.status_stopped)
             Linux.two_jobs).2
  ∧ state <$> jobList (dispatch ["fg"; "%2"]%string 0
                         (Linux.replies 101 Linux.status_stopped) Linux.two_jobs).2
    = [RUNNING; STOPPED].
Proof.
  destruct (foreground_waits_block_SIGCHLD (Linux.replies 101 Linux.status_stopped)
              Linux.one_job) as (Hrun & _).
  destruct (Hrun "/bin/sleep"%string 2 ["sleep"; "10"]%string ltac:(simpl; lia))
    as (Hin & _ & _ & _).
  destruct (foreground_waits_block_SIGCHLD (Linux.replies 101 Linux.status_stopped)
              Linux.two_jobs) as (_ & _ & Hfg).
  destruct (Hfg "%2"%string 0 1%nat _ ltac:(vm_compute; discriminate)
              (two_jobs_second "fg") ltac:(right; simpl; lia)) as (Hin2 & Hst2).
  split; [|split; [|split]].
  - replace ({[17]} ∪ all_signals) with (sigmask Linux.one_job ∪ {[SIGCHLD]} ∪ all_signals);
      [exact Hin |].
    change (sigmask Linux.one_job) with (∅ : gset Z).
    now rewrite (left_id_L ∅ (∪)).
  - reflexivity.
  - replace ({[17]} : gset Z) with (sigmask Linux.two_jobs ∪ {[SIGCHLD]});
      [exact Hin2 |].
    change (sigmask Linux.two_jobs) with (∅ : gset Z).
    now rewrite (left_id_L ∅ (∪)).
  - rewrite Hst2; [reflexivity | simpl; lia | reflexivity].
Defined.

End WaitMaskOnLinux.

(** ** The [jobs] listing *)

Lemma stdout_listing_events (j : job) :
  stdout (listing_events j) = listing_line j.
Proof.
  unfold listing_events, listing_line, state_word.
  destruct (state j), (bgProcess j =? 0); cbn [app stdout];
    rewrite ?string_app_assoc, ?string_app_nil_r; reflexivity.
Qed.

Lemma stdout_listing (l : list job) :
  stdout (flat_map listing_events l) = concat_lines (listing_line <$> l).
Proof.
  induction l as [|j l IH]; [reflexivity |].
  cbn [flat_map fmap list_fmap concat_lines].
  now rewrite stdout_app, stdout_listing_events, IH.
Qed.

Lemma not_finished_live (j : job) :
  ¬ is_finished j ↔ state j = RUNNING ∨ state j = STOPPED.
Proof.
  unfold is_finished. destruct (state j); split; intros Hs;
    try (left; reflexivity); try (right; reflexivity);
    try (exfalso; apply Hs; auto; fail);
    try (intros [?|?]; discriminate);
    destruct Hs; discriminate.
Qed.

Section Listing.
Context `{Platform}.

Lemma cleanup_events_live (l : list job) :
  Forall (λ j, ¬ is_finished j) l → flat_map cleanup_events l = [].
Proof.
  induction 1 as [|j l Hj _ IH]; [reflexivity |].
  simpl. rewrite IH. unfold cleanup_events, is_finished in *.
  destruct (decide (state j = TERMINATED)); [tauto |].
  destruct (decide (state j = COMPLETED)); [tauto | reflexivity].
Qed.

(** The line [jobs] typed at the prompt, with no signal delivered during
    the turn of the loop: the cleanup pass, the listing, the cleanup
    pass. *)
Lemma mainBody_jobs (bgProcess0 : Z) (os : os_replies) (st : shell) :
  mainBody ["jobs"%string] bgProcess0 os st
  = (Continue,
     cleanUpJobs
       (sig_setmask (sigmask (cleanUpJobs st))
          (jobs 1 (sig_block {[SIGCHLD]} (cleanUpJobs st))))).
Proof. reflexivity. Qed.

Lemma mainBody_jobs_events (bgProcess0 : Z) (os : os_replies) (st : shell) :
  new_events (cleanUpJobs st) (mainBody ["jobs"%string] bgProcess0 os st).2
  = flat_map listing_events (filter (λ j, ¬ is_finished j) (jobList st)).
Proof.
  rewrite mainBody_jobs. cbn [snd]. apply new_events_app.
  rewrite cleanUpJobs_trace.
  change (jobs 1 (sig_block {[SIGCHLD]} (cleanUpJobs st)))
    with (printJobs (sig_block {[SIGCHLD]} (cleanUpJobs st))).
  rewrite printJobs_events.
  cbn [trace jobList emit_all sig_setmask set_sigmask sig_block].
  rewrite cleanUpJobs_jobList.
  rewrite cleanup_events_live by apply filter_not_finished_Forall.
  now rewrite app_nil_r.
Qed.

(** C5, as the code has it.  [jobs] with more than zero arguments prints
    "jobs: too many arguments" and lists nothing.  With zero arguments
    it prints one line for every job of the registry, in order:
    "[id] pgid ", then "Running " or "Stopped " when the job is in that
    state and nothing when it is [TERMINATED] or [COMPLETED], then the
    display command, a space, "&" when the job is in the background, and
    a newline.  The registry is not filtered by [jobs]; straight after a
    cleanup pass it holds only [RUNNING] and [STOPPED] jobs, so then
    only such jobs are listed, each with its state word: this is what
    the line [jobs] typed at the prompt prints when no signal is
    delivered between the cleanup pass of the read loop and the
    listing. *)
Theorem jobs_lists_registry (numTokens : Z) (st : shell) :
  (1 < numTokens → jobs numTokens st = puts "jobs: too many arguments" st)
  ∧ (numTokens ≤ 1 →
     jobs numTokens st = emit_all (flat_map listing_events (jobList st)) st
     ∧ stdout (new_events st (jobs numTokens st))
       = concat_lines (listing_line <$> jobList st))
  ∧ (numTokens ≤ 1 →
     stdout (new_events (cleanUpJobs st) (jobs numTokens (cleanUpJobs st)))
     = concat_lines (listing_line <$> filter (λ j, ¬ is_finished j) (jobList st))
     ∧ Forall (λ j, state j = RUNNING ∨ state j = STOPPED)
         (jobList (cleanUpJobs st)))
  ∧ (∀ bgProcess0 os,
     stdout (new_events (cleanUpJobs st)
               (mainBody ["jobs"%string] bgProcess0 os st).2)
     = concat_lines (listing_line <$> filter (λ j, ¬ is_finished j) (jobList st))).
Proof.
  assert (Hzero : ∀ st0, numTokens ≤ 1 →
    jobs numTokens st0 = emit_all (flat_map listing_events (jobList st0)) st0
    ∧ stdout (new_events st0 (jobs numTokens st0))
      = concat_lines (listing_line <$> jobList st0)).
  { intros st0 Hn. unfold jobs.
    destruct (numTokens >? 1) eqn:E; [apply Z.gtb_lt in E; lia |].
    rewrite printJobs_events. split; [reflexivity |].
    rewrite (new_events_app st0 _ (flat_map listing_events (jobList st0)))
      by reflexivity.
    apply stdout_listing. }
  split; [|split; [|split]].
  - intros Hn. unfold jobs. apply Z.gtb_lt in Hn. now rewrite Hn.
  - apply Hzero.
  - intros Hn. destruct (Hzero (cleanUpJobs st) Hn) as (_ & ->).
    rewrite cleanUpJobs_jobList. split; [reflexivity |].
    eapply Forall_impl; [apply filter_not_finished_Forall |].
    intros j. apply not_finished_live.
  - intros bgProcess0 os. rewrite mainBody_jobs_events. apply stdout_listing.
Qed.

End Listing.

Section ListingOnLinux.
#[local] Existing Instance Linux.platform.

(** A job the reaper marked [TERMINATED] after the cleanup pass is
    listed by [jobs], without a state word. *)
Lemma jobs_lists_a_terminated_job :
  state <$> jobList Linux.reaped_after_cleanup = [TERMINATED]
  ∧ stdout (new_events Linux.reaped_after_cleanup (jobs 1 Linux.reaped_after_cleanup))
    = ("[1] 100 sleep 5 &" ++ nl)%string
  ∧ ¬ jobs_lists_only_live Linux.reaped_after_cleanup.
Proof.
  split; [reflexivity |]. split; [reflexivity |].
  unfold jobs_lists_only_live. vm_compute. discriminate.
Qed.

Lemma jobs_lists_registry_witness :
  jobs 2 Linux.two_jobs = puts "jobs: too many arguments" Linux.two_jobs
  ∧ stdout (new_events Linux.two_jobs (jobs 1 Linux.two_jobs))
    = ("[1] 100 Running sleep 5 &" ++ nl ++ "[2] 101 Stopped sleep 10 " ++ nl)%string
  ∧ stdout (new_events (cleanUpJobs Linux.reaped_after_cleanup)
              (jobs 1 (cleanUpJobs Linux.reaped_after_cleanup)))
    = EmptyString.
Proof.
  destruct (jobs_lists_registry 2 Linux.two_jobs) as (Hmany & _).
  destruct (jobs_lists_registry 1 Linux.two_jobs) as (_ & Hzero & _).
  destruct (jobs_lists_registry 1 Linux.reaped_after_cleanup) as (_ & _ & Hclean & _).
  split; [apply Hmany; lia |].
  split.
  - destruct Hzero as (_ & ->); [lia | reflexivity].
  - destruct Hclean as (-> & _); [lia | reflexivity].
Defined.

End ListingOnLinux.

(** ** Job references that name no job *)

Lemma stringToJobId_loop_malformed (s : string) :
  ∀ result, all_digits s = false → stringToJobId_loop s result = -1.
Proof.
  induction s as [|c rest IH]; intros result Hd; simpl in *; [discriminate |].
  destruct (isdigit c); simpl in *; [now apply IH | reflexivity].
Qed.

(** Digits only and few enough to stay below [INT_MAX]: the loop computes
    a number that is not negative. *)
Lemma stringToJobId_loop_digits (s : string) :
  ∀ result, all_digits s = true →
    0 ≤ result → (result + 1) * 10 ^ Z.of_nat (String.length s) ≤ 10 ^ 9 →
    0 ≤ stringToJobId_loop s result < 10 ^ 9.
Proof.
  induction s as [|c rest IH]; intros result Hd Hlo Hhi;
    cbn [stringToJobId_loop all_digits String.length] in *.
  - change (10 ^ Z.of_nat 0) with 1 in Hhi. lia.
  - apply andb_prop in Hd as [Hc Hrest]. rewrite Hc. cbn [negb].
    unfold isdigit in Hc. apply andb_prop in Hc as [Hc1 Hc2].
    apply Z.leb_le in Hc1, Hc2.
    rewrite Nat2Z.inj_succ, Z.pow_succ_r in Hhi by lia.
    set (P := 10 ^ Z.of_nat (String.length rest)) in *.
    assert (Hpow : 1 ≤ P) by (apply Z.lt_pred_le, Z.pow_pos_nonneg; lia).
    assert (Hten : (result + 1) * 10 ≤ 10 ^ 9).
    { apply Z.le_trans with ((result + 1) * (10 * P)); [|exact Hhi].
      apply Z.mul_le_mono_nonneg_l; lia. }
    change (10 ^ 9) with 1000000000 in *.
    rewrite (wrap_int_small (result * 10)) by (unfold INT_MAX; lia).
    rewrite wrap_int_small by (unfold INT_MAX; lia).
    apply IH; [assumption | lia |].
    apply Z.le_trans with ((result + 1) * (10 * P)); [|exact Hhi].
    rewrite Z.mul_assoc. apply Z.mul_le_mono_nonneg_r; lia.
Qed.

Lemma stringToJobId_malformed (s : string) :
  well_formed_ref s = false → stringToJobId s = -1.
Proof.
  destruct s as [|c rest]; simpl; [reflexivity |].
  destruct (Ascii.eqb c "%"); simpl; [apply stringToJobId_loop_malformed | reflexivity].
Qed.

Lemma stringToJobId_well_formed (s : string) :
  well_formed_ref s = true → (String.length s <= 10)%nat →
  0 ≤ stringToJobId s < 10 ^ 9.
Proof.
  destruct s as [|c rest]; simpl; [discriminate |].
  destruct (Ascii.eqb c "%"); simpl; [|discriminate].
  intros Hd Hlen. apply stringToJobId_loop_digits; [assumption | lia |].
  rewrite Z.add_0_l, Z.mul_1_l. apply Z.pow_le_mono_r; lia.
Qed.

Lemma dec_value_ge (s : string) :
  ∀ r, all_digits s = true → 0 ≤ r → r ≤ dec_value s r.
Proof.
  induction s as [|c rest IH]; intros r Hd Hr; cbn [dec_value all_digits] in *; [lia |].
  apply andb_prop in Hd as [Hc Hrest].
  unfold isdigit in Hc. apply andb_prop in Hc as [Hc1 Hc2]. apply Z.leb_le in Hc1, Hc2.
  specialize (IH (r * 10 + (Z.of_N (N_of_ascii c) - 48)) Hrest). lia.
Qed.

(** On digits whose value fits an [int], the loop of [stringToJobId]
    computes that value: no step wraps around. *)
Lemma stringToJobId_loop_value (s : string) :
  ∀ r, all_digits s = true → 0 ≤ r → dec_value s r ≤ INT_MAX →
    stringToJobId_loop s r = dec_value s r.
Proof.
  induction s as [|c rest IH]; intros r Hd Hr Hmax;
    cbn [stringToJobId_loop dec_value all_digits] in *; [reflexivity |].
  apply andb_prop in Hd as [Hc Hrest]. rewrite Hc. cbn [negb].
  pose proof (dec_value_ge rest (r * 10 + (Z.of_N (N_of_ascii c) - 48)) Hrest) as Hge.
  unfold isdigit in Hc. apply andb_prop in Hc as [Hc1 Hc2]. apply Z.leb_le in Hc1, Hc2.
  rewrite (wrap_int_small (r * 10)) by (unfold INT_MAX in *; lia).
  rewrite wrap_int_small by (unfold INT_MAX in *; lia).
  apply IH; [exact Hrest | lia | exact Hmax].
Qed.

Lemma stringToJobId_percent (s : string) :
  stringToJobId ("%" ++ s) = stringToJobId_loop s 0.
Proof. reflexivity. Qed.

(** A percent sign and digits whose value fits an [int]: the reference
    is read as that value, which is not the -1 of a malformed one. *)
Lemma stringToJobId_value (digits : string) :
  all_digits digits = true → dec_value digits 0 ≤ INT_MAX →
  stringToJobId ("%" ++ digits) = dec_value digits 0
  ∧ stringToJobId ("%" ++ digits) ≠ -1.
Proof.
  intros Hd Hmax. rewrite stringToJobId_percent.
  rewrite stringToJobId_loop_value by (assumption || lia).
  split; [reflexivity |].
  pose proof (dec_value_ge digits 0 Hd). lia.
Qed.

Section Errors.
Context `{Platform}.

Lemma fg_errors (argv : list string) (numTokens : Z) (os : os_replies) (st : shell) :
  (numTokens ≠ 2 → fg argv numTokens os st = puts "fg: wrong number of arguments" st)
  ∧ (numTokens = 2 → stringToJobId (nth 1 argv EmptyString) = -1 →
     fg argv numTokens os st = puts "fg: invalid job id" st)
  ∧ (numTokens = 2 → stringToJobId (nth 1 argv EmptyString) ≠ -1 →
     Forall (λ j, id j ≠ stringToJobId (nth 1 argv EmptyString)) (jobList st) →
     fg argv numTokens os st = puts "fg: job not found" st).
Proof.
  unfold fg. repeat split.
  - intros Hn. apply Z.eqb_neq in Hn. now rewrite Hn.
  - intros -> ->. reflexivity.
  - intros -> Hj Hno. apply Z.eqb_neq in Hj. simpl. now rewrite Hj, find_id_None.
Qed.

Lemma bg_errors (argv : list string) (numTokens : Z) (os : os_replies) (st : shell) :
  (numTokens ≠ 2 → bg argv numTokens os st = puts "bg: wrong number of arguments" st)
  ∧ (numTokens = 2 → stringToJobId (nth 1 argv EmptyString) = -1 →
     bg argv numTokens os st = puts "bg: invalid job id" st)
  ∧ (numTokens = 2 → stringToJobId (nth 1 argv EmptyString) ≠ -1 →
     Forall (λ j, id j ≠ stringToJobId (nth 1 argv EmptyString)) (jobList st) →
     bg argv numTokens os st = puts "bg: job not found" st).
Proof.
  unfold bg. repeat split.
  - intros Hn. apply Z.eqb_neq in Hn. now rewrite Hn.
  - intros -> ->. reflexivity.
  - intros -> Hj Hno. apply Z.eqb_neq in Hj. simpl. now rewrite Hj, find_id_None.
Qed.

Lemma killFunc_errors (argv : list string) (numTokens : Z) (os : os_replies)
    (st : shell) :
  (numTokens ≠ 2 →
     killFunc argv numTokens os st = puts "kill: wrong number of arguments" st)
  ∧ (numTokens = 2 → stringToJobId (nth 1 argv EmptyString) = -1 →
     killFunc argv numTokens os st = puts "kill: invalid job id" st)
  ∧ (numTokens = 2 → stringToJobId (nth 1 argv EmptyString) ≠ -1 →
     Forall (λ j, id j ≠ stringToJobId (nth 1 argv EmptyString)) (jobList st) →
     killFunc argv numTokens os st = puts "kill: job not found" st).
Proof.
  unfold killFunc. repeat split.
  - intros Hn. apply Z.eqb_neq in Hn. now rewrite Hn.
  - intros -> ->. reflexivity.
  - intros -> Hj Hno. apply Z.eqb_neq in Hj. simpl. now rewrite Hj, find_id_None.
Qed.

(** C8, as the code has it.  For each of [fg], [bg] and [kill] there are
    three error messages for a job reference that names no job, each
    beginning with the name of the command: "wrong number of arguments"
    when the number of tokens is not 2; "invalid job id" when the
    argument is not a percent sign followed by digits only; and "job not
    found" when the argument is a percent sign followed by digits whose
    decimal value is at most [INT_MAX] and no tracked job has that value
    as its id.  "%0" (like "%" alone) is read as the id 0 and, the ids of
    tracked jobs being positive, is reported as "job not found", the
    message of any other id that matches no job.  In all these cases the
    only thing the command does is to print the message: the registry,
    the counters and the blocked signals stay as they are and no signal
    is sent.  A reference whose number does not fit an [int] is left
    out. *)
Theorem job_reference_errors (argv : list string) (numTokens : Z)
    (os : os_replies) (st : shell) :
  let arg := nth 1 argv EmptyString in
  (numTokens ≠ 2 →
     fg argv numTokens os st = puts "fg: wrong number of arguments" st
     ∧ bg argv numTokens os st = puts "bg: wrong number of arguments" st
     ∧ killFunc argv numTokens os st = puts "kill: wrong number of arguments" st)
  ∧ (numTokens = 2 → well_formed_ref arg = false →
     fg argv numTokens os st = puts "fg: invalid job id" st
     ∧ bg argv numTokens os st = puts "bg: invalid job id" st
     ∧ killFunc argv numTokens os st = puts "kill: invalid job id" st)
  ∧ (∀ digits, numTokens = 2 → arg = ("%" ++ digits)%string →
     all_digits digits = true → dec_value digits 0 ≤ INT_MAX →
     Forall (λ j, id j ≠ dec_value digits 0) (jobList st) →
     fg argv numTokens os st = puts "fg: job not found" st
     ∧ bg argv numTokens os st = puts "bg: job not found" st
     ∧ killFunc argv numTokens os st = puts "kill: job not found" st)
  ∧ (numTokens = 2 → (arg = "%0"%string ∨ arg = "%"%string) →
     Forall (λ j, 0 < id j) (jobList st) →
     fg argv numTokens os st = puts "fg: job not found" st
     ∧ bg argv numTokens os st = puts "bg: job not found" st
     ∧ killFunc argv numTokens os st = puts "kill: job not found" st)
  ∧ (∀ s, jobList (puts s st) = jobList st
          ∧ nextJobId (puts s st) = nextJobId st
          ∧ activeJobs (puts s st) = activeJobs st
          ∧ sigmask (puts s st) = sigmask st
          ∧ new_events st (puts s st) = [EvWrite (s ++ nl)%string]
          ∧ signals_to (new_events st (puts s st)) = []).
Proof.
  intros arg.
  destruct (fg_errors argv numTokens os st) as (F1 & F2 & F3).
  destruct (bg_errors argv numTokens os st) as (B1 & B2 & B3).
  destruct (killFunc_errors argv numTokens os st) as (K1 & K2 & K3).
  fold arg in F2, F3, B2, B3, K2, K3.
  split; [now auto |].
  split.
  { intros Hn Hw. apply stringToJobId_malformed in Hw. auto. }
  split.
  { intros digits Hn Harg Hd Hmax Hno.
    destruct (stringToJobId_value digits Hd Hmax) as [Hv Hne].
    rewrite <- Harg in Hv, Hne. rewrite <- Hv in Hno. auto. }
  split.
  { intros Hn Harg Hpos.
    assert (Hz : stringToJobId arg = 0) by (destruct Harg as [->| ->]; reflexivity).
    assert (Hno : Forall (λ j, id j ≠ stringToJobId arg) (jobList st)).
    { rewrite Hz. eapply Forall_impl; [exact Hpos |]. simpl. intros j Hj. lia. }
    assert (Hne : stringToJobId arg ≠ -1) by (rewrite Hz; lia).
    auto. }
  intros s.
  assert (Hev : new_events st (puts s st) = [EvWrite (s ++ nl)%string])
    by now apply new_events_app.
  repeat split; [exact Hev | now rewrite Hev].
Qed.

End Errors.

Section ErrorsOnLinux.
#[local] Existing Instance Linux.platform.

(** The reference to job 0 and the reference to a job that does not
    exist get the same message from each of the three commands. *)
Lemma job_zero_and_missing_job_same_error :
  ¬ (output_of fg ["fg"; "%0"]%string (Linux.replies 0 0) Linux.two_jobs
     ≠ output_of fg ["fg"; "%7"]%string (Linux.replies 0 0) Linux.two_jobs)
  ∧ ¬ (output_of bg ["bg"; "%0"]%string (Linux.replies 0 0) Linux.two_jobs
       ≠ output_of bg ["bg"; "%7"]%string (Linux.replies 0 0) Linux.two_jobs)
  ∧ ¬ (output_of killFunc ["kill"; "%0"]%string (Linux.replies 0 0) Linux.two_jobs
       ≠ output_of killFunc ["kill"; "%7"]%string (Linux.replies 0 0) Linux.two_jobs)
  ∧ output_of fg ["fg"; "%0"]%string (Linux.replies 0 0) Linux.two_jobs
    = ("fg: job not found" ++ nl)%string.
Proof.
  repeat split; try (intros Hd; apply Hd); reflexivity.
Qed.

Lemma job_reference_errors_witness :
  fg ["fg"]%string 1 (Linux.replies 0 0) Linux.two_jobs
  = puts "fg: wrong number of arguments" Linux.two_jobs
  ∧ bg ["bg"; "%abc"]%string 2 (Linux.replies 0 0) Linux.two_jobs
    = puts "bg: invalid job id" Linux.two_jobs
  ∧ killFunc ["kill"; "%7"]%string 2 (Linux.replies 0 0) Linux.two_jobs
    = puts "kill: job not found" Linux.two_jobs
  ∧ fg ["fg"; "%0"]%string 2 (Linux.replies 0 0) Linux.two_jobs
    = puts "fg: job not found" Linux.two_jobs
  ∧ bg ["bg"; "%2147483647"]%string 2 (Linux.replies 0 0) Linux.two_jobs
    = puts "bg: job not found" Linux.two_jobs.
Proof.
  destruct (job_reference_errors ["fg"]%string 1 (Linux.replies 0 0) Linux.two_jobs)
    as (Hcount & _).
  destruct (job_reference_errors ["bg"; "%abc"]%string 2 (Linux.replies 0 0)
              Linux.two_jobs) as (_ & Hbad & _).
  destruct (job_reference_errors ["kill"; "%7"]%string 2 (Linux.replies 0 0)
              Linux.two_jobs) as (_ & _ & Hmiss & _).
  destruct (job_reference_errors ["fg"; "%0"]%string 2 (Linux.replies 0 0)
              Linux.two_jobs) as (_ & _ & _ & Hzero & _).
  destruct (job_reference_errors ["bg"; "%2147483647"]%string 2 (Linux.replies 0 0)
              Linux.two_jobs) as (_ & _ & Hmax & _).
  split; [apply Hcount; lia |].
  split; [apply Hbad; reflexivity |].
  split.
  { apply (Hmiss "7"%string); try reflexivity; [unfold INT_MAX; simpl; lia |].
    vm_compute. repeat constructor; discriminate. }
  split.
  { apply Hzero; [reflexivity | left; reflexivity |].
    vm_compute. repeat constructor. }
  apply (Hmax "2147483647"%string); try reflexivity.
  vm_compute. repeat constructor; discriminate.
Defined.

End ErrorsOnLinux.

(** * Further properties *)

(** ** Splitting a line into tokens *)

Lemma skip_delims_length (delims s : string) :
  (String.length (skip_delims delims s) <= String.length s)%nat.
Proof.
  induction s as [|c rest IH]; simpl; [lia |].
  destruct (is_delim delims c); simpl; lia.
Qed.

Lemma skip_delims_head (delims : string) (s : string) c rest :
  skip_delims delims s = String c rest → is_delim delims c = false.
Proof.
  induction s as [|x s IH]; simpl; [discriminate |].
  destruct (is_delim delims x) eqn:E; [exact IH |].
  intros Hs. inversion Hs; subst. exact E.
Qed.

Lemma scan_token_facts (delims s : string) :
  (String.length (scan_token delims s).1 + String.length (scan_token delims s).2
   <= String.length s)%nat
  ∧ has_delim delims (scan_token delims s).1 = false.
Proof.
  induction s as [|c rest IH]; simpl; [split; [lia | reflexivity] |].
  destruct (is_delim delims c) eqn:E; simpl; [split; [lia | reflexivity] |].
  destruct (scan_token delims rest) as [tok save]. simpl in *.
  rewrite E. split; [lia | apply IH].
Qed.

(** A token [strtok] finds is not empty, holds no delimiter, and with
    what is left is no longer than what [strtok] started from. *)
Lemma strtok_token (delims s t save : string) :
  strtok delims s = (Some t, save) →
  t ≠ EmptyString ∧ has_delim delims t = false
  ∧ (String.length t + String.length save <= String.length s)%nat.
Proof.
  unfold strtok. destruct (skip_delims delims s) as [|c rest] eqn:Es; [discriminate |].
  pose proof (skip_delims_head _ _ _ _ Es) as Hc.
  pose proof (skip_delims_length delims s) as Hlen. rewrite Es in Hlen.
  destruct (scan_token_facts delims (String c rest)) as (Hl & Hd).
  destruct (scan_token delims (String c rest)) as [tok sv] eqn:Et.
  intros Heq. inversion Heq; subst. cbn [fst snd] in Hl, Hd.
  split; [|split; [exact Hd | lia]].
  simpl in Et. rewrite Hc in Et.
  destruct (scan_token delims rest). inversion Et. discriminate.
Qed.

Lemma strtok_none (delims s save : string) :
  strtok delims s = (None, save) → only_delims delims s = true.
Proof.
  unfold strtok. destruct (skip_delims delims s) as [|c rest] eqn:Es.
  - intros _. induction s as [|x s IH]; [reflexivity |].
    simpl in *. destruct (is_delim delims x); [now apply IH | discriminate].
  - destruct (scan_token delims (String c rest)). discriminate.
Qed.

Lemma only_delims_strtok (delims s : string) :
  only_delims delims s = true → strtok delims s = (None, EmptyString).
Proof.
  intros Ho. unfold strtok.
  assert (Hs : skip_delims delims s = EmptyString).
  { induction s as [|x s IH]; [reflexivity |].
    simpl in *. apply andb_prop in Ho as [-> Ho]. now apply IH. }
  now rewrite Hs.
Qed.

(** The loop of [tokenize], from a state in which the counters are what
    they are in the program: as many tokens as [currentSize] says, in an
    array of [max 1 currentSize] slots. *)
Lemma tokenize_loop_returns (fuel : nat) :
  ∀ token save result,
    (match token with
     | Some _ => String.length save < fuel
     | None => True
     end)%nat →
    Z.of_nat (length result) + Z.of_nat fuel ≤ INT_MAX →
    Forall (λ t, t ≠ EmptyString ∧ has_delim later_delims t = false) result →
    (∀ t, token = Some t → t ≠ EmptyString ∧ has_delim later_delims t = false) →
    ∃ tokens,
      tokenize_loop fuel token save result (Z.of_nat (length result))
        (Z.max 1 (Z.of_nat (length result)))
      = Some (tokens, Z.of_nat (length tokens), Z.max 1 (Z.of_nat (length tokens)))
      ∧ Forall (λ t, t ≠ EmptyString ∧ has_delim later_delims t = false) tokens
      ∧ (length result <= length tokens)%nat
      ∧ (token ≠ None → length result < length tokens)%nat
      ∧ (length tokens <= length result + fuel)%nat.
Proof.
  induction fuel as [|fuel IH]; intros token save result Hfuel Hmax Hres Htok.
  - destruct token as [t|]; [lia |]. exists result. simpl.
    repeat split; auto; [congruence | lia].
  - destruct token as [t|];
      [|exists result; simpl; repeat split; auto; [congruence | lia]].
    cbn [tokenize_loop].
    destruct (strtok later_delims save) as [token' save'] eqn:Es.
    assert (Hcs : wrap_int (Z.of_nat (length result) + 1)
                  = Z.of_nat (length (result ++ [t]))).
    { rewrite length_app. simpl. rewrite wrap_int_small; unfold INT_MAX in *; lia. }
    assert (Hms : (if Z.of_nat (length result) =? Z.max 1 (Z.of_nat (length result))
                   then wrap_int (Z.max 1 (Z.of_nat (length result)) + 1)
                   else Z.max 1 (Z.of_nat (length result)))
                  = Z.max 1 (Z.of_nat (length (result ++ [t])))).
    { rewrite length_app. simpl.
      destruct (Z.of_nat (length result) =? Z.max 1 (Z.of_nat (length result))) eqn:E.
      - apply Z.eqb_eq in E. rewrite wrap_int_small; unfold INT_MAX in *; lia.
      - apply Z.eqb_neq in E. lia. }
    rewrite Hcs, Hms.
    destruct (IH token' save' (result ++ [t])) as (tokens & Heq & Hall & Hlen & _ & Hup).
    + destruct token' as [t'|]; [|exact I].
      destruct (strtok_token _ _ _ _ Es) as (Hne & _ & Hl).
      destruct t'; [congruence | simpl in Hl; lia].
    + rewrite length_app. simpl. lia.
    + apply Forall_app. split; [exact Hres |]. constructor; [now apply Htok | constructor].
    + intros t' ->. destruct (strtok_token _ _ _ _ Es) as (Hne & Hd & _). now split.
    + exists tokens. split; [exact Heq |]. split; [exact Hall |].
      rewrite length_app in Hlen, Hup. simpl in Hlen, Hup.
      split; [lia |]. split; [intros _; lia | lia].
Qed.

Lemma has_delim_later_of_first (t : string) :
  has_delim first_delims t = false → has_delim later_delims t = false.
Proof.
  induction t as [|c t IH]; [reflexivity |]. simpl.
  intros Hd. apply orb_false_elim in Hd as [Hc Ht].
  rewrite (IH Ht). apply orb_false_elim in Hc as [-> _]. reflexivity.
Qed.

Lemma tokenize_facts (input : string) :
  Z.of_nat (String.length input) < INT_MAX →
  ∃ tokens,
    tokenize input
    = Some (tokens, Z.of_nat (length tokens), Z.max 1 (Z.of_nat (length tokens)))
    ∧ Forall (λ t, t ≠ EmptyString ∧ has_delim " " t = false) tokens
    ∧ (tokens = [] ↔ only_delims first_delims input = true)
    ∧ (length tokens <= String.length input)%nat.
Proof.
  intros Hlen. unfold tokenize.
  destruct (strtok first_delims input) as [token save] eqn:Es.
  destruct (tokenize_loop_returns (String.length input) token save [])
    as (tokens & Heq & Hall & _ & Hsome & Hup).
  - destruct token as [t|]; [|exact I].
    destruct (strtok_token _ _ _ _ Es) as (Hne & _ & Hl).
    destruct t; [congruence | simpl in Hl; lia].
  - simpl. lia.
  - constructor.
  - intros t ->. destruct (strtok_token _ _ _ _ Es) as (Hne & Hd & _).
    split; [exact Hne | now apply has_delim_later_of_first].
  - exists tokens. split; [exact Heq |]. split; [exact Hall |].
    split; [|simpl in Hup; exact Hup].
    destruct token as [t|].
    + split.
      * intros ->. specialize (Hsome ltac:(discriminate)). simpl in Hsome. lia.
      * intros Ho. rewrite (only_delims_strtok _ _ Ho) in Es. discriminate.
    + split; [intros _; eapply strtok_none, Es |].
      intros _. destruct (String.length input); simpl in Heq; now inversion Heq.
Qed.

(** X1.  [tokenize] returns for every line shorter than [INT_MAX]
    characters (its loop ends).  No token it returns is empty and none
    holds a space; [*numTokens] is the number of tokens, and [*capacity]
    is that number, or 1 when there is no token; there is no token
    exactly when the line holds nothing but blanks (space, tab, carriage
    return, newline). *)
Theorem tokenize_returns_tokens (input : string) :
  Z.of_nat (String.length input) < INT_MAX →
  ∃ tokens,
    tokenize input
    = Some (tokens, Z.of_nat (length tokens), Z.max 1 (Z.of_nat (length tokens)))
    ∧ Forall (λ t, t ≠ EmptyString ∧ has_delim " " t = false) tokens
    ∧ (tokens = [] ↔ only_delims first_delims input = true).
Proof.
  intros Hlen. destruct (tokenize_facts input Hlen) as (tokens & H1 & H2 & H3 & _).
  now exists tokens.
Qed.

Lemma tokenize_returns_tokens_witness :
  ∃ tokens,
    tokenize "ls  -l /tmp &"
    = Some (tokens, Z.of_nat (length tokens), Z.max 1 (Z.of_nat (length tokens)))
    ∧ Forall (λ t, t ≠ EmptyString ∧ has_delim " " t = false) tokens
    ∧ (tokens = [] ↔ only_delims first_delims "ls  -l /tmp &" = true).
Proof. apply (tokenize_returns_tokens "ls  -l /tmp &"). unfold INT_MAX. simpl. lia. Defined.

(** ** Joining and splitting again *)

Lemma string_length_app (a b : string) :
  String.length (a ++ b) = (String.length a + String.length b)%nat.
Proof.
  induction a as [|x a IH]; [reflexivity |].
  rewrite string_app_cons. simpl. now rewrite IH.
Qed.

Lemma join_args_cons (a b : string) (l : list string) :
  join_args (a :: b :: l) = (a ++ " " ++ join_args (b :: l))%string.
Proof. reflexivity. Qed.

Lemma scan_token_word (delims a rest : string) :
  has_delim delims a = false → is_delim delims " " = true →
  scan_token delims (a ++ " " ++ rest) = (a, rest).
Proof.
  intros Ha Hsp. induction a as [|x a IH].
  - change (EmptyString ++ " " ++ rest)%string with (String " " rest).
    simpl. now rewrite Hsp.
  - simpl in Ha. apply orb_false_elim in Ha as [Hx Ha].
    rewrite string_app_cons. simpl. rewrite Hx, (IH Ha). reflexivity.
Qed.

Lemma scan_token_end (delims a : string) :
  has_delim delims a = false → scan_token delims a = (a, EmptyString).
Proof.
  induction a as [|x a IH]; [reflexivity |]. simpl.
  intros Ha. apply orb_false_elim in Ha as [Hx Ha]. now rewrite Hx, (IH Ha).
Qed.

Lemma skip_delims_word (delims a rest : string) :
  a ≠ EmptyString → has_delim delims a = false →
  skip_delims delims (a ++ rest) = (a ++ rest)%string.
Proof.
  destruct a as [|x a]; [congruence |]. intros _ Ha. simpl in Ha.
  apply orb_false_elim in Ha as [Hx _].
  rewrite string_app_cons. simpl. now rewrite Hx.
Qed.

(** [strtok] on joined arguments takes the first one off. *)
Lemma strtok_join (delims a : string) (l : list string) :
  a ≠ EmptyString → has_delim delims a = false → is_delim delims " " = true →
  strtok delims (join_args (a :: l)) = (Some a, join_args l).
Proof.
  intros Hne Ha Hsp. unfold strtok. destruct l as [|b l].
  - cbn [join_args]. rewrite <- (string_app_nil_r a) at 1.
    rewrite (skip_delims_word delims a EmptyString Hne Ha), string_app_nil_r.
    destruct a as [|x a]; [congruence |].
    now rewrite (scan_token_end delims (String x a) Ha).
  - rewrite join_args_cons.
    rewrite (skip_delims_word delims a _ Hne Ha).
    destruct a as [|x a]; [congruence |].
    rewrite string_app_cons, <- string_app_cons.
    now rewrite (scan_token_word delims (String x a) _ Ha Hsp).
Qed.

Lemma tokenize_loop_join (l : list string) :
  ∀ fuel a result cs ms,
    (length l < fuel)%nat →
    Forall (λ t, t ≠ EmptyString ∧ has_delim later_delims t = false) l →
    ∃ n c, tokenize_loop fuel (Some a) (join_args l) result cs ms
           = Some (result ++ a :: l, n, c).
Proof.
  induction l as [|b l IH]; intros fuel a result cs ms Hfuel Hall.
  - destruct fuel as [|fuel]; [simpl in Hfuel; lia |]. simpl.
    destruct fuel; simpl; eauto.
  - destruct fuel as [|fuel]; [simpl in Hfuel; lia |].
    inversion Hall as [|? ? [Hb Hd] Hrest]; subst.
    cbn [tokenize_loop].
    rewrite (strtok_join later_delims b l Hb Hd eq_refl).
    destruct (IH fuel b (result ++ [a]) (wrap_int (cs + 1))
                (if cs =? ms then wrap_int (ms + 1) else ms)) as (n & c & Heq);
      [simpl in Hfuel; lia | exact Hrest |].
    exists n, c. rewrite Heq, <- app_assoc. reflexivity.
Qed.

Lemma join_args_length (l : list string) :
  Forall (λ t, t ≠ EmptyString) l → (length l <= String.length (join_args l))%nat.
Proof.
  induction 1 as [|a l Ha Hl IH]; [simpl; lia |].
  destruct l as [|b l].
  - destruct a; [congruence | simpl; lia].
  - rewrite join_args_cons, !string_length_app.
    change (String.length " ") with 1%nat. simpl in *. lia.
Qed.

(** X2.  Splitting what [joinString] has joined gives the arguments back:
    for arguments that are not empty and hold no space, the first one
    holding no tab, carriage return or newline either, [tokenize] of the
    display command is the argument vector.  So the display command of a
    job, typed again, is the same command. *)
Theorem tokenize_joinString (argv : list string) :
  Forall (λ t, t ≠ EmptyString ∧ has_delim " " t = false) argv →
  has_delim first_delims (hd EmptyString argv) = false →
  (λ r, r.1.1) <$> tokenize (joinString (Z.of_nat (length argv)) argv) = Some argv.
Proof.
  intros Hall Hfirst. unfold joinString. rewrite Nat2Z.id, firstn_all.
  destruct argv as [|a l]; [reflexivity |].
  inversion Hall as [|? ? [Ha Hd] Hrest]; subst. simpl in Hfirst.
  unfold tokenize. rewrite (strtok_join first_delims a l Ha Hfirst eq_refl).
  assert (Hne : Forall (λ t, t ≠ EmptyString) (a :: l)).
  { eapply Forall_impl; [exact Hall |]. simpl. tauto. }
  pose proof (join_args_length _ Hne) as Hlen.
  destruct (tokenize_loop_join l (String.length (join_args (a :: l))) a [] 0 1)
    as (n & c & ->); [cbn [length] in Hlen; lia | exact Hrest |].
  reflexivity.
Qed.

Lemma tokenize_joinString_witness :
  (λ r, r.1.1) <$> tokenize (joinString 3 ["sleep"; "10"; "x"]%string)
  = Some ["sleep"; "10"; "x"]%string.
Proof.
  apply (tokenize_joinString ["sleep"; "10"; "x"]%string); [|reflexivity].
  repeat constructor; discriminate.
Defined.

Lemma join_args_length_sum (argv : list string) :
  argv ≠ [] →
  Z.of_nat (String.length (join_args argv))
  = Z.of_nat (list_sum (String.length <$> argv)) + (Z.of_nat (length argv) - 1).
Proof.
  intros Hne. induction argv as [|a l IH]; [congruence |].
  destruct l as [|b l].
  - simpl. lia.
  - rewrite join_args_cons, !string_length_app.
    change (String.length " ") with 1%nat.
    specialize (IH ltac:(discriminate)).
    rewrite (fmap_cons String.length a). rewrite (fmap_cons String.length b) in *.
    cbn [list_sum fold_right length] in *. lia.
Qed.

(** The loop of lines 780-782 adds the lengths up, as long as the sum
    fits an [int]. *)
Lemma joinString_lengths_sum (argv : list string) :
  ∀ resultSize, 0 ≤ resultSize →
    resultSize + Z.of_nat (list_sum (String.length <$> argv)) ≤ INT_MAX →
    joinString_lengths argv resultSize
    = resultSize + Z.of_nat (list_sum (String.length <$> argv)).
Proof.
  induction argv as [|a l IH]; intros r Hr Hmax; cbn [joinString_lengths].
  - simpl. lia.
  - rewrite (fmap_cons String.length a) in *.
    change (list_sum (String.length a :: (String.length <$> l)))
      with (String.length a + list_sum (String.length <$> l))%nat in *.
    rewrite wrap_int_small by (unfold INT_MAX in *; lia).
    rewrite IH by lia. lia.
Qed.

Lemma joinString_fill_outside (size : Z) (argv : list string) :
  joinString_fill size argv None = None.
Proof.
  induction argv as [|a l IH]; [reflexivity |].
  cbn [joinString_fill strcat_within]. destruct l; exact IH.
Qed.

Lemma joinString_fill_next (size : Z) (a b : string) (l : list string)
    (result : option string) :
  joinString_fill size (a :: b :: l) result
  = joinString_fill size (b :: l)
      (strcat_within size (strcat_within size result a) " ").
Proof. reflexivity. Qed.

Lemma strcat_within_fits (size : Z) (r src : string) :
  Z.of_nat (String.length (r ++ src)) + 1 ≤ size →
  strcat_within size (Some r) src = Some (r ++ src)%string.
Proof. intros Hfit. unfold strcat_within. apply Z.leb_le in Hfit. now rewrite Hfit. Qed.

(** The loop of lines 790-795 in a buffer with room for the whole
    string and its terminator: no call of [strcat] writes outside. *)
Lemma joinString_fill_fits (size : Z) (argv : list string) :
  ∀ r, Z.of_nat (String.length (r ++ join_args argv)) + 1 ≤ size →
    joinString_fill size argv (Some r) = Some (r ++ join_args argv)%string.
Proof.
  induction argv as [|a l IH]; intros r Hfit.
  - simpl. now rewrite string_app_nil_r.
  - destruct l as [|b l].
    + cbn [joinString_fill join_args] in *. now apply strcat_within_fits.
    + rewrite join_args_cons in *. rewrite joinString_fill_next.
      rewrite !string_length_app in Hfit.
      change (String.length " ") with 1%nat in Hfit.
      rewrite (strcat_within_fits size r a) by (rewrite string_length_app; lia).
      rewrite (strcat_within_fits size (r ++ a) " ")
        by (rewrite !string_length_app; change (String.length " ") with 1%nat; lia).
      rewrite IH.
      * now rewrite !string_app_assoc.
      * rewrite !string_length_app.
        change (String.length " ") with 1%nat. lia.
Qed.

(** The same loop in a buffer too small for the string and its
    terminator: some call of [strcat] writes outside. *)
Lemma joinString_fill_overflows (size : Z) (argv : list string) :
  ∀ r, argv ≠ [] → size < Z.of_nat (String.length (r ++ join_args argv)) + 1 →
    joinString_fill size argv (Some r) = None.
Proof.
  induction argv as [|a l IH]; intros r Hne Hbig; [congruence |].
  destruct l as [|b l].
  - cbn [joinString_fill strcat_within join_args] in *.
    destruct (Z.of_nat (String.length (r ++ a)) + 1 <=? size) eqn:E; [|reflexivity].
    apply Z.leb_le in E. lia.
  - rewrite join_args_cons in Hbig. rewrite joinString_fill_next.
    unfold strcat_within at 2.
    destruct (Z.of_nat (String.length (r ++ a)) + 1 <=? size);
      [|apply joinString_fill_outside].
    unfold strcat_within.
    destruct (Z.of_nat (String.length ((r ++ a) ++ " ")) + 1 <=? size);
      [|apply joinString_fill_outside].
    apply IH; [discriminate |]. now rewrite !string_app_assoc.
Qed.

(** X3.  [joinString] asks [malloc] for exactly the buffer it fills.
    For at least one argument, with lengths whose sum plus the number of
    arguments fits an [int]: [resultSize] as lines 778-785 compute it is
    the length of the joined string plus one for the terminator; every
    call of [strcat] of lines 790-795 stays inside the [resultSize]
    characters allocated and the string built is the arguments joined by
    single spaces; and no character is to spare, a buffer one character
    shorter being overrun.  With [argc] 0 the buffer has no character
    and the write of [result[0]] is outside it. *)
Theorem joinString_fills_its_buffer (argv : list string) :
  let argc := Z.of_nat (length argv) in
  argv ≠ [] →
  Z.of_nat (list_sum (String.length <$> argv)) + argc ≤ INT_MAX →
  joinString_resultSize argc argv
  = Z.of_nat (String.length (joinString argc argv)) + 1
  ∧ joinString_buffer argc argv = Some (joinString argc argv)
  ∧ joinString_fill (joinString_resultSize argc argv - 1) argv (Some EmptyString)
    = None
  ∧ joinString_buffer 0 argv = None.
Proof.
  intros argc Hne Hmax. subst argc.
  assert (Hpos : (0 < length argv)%nat) by (destruct argv; [congruence | simpl; lia]).
  assert (Hsize : joinString_resultSize (Z.of_nat (length argv)) argv
                  = Z.of_nat (String.length (join_args argv)) + 1).
  { unfold joinString_resultSize. rewrite Nat2Z.id, firstn_all.
    rewrite joinString_lengths_sum by lia.
    rewrite wrap_int_small by (unfold INT_MAX in *; lia).
    rewrite (join_args_length_sum argv Hne). lia. }
  unfold joinString. rewrite Nat2Z.id, firstn_all.
  split; [exact Hsize |]. split; [|split].
  - unfold joinString_buffer. rewrite Hsize, Nat2Z.id, firstn_all.
    rewrite Z.ltb_irrefl.
    destruct (Z.of_nat (String.length (join_args argv)) + 1 <? 1) eqn:E;
      [apply Z.ltb_lt in E; lia |].
    rewrite joinString_fill_fits; [reflexivity |].
    change (EmptyString ++ join_args argv)%string with (join_args argv). lia.
  - rewrite Hsize. apply joinString_fill_overflows; [exact Hne |].
    change (EmptyString ++ join_args argv)%string with (join_args argv). lia.
  - unfold joinString_buffer, joinString_resultSize.
    destruct (Z.of_nat (length argv) <? 0) eqn:E; [reflexivity |].
    reflexivity.
Qed.

Lemma joinString_fills_its_buffer_witness :
  joinString_resultSize 2 ["sleep"; "10"]%string = 9
  ∧ joinString_buffer 2 ["sleep"; "10"]%string = Some "sleep 10"%string
  ∧ joinString_fill 8 ["sleep"; "10"]%string (Some EmptyString) = None.
Proof.
  destruct (joinString_fills_its_buffer ["sleep"; "10"]%string)
    as (Hsize & Hbuf & Htight & _);
    [discriminate | unfold INT_MAX; simpl; lia |].
  split; [exact Hsize | split; [exact Hbuf | exact Htight]].
Defined.

(** ** The trailing ampersand *)

Lemma last_char_app (body : string) (c : ascii) :
  last_char (body ++ String c EmptyString) = Some c.
Proof.
  induction body as [|x body IH]; [reflexivity |].
  rewrite string_app_cons. cbn [last_char]. rewrite IH.
  destruct (body ++ String c EmptyString)%string eqn:E; [|reflexivity].
  destruct body; discriminate.
Qed.

Lemma drop_last_char_app (body : string) (c : ascii) :
  drop_last_char (body ++ String c EmptyString) = body.
Proof.
  induction body as [|x body IH]; [reflexivity |].
  rewrite string_app_cons. cbn [drop_last_char]. rewrite IH.
  destruct (body ++ String c EmptyString)%string eqn:E; [|reflexivity].
  destruct body; discriminate.
Qed.

Lemma last_char_split (s : string) (c : ascii) :
  last_char s = Some c → s = (drop_last_char s ++ String c EmptyString)%string.
Proof.
  induction s as [|x s IH]; [discriminate |].
  destruct s as [|y s]; simpl.
  - intros Hc. now inversion Hc.
  - intros Hc. rewrite string_app_cons. f_equal. now apply IH.
Qed.

Lemma last_char_none (s : string) : last_char s = None → s = EmptyString.
Proof.
  induction s as [|x s IH]; [reflexivity |].
  destruct s as [|y s]; simpl; [discriminate |]. intros Hc.
  specialize (IH Hc). discriminate.
Qed.

(** X4.  [handleAmpersand] takes one ampersand off the end of the
    command and no more.  With no token at all it reads before the
    array.  A last token "&" is removed and the count goes down by one; a
    last token that ends in "&" after something else loses that one
    character (so "&&" leaves the token "&"); in both cases 1 is
    returned.  Any other last token leaves everything as it is and 0 is
    returned.  Tokens before the last are never touched. *)
Theorem handleAmpersand_strips_one (init : list string) (numTokens : Z) :
  handleAmpersand [] numTokens = None
  ∧ handleAmpersand (init ++ ["&"%string]) numTokens
    = Some (1, init, wrap_int (numTokens - 1))
  ∧ (∀ body, body ≠ EmptyString →
       handleAmpersand (init ++ [(body ++ "&")%string]) numTokens
       = Some (1, init ++ [body], numTokens))
  ∧ (∀ lastToken c, last_char lastToken = Some c → c ≠ "&"%char →
       handleAmpersand (init ++ [lastToken]) numTokens
       = Some (0, init ++ [lastToken], numTokens)).
Proof.
  split; [reflexivity |]. split; [|split].
  - unfold handleAmpersand. rewrite last_snoc. cbn [String.eqb Ascii.eqb Bool.eqb].
    now rewrite removelast_last.
  - intros body Hb. unfold handleAmpersand. rewrite last_snoc.
    assert (Hne : String.eqb (body ++ "&") "&" = false).
    { apply String.eqb_neq. intros Heq.
      apply (f_equal String.length) in Heq. rewrite string_length_app in Heq.
      destruct body; [congruence | simpl in Heq; lia]. }
    rewrite Hne, last_char_app. cbn [Ascii.eqb Bool.eqb].
    now rewrite removelast_last, drop_last_char_app.
  - intros lastToken c Hc Hamp. unfold handleAmpersand. rewrite last_snoc.
    assert (Hne : String.eqb lastToken "&" = false).
    { apply String.eqb_neq. intros ->. simpl in Hc. inversion Hc. congruence. }
    rewrite Hne, Hc.
    apply Ascii.eqb_neq in Hamp. now rewrite Hamp.
Qed.

Lemma handleAmpersand_strips_one_witness :
  handleAmpersand ["sleep"; "5&"]%string 2 = Some (1, ["sleep"; "5"]%string, 2)
  ∧ handleAmpersand ["ls"; "&&"]%string 2 = Some (1, ["ls"; "&"]%string, 2)
  ∧ handleAmpersand ["ls"; "-l"]%string 2 = Some (0, ["ls"; "-l"]%string, 2).
Proof.
  destruct (handleAmpersand_strips_one ["sleep"]%string 2) as (_ & _ & Hbody & _).
  destruct (handleAmpersand_strips_one ["ls"]%string 2) as (_ & _ & Hbody' & Hother).
  split; [apply (Hbody "5"%string); discriminate |].
  split; [apply (Hbody' "&"%string); discriminate |].
  apply (Hother "-l"%string "l"%char); [reflexivity | discriminate].
Defined.

(** ** A line of the prompt *)

Lemma has_delim_app (delims a b : string) :
  has_delim delims (a ++ b) = has_delim delims a || has_delim delims b.
Proof.
  induction a as [|x a IH]; [reflexivity |].
  rewrite string_app_cons. simpl. now rewrite IH, orb_assoc.
Qed.

Lemma drop_last_char_length (s : string) :
  String.length (drop_last_char s) = (String.length s - 1)%nat.
Proof.
  induction s as [|x s IH]; [reflexivity |].
  destruct s as [|y s]; [reflexivity |].
  cbn [drop_last_char String.length] in *. rewrite IH. lia.
Qed.

Lemma list_snoc_cases {A} (l : list A) :
  l = [] ∨ ∃ init x, l = init ++ [x].
Proof.
  induction l as [|a l IH] using rev_ind; [now left |].
  right. now exists l, a.
Qed.

(** [handleAmpersand] on tokens as [tokenize] returns them, at least one
    of them: no read outside an object, tokens of the same kind, the
    count kept right. *)
Lemma handleAmpersand_facts (tokens : list string) :
  tokens ≠ [] → Z.of_nat (length tokens) ≤ INT_MAX →
  Forall (λ t, t ≠ EmptyString ∧ has_delim " " t = false) tokens →
  ∃ bg tokens1,
    handleAmpersand tokens (Z.of_nat (length tokens))
    = Some (bg, tokens1, Z.of_nat (length tokens1))
    ∧ Forall (λ t, t ≠ EmptyString ∧ has_delim " " t = false) tokens1
    ∧ (bg = 0 ∨ bg = 1)
    ∧ (length tokens1 <= length tokens)%nat.
Proof.
  intros Hne Hmax Hall.
  destruct (list_snoc_cases tokens) as [->|(init & lastToken & ->)]; [congruence |].
  apply Forall_app in Hall as [Hinit Hlast].
  inversion Hlast as [|? ? [Hl Hd] _]; subst.
  rewrite length_app in *. cbn [length] in *.
  unfold handleAmpersand. rewrite last_snoc, removelast_last.
  destruct (String.eqb lastToken "&") eqn:Eamp.
  - exists 1, init. rewrite wrap_int_small by (unfold INT_MAX in *; lia).
    split; [do 2 f_equal; lia |]. split; [exact Hinit |]. split; [now right | lia].
  - destruct (last_char lastToken) as [c|] eqn:Ec;
      [|apply last_char_none in Ec; congruence].
    destruct (Ascii.eqb c "&") eqn:Ecamp.
    + exists 1, (init ++ [drop_last_char lastToken]).
      rewrite length_app. cbn [length].
      split; [reflexivity |]. split; [|split; [now right | lia]].
      apply Forall_app. split; [exact Hinit |]. constructor; [|constructor].
      pose proof (last_char_split _ _ Ec) as Hsplit.
      apply Ascii.eqb_eq in Ecamp. subst c. split.
      * intros Hempty. rewrite Hempty in Hsplit.
        apply String.eqb_neq in Eamp. now apply Eamp.
      * rewrite Hsplit, has_delim_app in Hd. now apply orb_false_elim in Hd as [-> _].
    + exists 0, (init ++ [lastToken]). rewrite length_app. cbn [length].
      split; [reflexivity |]. split; [|split; [now left | lia]].
      apply Forall_app. split; [exact Hinit | exact Hlast].
Qed.

Lemma parseLine_cases (input : string) :
  (1 <= String.length input)%nat → Z.of_nat (String.length input) < INT_MAX →
  (String.length input = 1%nat ∧ parseLine input = Some EmptyLine)
  ∨ ((1 < String.length input)%nat
     ∧ only_delims first_delims (drop_last_char input) = true
     ∧ parseLine input = None)
  ∨ ((1 < String.length input)%nat
     ∧ only_delims first_delims (drop_last_char input) = false
     ∧ (parseLine input = Some EmptyLine
        ∨ ∃ tokens bg cap,
            parseLine input = Some (Command tokens bg cap)
            ∧ tokens ≠ []
            ∧ Forall (λ t, t ≠ EmptyString ∧ has_delim " " t = false) tokens
            ∧ Z.of_nat (length tokens) < cap
            ∧ (bg = 0 ∨ bg = 1))).
Proof.
  intros Hone Hmax. unfold parseLine.
  destruct (Z.of_nat (String.length input) - 1 =? 0) eqn:E0.
  { left. apply Z.eqb_eq in E0. split; [lia | reflexivity]. }
  apply Z.eqb_neq in E0. right.
  destruct (tokenize_facts (drop_last_char input))
    as (tokens & -> & Hall & Hnil & Hcount).
  { rewrite drop_last_char_length. lia. }
  rewrite drop_last_char_length in Hcount.
  assert (Hlen : Z.of_nat (length tokens) < INT_MAX) by lia.
  destruct (only_delims first_delims (drop_last_char input)) eqn:Eo.
  - left. split; [lia |]. split; [reflexivity |].
    rewrite (proj2 Hnil eq_refl). reflexivity.
  - right. split; [lia |]. split; [reflexivity |].
    assert (Hne : tokens ≠ []) by (intros Ht; apply Hnil in Ht; discriminate).
    destruct (handleAmpersand_facts tokens Hne ltac:(lia) Hall)
      as (bg & tokens1 & -> & Hall1 & Hbg & Hle).
    destruct (Z.of_nat (length tokens1) =? 0) eqn:E1; [now left |].
    apply Z.eqb_neq in E1. right.
    exists tokens1, bg,
      (if Z.of_nat (length tokens1) =? Z.max 1 (Z.of_nat (length tokens))
       then wrap_int (Z.max 1 (Z.of_nat (length tokens)) + 1)
       else Z.max 1 (Z.of_nat (length tokens))).
    split; [reflexivity |].
    split; [intros ->; simpl in E1; lia |].
    split; [exact Hall1 |]. split; [|exact Hbg].
    destruct (Z.of_nat (length tokens1) =? Z.max 1 (Z.of_nat (length tokens))) eqn:E2.
    + apply Z.eqb_eq in E2. rewrite wrap_int_small; unfold INT_MAX in *; lia.
    + apply Z.eqb_neq in E2. lia.
Qed.

Lemma c_string_length (buffer : string) :
  (String.length (c_string buffer) <= String.length buffer)%nat.
Proof.
  induction buffer as [|c rest IH]; [reflexivity |].
  cbn [c_string]. destruct (Ascii.eqb c Ascii.zero); cbn [String.length]; lia.
Qed.

(** On a line without null character [readLine] is [parseLine]. *)
Lemma readLine_parseLine (input : string) :
  c_string (drop_last_char input) = drop_last_char input →
  readLine input = parseLine input.
Proof. intros Hc. unfold readLine, parseLine. now rewrite Hc. Qed.

Lemma readLine_cases (buffer : string) :
  (1 < String.length buffer)%nat → Z.of_nat (String.length buffer) < INT_MAX →
  (only_delims first_delims (c_string (drop_last_char buffer)) = true
   ∧ readLine buffer = None)
  ∨ (only_delims first_delims (c_string (drop_last_char buffer)) = false
     ∧ readLine buffer ≠ None).
Proof.
  intros Htwo Hmax. unfold readLine.
  destruct (Z.of_nat (String.length buffer) - 1 =? 0) eqn:E0;
    [apply Z.eqb_eq in E0; lia |].
  pose proof (c_string_length (drop_last_char buffer)) as Hc.
  rewrite drop_last_char_length in Hc.
  destruct (tokenize_facts (c_string (drop_last_char buffer)))
    as (tokens & -> & Hall & Hnil & Hcount); [lia |].
  destruct (only_delims first_delims (c_string (drop_last_char buffer))) eqn:Eo.
  - left. split; [reflexivity |]. now rewrite (proj2 Hnil eq_refl).
  - right. split; [reflexivity |].
    assert (Hne : tokens ≠ []) by (intros Ht; apply Hnil in Ht; discriminate).
    destruct (handleAmpersand_facts tokens Hne ltac:(lia) Hall)
      as (bg & tokens1 & -> & _).
    now destruct (Z.of_nat (length tokens1) =? 0).
Qed.

(** X5.  For any characters read by [getline], at least two and fewer
    than [INT_MAX], lines 138-162 read outside an object exactly when the
    C string left in the buffer, once the last character read is
    overwritten, holds nothing but blanks: the characters before the
    first null character (all of them when there is none) are spaces,
    tabs, carriage returns and newlines, or there is no such character,
    as for a line that begins with a null character.  [tokenize] then
    returns no token and [handleAmpersand], called before the test of
    line 151, looks at [tokens[-1]].  (A line of one character is an
    empty line and is skipped.) *)
Theorem readLine_blank_line (buffer : string) :
  (1 < String.length buffer)%nat → Z.of_nat (String.length buffer) < INT_MAX →
  readLine buffer = None
  ↔ only_delims first_delims (c_string (drop_last_char buffer)) = true.
Proof.
  intros Htwo Hmax.
  destruct (readLine_cases buffer Htwo Hmax) as [(Ho & Hp)|(Ho & Hp)].
  - split; auto.
  - rewrite Ho. split; [congruence | discriminate].
Qed.

Lemma readLine_blank_line_witness :
  readLine ("   " ++ nl) = None
  ∧ readLine (String Ascii.zero nl) = None
  ∧ readLine (String Ascii.zero ("ls" ++ nl)) = None
  ∧ readLine ("ls" ++ nl) ≠ None.
Proof.
  split; [|split; [|split]].
  - apply (readLine_blank_line ("   " ++ nl));
      [simpl; lia | unfold INT_MAX; simpl; lia | reflexivity].
  - apply (readLine_blank_line (String Ascii.zero nl));
      [simpl; lia | unfold INT_MAX; simpl; lia | reflexivity].
  - apply (readLine_blank_line (String Ascii.zero ("ls" ++ nl)));
      [simpl; lia | unfold INT_MAX; simpl; lia | reflexivity].
  - intros Hnone.
    apply (readLine_blank_line ("ls" ++ nl)) in Hnone;
      [discriminate | simpl; lia | unfold INT_MAX; simpl; lia].
Defined.

(** X6.  When lines 138-162 end with a command for a line shorter than
    [INT_MAX], there is at least one token, no token is empty or holds a
    space, the flag for the background is 0 or 1, and the array has more
    slots than tokens: [tokens[0]], [command[0]] and the null pointer of
    line 162 are inside their objects. *)
Theorem parseLine_command (input : string) tokens bg cap :
  (1 <= String.length input)%nat → Z.of_nat (String.length input) < INT_MAX →
  parseLine input = Some (Command tokens bg cap) →
  tokens ≠ []
  ∧ Forall (λ t, t ≠ EmptyString ∧ has_delim " " t = false) tokens
  ∧ Z.of_nat (length tokens) < cap
  ∧ (bg = 0 ∨ bg = 1).
Proof.
  intros Hone Hmax Hp.
  destruct (parseLine_cases input Hone Hmax)
    as [(_ & Hq)|[(_ & _ & Hq)|(_ & _ & [Hq|(t & b & c & Hq & Hrest)])]];
    rewrite Hq in Hp; try discriminate.
  now inversion Hp; subst.
Qed.

Lemma parseLine_command_witness :
  ["sleep"; "5"]%string ≠ []
  ∧ Forall (λ t, t ≠ EmptyString ∧ has_delim " " t = false) ["sleep"; "5"]%string
  ∧ Z.of_nat (length ["sleep"; "5"]%string) < 3
  ∧ (1 = 0 ∨ 1 = 1).
Proof.
  apply (parseLine_command ("sleep 5 &" ++ nl) ["sleep"; "5"]%string 1 3);
    [simpl; lia | unfold INT_MAX; simpl; lia | reflexivity].
Defined.

(** ** More on the registry *)

Section RegistryMore.
Context `{Platform}.

Lemma cleanUpJobs_loop_live (current : list job) :
  ∀ previous st,
    Forall (λ j, ¬ is_finished j) current →
    cleanUpJobs_loop previous current st = (previous ++ current, st).
Proof.
  induction current as [|c next IH]; intros previous st Hlive; simpl.
  - now rewrite app_nil_r.
  - inversion Hlive as [|? ? Hc Hnext]; subst. unfold is_finished in Hc.
    destruct (state c); simpl; try (exfalso; apply Hc; auto; fail);
      rewrite IH by exact Hnext; now rewrite <- app_assoc.
Qed.

Lemma cleanUpJobs_live (st : shell) :
  Forall (λ j, ¬ is_finished j) (jobList st) → cleanUpJobs st = st.
Proof.
  intros Hlive. unfold cleanUpJobs.
  rewrite cleanUpJobs_loop_live by exact Hlive. now destruct st.
Qed.

(** X7.  A cleanup pass on a registry without [COMPLETED] or
    [TERMINATED] job does nothing at all: no job is removed, nothing is
    printed, the counters and the blocked signals stay.  So a second pass
    straight after a first one changes nothing. *)
Theorem cleanUpJobs_idempotent (st : shell) :
  (Forall (λ j, ¬ is_finished j) (jobList st) → cleanUpJobs st = st)
  ∧ cleanUpJobs (cleanUpJobs st) = cleanUpJobs st.
Proof.
  split; [apply cleanUpJobs_live |].
  apply cleanUpJobs_live. rewrite cleanUpJobs_jobList.
  apply filter_not_finished_Forall.
Qed.

(** X8.  Along every run of the shell in which the number of jobs
    created fits an [int], the ids of the tracked jobs increase strictly
    along the registry (the order of the list is the order of the ids),
    so they are pairwise different; they lie between 1 and [nextJobId];
    and [activeJobs] is the number of tracked jobs. *)
Theorem tracked_ids_increase (ops : list op) :
  Z.of_nat (creations ops) ≤ INT_MAX →
  let st := exec ops initial in
  StronglySorted Z.lt (id <$> jobList st)
  ∧ NoDup (id <$> jobList st)
  ∧ Forall (λ j, 1 ≤ id j ≤ nextJobId st) (jobList st)
  ∧ activeJobs st = Z.of_nat (length (jobList st)).
Proof.
  intros Hn st.
  destruct (exec_registry_ok ops 0 initial registry_ok_initial)
    as (Hact & _ & _ & Hids & Hsorted); [lia |].
  fold st in Hact, Hids, Hsorted.
  split; [exact Hsorted |]. split; [|split; [|exact Hact]].
  - clear -Hsorted. induction Hsorted as [|k l _ IH Hall]; constructor; [|exact IH].
    intros Hin. rewrite Forall_forall in Hall. specialize (Hall k Hin). lia.
  - now rewrite Forall_fmap in Hids.
Qed.

(** X9.  The reaper changes nothing but the [state] and [termSig] of
    jobs: whatever [waitpid] answers, the registry keeps its jobs in
    their order with their id, command, display command, process group
    and background flag; the counters and the blocked signals are as
    before; and the handler prints nothing, frees nothing and sends no
    signal, its only calls being the polls of [waitpid]. *)
Theorem sigchldHandler_only_marks (replies : list (Z * Z)) (st : shell) :
  let st' := sigchldHandler replies st in
  fixed_fields <$> jobList st' = fixed_fields <$> jobList st
  ∧ nextJobId st' = nextJobId st
  ∧ activeJobs st' = activeJobs st
  ∧ sigmask st' = sigmask st
  ∧ trace_grows (λ e, e = EvWaitpid (-1) (Z.lor WUNTRACED WNOHANG) (sigmask st)) st st'.
Proof.
  revert st. induction replies as [|[pid status] rest IH]; intros st; cbn zeta.
  - simpl. repeat split. exists [EvWaitpid (-1) (Z.lor WUNTRACED WNOHANG) (sigmask st)].
    split; [reflexivity | repeat constructor].
  - cbn [sigchldHandler]. destruct (pid >? 0).
    2:{ simpl. repeat split.
        exists [EvWaitpid (-1) (Z.lor WUNTRACED WNOHANG) (sigmask st)].
        split; [reflexivity | repeat constructor]. }
    set (e := EvWaitpid (-1) (Z.lor WUNTRACED WNOHANG) (sigmask st)).
    specialize (IH (reap pid status (emit e st))). cbn zeta in IH.
    destruct IH as (Hf & Hn & Ha & Hm & (es & Ht & Hes)).
    destruct (reap_frame pid status (emit e st)) as (Rn & Ra & Rm & Rt & _).
    assert (Rf : fixed_fields <$> jobList (reap pid status (emit e st))
                 = fixed_fields <$> jobList st).
    { unfold reap, markJob. simpl.
      destruct (WIFEXITED status), (WIFSTOPPED status), (WIFSIGNALED status); simpl;
        repeat (match goal with
                | |- context [find_pgid ?p ?l] => destruct (find_pgid p l); simpl
                end);
        rewrite ?fmap_alter_same; try reflexivity;
        intros x; unfold mark; simpl; destruct (decide _); reflexivity. }
    rewrite Hf, Hn, Ha, Hm, Rf, Rn, Ra, Rm. repeat split.
    exists (e :: es). rewrite Ht, Rt. simpl. rewrite <- app_assoc.
    split; [reflexivity |]. constructor; [reflexivity |].
    rewrite Rm in Hes. exact Hes.
Qed.

(** X10.  No operation of the shell unblocks a signal that was blocked
    when it began: after a launch, a cleanup pass, a delivery of SIGCHLD
    or a built-in, every signal blocked before is still blocked.  So
    once SIGCHLD is blocked between two commands (as after a failed
    [fork]) it stays blocked through every later operation, and the
    handler never runs again: deliveries leave the state as it is. *)
Theorem blocked_signals_stay_blocked (ops : list op) (st : shell) :
  sigmask st ⊆ sigmask (exec ops st)
  ∧ (SIGCHLD ∈ sigmask st →
     ∀ replies, deliver_SIGCHLD replies (exec ops st) = exec ops st).
Proof.
  assert (Hstep : ∀ o s, sigmask s ⊆ sigmask (exec1 o s)).
  { intros o s. destruct o as [c a b os| |r|a os|a os|a os|n]; cbn [exec1].
    - destruct (Z.lt_trichotomy (fork_ret os) 0) as [Hf|[Hf|Hf]].
      + rewrite runCommand_fork_fails by exact Hf. apply union_subseteq_l.
      + now rewrite runCommand_child_mask.
      + destruct (runCommand_parent c (Z.of_nat (length a)) a b os s Hf)
          as (j & st6 & _ & _ & _ & _ & Hm & _ & ->).
        destruct (negb (b =? 0)); [reflexivity |].
        cbv zeta. destruct ((waitpid_ret os).1 <? 0); [|reflexivity].
        cbn [snd puts emit sigmask]. rewrite foreground_wait_events.
        cbn [emit_all sigmask]. rewrite Hm.
        etrans; [|apply union_subseteq_l]. apply union_subseteq_l.
    - now rewrite (proj2 (cleanUpJobs_frame s)).
    - unfold deliver_SIGCHLD. case_match; reflexivity.
    - unfold bg. repeat case_match; reflexivity.
    - now rewrite (proj2 (fg_waits a (Z.of_nat (length a)) os s)).
    - unfold killFunc. repeat case_match; reflexivity.
    - unfold jobs. case_match; [reflexivity |]. now rewrite printJobs_events. }
  assert (Hall : sigmask st ⊆ sigmask (exec ops st)).
  { revert st. induction ops as [|o ops IH]; intros st; simpl; [reflexivity |].
    etrans; [apply Hstep | apply IH]. }
  split; [exact Hall |].
  intros Hin replies. unfold deliver_SIGCHLD.
  rewrite decide_True; [reflexivity |]. now apply Hall.
Qed.

(** X11.  When a turn of the read loop ends and the loop goes on, with
    no signal delivered during the turn, no [COMPLETED] or [TERMINATED]
    job is left in the registry: whatever the command did, the cleanup
    pass at the end of the turn (or the one at its start, for a line
    without tokens) has removed them. *)
Theorem mainBody_leaves_live_jobs (tokens : list string) (bgProcess0 : Z)
    (os : os_replies) (st : shell) :
  (mainBody tokens bgProcess0 os st).1 = Continue →
  Forall (λ j, state j = RUNNING ∨ state j = STOPPED)
    (jobList (mainBody tokens bgProcess0 os st).2).
Proof.
  assert (Hclean : ∀ s, Forall (λ j, state j = RUNNING ∨ state j = STOPPED)
                          (jobList (cleanUpJobs s))).
  { intros s. rewrite cleanUpJobs_jobList.
    eapply Forall_impl; [apply filter_not_finished_Forall |].
    intros j. apply not_finished_live. }
  unfold mainBody. destruct tokens as [|t tokens]; [intros _; apply Hclean |].
  destruct (dispatch (t :: tokens) bgProcess0 os (cleanUpJobs st)) as [[| |] st2];
    simpl; try discriminate.
  intros _. apply Hclean.
Qed.

End RegistryMore.

Section RegistryMoreOnLinux.
#[local] Existing Instance Linux.platform.

Lemma cleanUpJobs_idempotent_witness :
  cleanUpJobs Linux.two_jobs = Linux.two_jobs.
Proof.
  apply (proj1 (cleanUpJobs_idempotent Linux.two_jobs)).
  vm_compute. repeat constructor; intros [?|?]; discriminate.
Defined.

Lemma tracked_ids_increase_witness :
  StronglySorted Z.lt (id <$> jobList (exec [Linux.sleep5; OpJobs 1; Linux.sleep9] initial)).
Proof.
  apply (tracked_ids_increase [Linux.sleep5; OpJobs 1; Linux.sleep9]).
  unfold INT_MAX. simpl. lia.
Defined.

Lemma blocked_signals_stay_blocked_witness :
  deliver_SIGCHLD [(100, 0)]
    (exec [Linux.sleep5] (sig_block {[SIGCHLD]} initial))
  = exec [Linux.sleep5] (sig_block {[SIGCHLD]} initial).
Proof.
  apply (blocked_signals_stay_blocked [Linux.sleep5] (sig_block {[SIGCHLD]} initial)).
  apply elem_of_union_r, elem_of_singleton_2. reflexivity.
Defined.

Lemma mainBody_leaves_live_jobs_witness :
  Forall (λ j, state j = RUNNING ∨ state j = STOPPED)
    (jobList (mainBody ["jobs"]%string 0 (Linux.replies 0 0)
                Linux.reaped_after_cleanup).2).
Proof.
  apply (mainBody_leaves_live_jobs ["jobs"]%string 0 (Linux.replies 0 0)
           Linux.reaped_after_cleanup).
  reflexivity.
Defined.

End RegistryMoreOnLinux.

(** ** What the built-ins never do *)

Lemma trace_grows_refl (P : event → Prop) (st : shell) : trace_grows P st st.
Proof. exists []. split; [now rewrite app_nil_r | constructor]. Qed.

Lemma trace_grows_emit (P : event → Prop) (e : event) (st st' : shell) :
  P e → trace_grows P st st' → trace_grows P st (emit e st').
Proof.
  intros He (es & Ht & Hes). exists (es ++ [e]). simpl. rewrite Ht, <- app_assoc.
  split; [reflexivity |]. apply Forall_app. split; [exact Hes | now constructor].
Qed.

Lemma trace_grows_emit_all (P : event → Prop) (es : list event) (st st' : shell) :
  Forall P es → trace_grows P st st' → trace_grows P st (emit_all es st').
Proof.
  intros He (es0 & Ht & Hes). exists (es0 ++ es). simpl. rewrite Ht, <- app_assoc.
  split; [reflexivity |]. apply Forall_app. now split.
Qed.

Lemma trace_grows_same_trace (P : event → Prop) (st st' st'' : shell) :
  trace st'' = trace st' → trace_grows P st st' → trace_grows P st st''.
Proof. intros Heq (es & Ht & Hes). exists es. now rewrite Heq. Qed.

Lemma trace_grows_puts (s : string) (st st' : shell) :
  trace_grows builtin_event st st' → trace_grows builtin_event st (puts s st').
Proof. apply trace_grows_emit. exact I. Qed.

Lemma trace_grows_printf (s : string) (st st' : shell) :
  trace_grows builtin_event st st' → trace_grows builtin_event st (printf s st').
Proof. apply trace_grows_emit. exact I. Qed.

Lemma trace_grows_modify_job P (i : nat) (f : job → job) (st st' : shell) :
  trace_grows P st st' → trace_grows P st (modify_job i f st').
Proof. now apply trace_grows_same_trace. Qed.

Lemma trace_grows_sig_setmask P (m : gset Z) (st st' : shell) :
  trace_grows P st st' → trace_grows P st (sig_setmask m st').
Proof. now apply trace_grows_same_trace. Qed.

Lemma trace_grows_sig_block P (m : gset Z) (st st' : shell) :
  trace_grows P st st' → trace_grows P st (sig_block m st').
Proof. now apply trace_grows_same_trace. Qed.

Lemma builtin_kill pg sig : builtin_event (EvKill pg sig).
Proof. exact I. Qed.
Lemma builtin_chdir d : builtin_event (EvChdir d).
Proof. exact I. Qed.
Lemma builtin_setenv n v : builtin_event (EvSetenv n v).
Proof. exact I. Qed.

#[local] Hint Resolve trace_grows_refl trace_grows_emit trace_grows_puts
  trace_grows_printf trace_grows_modify_job trace_grows_sig_setmask
  trace_grows_sig_block builtin_kill builtin_chdir builtin_setenv : frame.

Section BuiltinFrames.
Context `{Platform}.

Lemma trace_grows_record_status P (i : nat) (status : Z) (st st' : shell) :
  trace_grows P st st' → trace_grows P st (record_status i status st').
Proof.
  apply trace_grows_same_trace. apply record_status_trace.
Qed.

Lemma trace_grows_foreground_wait (pid : Z) (os : os_replies) (st st' : shell) :
  trace_grows builtin_event st st' →
  trace_grows builtin_event st (foreground_wait pid os st').
Proof.
  intros Hg. rewrite foreground_wait_events.
  apply trace_grows_emit_all; [|exact Hg]. repeat constructor.
Qed.

Lemma trace_grows_bg argv numTokens os (st : shell) :
  trace_grows builtin_event st (bg argv numTokens os st).
Proof. unfold bg. repeat case_match; auto 10 with frame. Qed.

Lemma trace_grows_fg argv numTokens os (st : shell) :
  trace_grows builtin_event st (fg argv numTokens os st).
Proof.
  unfold fg. repeat case_match; simplify_eq;
    auto 10 using trace_grows_record_status, trace_grows_foreground_wait with frame.
Qed.

Lemma trace_grows_killFunc argv numTokens os (st : shell) :
  trace_grows builtin_event st (killFunc argv numTokens os st).
Proof. unfold killFunc. repeat case_match; auto 10 with frame. Qed.

Lemma trace_grows_cd argv numTokens os (st : shell) :
  trace_grows builtin_event st (cd argv numTokens os st).
Proof. unfold cd. repeat case_match; auto 10 with frame. Qed.

Lemma same_ids_cd argv numTokens os (st : shell) :
  same_ids st (cd argv numTokens os st).
Proof. unfold cd. repeat case_match; auto 10 with frame. Qed.

Lemma listing_events_builtin (l : list job) :
  Forall builtin_event (flat_map listing_events l).
Proof.
  induction l as [|j l IH]; [constructor |].
  cbn [flat_map]. apply Forall_app. split; [|exact IH].
  unfold listing_events. destruct (state j), (bgProcess j =? 0); repeat constructor.
Qed.

Lemma trace_grows_jobs numTokens (st : shell) :
  trace_grows builtin_event st (jobs numTokens st).
Proof.
  unfold jobs. case_match; [auto with frame |].
  rewrite printJobs_events.
  apply trace_grows_emit_all; [apply listing_events_builtin | apply trace_grows_refl].
Qed.

Lemma sigmask_cd argv numTokens os (st : shell) :
  sigmask (cd argv numTokens os st) = sigmask st.
Proof. unfold cd. repeat case_match; reflexivity. Qed.

(** The branches of the read loop for the built-ins (lines 183-207). *)
Lemma dispatch_builtin (name : string) (args : list string) (bgProcess0 : Z)
    (os : os_replies) (st : shell) :
  name ∈ builtin_names →
  let tokens := name :: args in
  let n := Z.of_nat (length tokens) in
  let st1 := sig_block {[SIGCHLD]} st in
  dispatch tokens bgProcess0 os st
  = if String.eqb name "bg" then (Continue, sig_setmask (sigmask st) (bg tokens n os st1))
    else if String.eqb name "fg" then (Continue, sig_setmask (sigmask st) (fg tokens n os st1))
    else if String.eqb name "cd" then (Continue, cd tokens n os (sig_setmask (sigmask st) st1))
    else if String.eqb name "jobs" then (Continue, sig_setmask (sigmask st) (jobs n st1))
    else if String.eqb name "kill" then
      (Continue, sig_setmask (sigmask st) (killFunc tokens n os st1))
    else (Break, sig_setmask (sigmask st) st1).
Proof.
  intros Hin. unfold builtin_names in Hin.
  repeat (apply elem_of_cons in Hin as [->|Hin]); try reflexivity.
  inversion Hin.
Qed.

(** X12.  The built-in itself, that is lines 164-207 of a turn whose
    command is one of [bg], [fg], [cd], [jobs], [kill] and [exit]:
    what [main] does between the cleanup pass of line 136 and the one
    of line 242, and before it leaves the loop for [cleanUpShell].  In
    these lines the shell never forks, replaces or ends a process and
    frees no job: it only prints, calls [kill], hands the terminal over
    and back, waits and changes directory.  It creates and removes no
    job (the ids in the registry and both counters stay), the signals
    blocked after these lines are those blocked before them, and a
    trailing ampersand makes no difference.  The turn is made of the
    cleanup pass, these lines and, except for [exit], which leaves the
    loop at once, the second cleanup pass; so in a turn for a built-in
    jobs are removed and freed by the cleanup passes only. *)
Theorem builtins_start_no_process (name : string) (args : list string)
    (bgProcess0 : Z) (os : os_replies) (st : shell) :
  name ∈ builtin_names →
  let r := dispatch (name :: args) bgProcess0 os st in
  trace_grows builtin_event st r.2
  ∧ same_ids st r.2
  ∧ sigmask r.2 = sigmask st
  ∧ r.1 = (if String.eqb name "exit" then Break else Continue)
  ∧ r = dispatch (name :: args) 0 os st
  ∧ mainBody (name :: args) bgProcess0 os st
    = let r1 := dispatch (name :: args) bgProcess0 os (cleanUpJobs st) in
      if String.eqb name "exit" then (Break, r1.2)
      else (Continue, cleanUpJobs r1.2).
Proof.
  intros Hin r. subst r.
  assert (Hctl : ∀ s, (dispatch (name :: args) bgProcess0 os s).1
                      = if String.eqb name "exit" then Break else Continue).
  { intros s. rewrite (dispatch_builtin name args _ os s Hin).
    unfold builtin_names in Hin.
    repeat (apply elem_of_cons in Hin as [->|Hin]); try reflexivity.
    inversion Hin. }
  assert (Hturn : mainBody (name :: args) bgProcess0 os st
                  = let r1 := dispatch (name :: args) bgProcess0 os (cleanUpJobs st) in
                    if String.eqb name "exit" then (Break, r1.2)
                    else (Continue, cleanUpJobs r1.2)).
  { unfold mainBody. cbv zeta. specialize (Hctl (cleanUpJobs st)).
    destruct (dispatch (name :: args) bgProcess0 os (cleanUpJobs st)) as [ctl st2].
    cbn [fst snd] in *. subst ctl. now destruct (String.eqb name "exit"). }
  cbv zeta.
  split; [|split; [|split; [|split; [|split; [|exact Hturn]]]]]; clear Hctl Hturn;
    rewrite !(dispatch_builtin name args _ os st Hin); cbv zeta;
    [| | | |reflexivity].
  - repeat case_match; cbn [snd];
      first [ apply trace_grows_sig_setmask;
              first [ exact (trace_grows_bg _ _ _ (sig_block {[SIGCHLD]} st))
                    | exact (trace_grows_fg _ _ _ (sig_block {[SIGCHLD]} st))
                    | exact (trace_grows_jobs _ (sig_block {[SIGCHLD]} st))
                    | exact (trace_grows_killFunc _ _ _ (sig_block {[SIGCHLD]} st))
                    | apply trace_grows_sig_block, trace_grows_refl ]
            | exact (trace_grows_cd _ _ _ (sig_setmask (sigmask st) (sig_block {[SIGCHLD]} st))) ].
  - repeat case_match; cbn [snd];
      first [ apply same_ids_sig_setmask;
              first [ exact (same_ids_bg _ _ _ (sig_block {[SIGCHLD]} st))
                    | exact (same_ids_fg _ _ _ (sig_block {[SIGCHLD]} st))
                    | exact (same_ids_jobs _ (sig_block {[SIGCHLD]} st))
                    | exact (same_ids_killFunc _ _ _ (sig_block {[SIGCHLD]} st))
                    | apply same_ids_sig_block, same_ids_refl ]
            | exact (same_ids_cd _ _ _ (sig_setmask (sigmask st) (sig_block {[SIGCHLD]} st))) ].
  - repeat case_match; cbn [snd]; try reflexivity.
    exact (sigmask_cd _ _ _ (sig_setmask (sigmask st) (sig_block {[SIGCHLD]} st))).
  - unfold builtin_names in Hin.
    repeat (apply elem_of_cons in Hin as [->|Hin]); try reflexivity.
    inversion Hin.
Qed.

(** X13.  [kill] never changes the registry, the counters or the blocked
    signals, and its only calls are calls of [kill] and prints (it makes
    no wait): the state of the job is left to the reaper.  For one
    argument that is a percent sign and digits whose value, at most
    [INT_MAX], is the id of a tracked job, the one call made is
    [kill(pgid, SIGTERM)] for the first job with that id, a signal for
    the one process the shell forked for the job (its process id being
    positive), and a line is printed only when the call fails.  With
    another number of arguments, with an argument that is not a percent
    sign and digits only, or with one whose value, at most [INT_MAX], is
    the id of no tracked job, no call of [kill] is made.  A reference
    whose number does not fit an [int] is left out. *)
Theorem killFunc_only_signals (argv : list string) (numTokens : Z)
    (os : os_replies) (st : shell) :
  let st' := killFunc argv numTokens os st in
  let arg := nth 1 argv EmptyString in
  jobList st' = jobList st
  ∧ nextJobId st' = nextJobId st ∧ activeJobs st' = activeJobs st
  ∧ sigmask st' = sigmask st
  ∧ Forall (λ e, match e with EvKill _ _ | EvWrite _ => True | _ => False end)
      (new_events st st')
  ∧ (∀ digits i j, numTokens = 2 → arg = ("%" ++ digits)%string →
       all_digits digits = true → dec_value digits 0 ≤ INT_MAX →
       first_with_id (dec_value digits 0) (jobList st) i j →
       new_events st st'
       = EvKill (pgid j) SIGTERM
         :: (if kill_ret os (pgid j) SIGTERM <? 0
             then [EvWrite "kill: could not terminate job
"%string] else [])
       ∧ (0 < pgid j →
          signals_to (new_events st st') = [(OneProcess (pgid j), SIGTERM)]))
  ∧ ((numTokens ≠ 2 ∨ well_formed_ref arg = false
      ∨ ∃ digits, arg = ("%" ++ digits)%string ∧ all_digits digits = true
                  ∧ dec_value digits 0 ≤ INT_MAX
                  ∧ Forall (λ j, id j ≠ dec_value digits 0) (jobList st)) →
     signals_to (new_events st st') = []).
Proof.
  cbv zeta.
  split; [unfold killFunc; repeat case_match; reflexivity |].
  split; [unfold killFunc; repeat case_match; reflexivity |].
  split; [unfold killFunc; repeat case_match; reflexivity |].
  split; [unfold killFunc; repeat case_match; reflexivity |].
  split.
  { unfold killFunc; repeat case_match;
      erewrite new_events_app by (simpl; rewrite <- ?app_assoc; reflexivity);
      now repeat constructor. }
  split.
  - intros digits i j -> Harg Hd Hmax Hfirst.
    destruct (stringToJobId_value digits Hd Hmax) as [Hv Hjid].
    rewrite <- Harg in Hv, Hjid. rewrite <- Hv in Hfirst.
    assert (Hev : new_events st (killFunc argv 2 os st)
                  = EvKill (pgid j) SIGTERM
                    :: (if kill_ret os (pgid j) SIGTERM <? 0
                        then [EvWrite ("kill: could not terminate job" ++ nl)%string]
                        else [])).
    { unfold killFunc. simpl.
      apply Z.eqb_neq in Hjid. rewrite Hjid, (find_id_first _ _ _ _ Hfirst).
      apply new_events_app.
      destruct (kill_ret os (pgid j) SIGTERM <? 0); simpl; now rewrite <- ?app_assoc. }
    split; [exact Hev |].
    intros Hpos. rewrite Hev. cbn [signals_to]. unfold kill_recipient.
    apply Z.ltb_lt in Hpos. rewrite Hpos.
    now destruct (kill_ret os (pgid j) SIGTERM <? 0).
  - intros Hbad.
    assert (Hputs : ∀ s, signals_to (new_events st (puts s st)) = []).
    { intros s. now rewrite (new_events_app st _ [EvWrite (s ++ nl)%string]). }
    destruct (killFunc_errors argv numTokens os st) as (K1 & K2 & K3).
    destruct (Z.eq_dec numTokens 2) as [Hn|Hn]; [|rewrite (K1 Hn); apply Hputs].
    destruct Hbad as [Hb|[Hb|(digits & Harg & Hd & Hmax & Hno)]]; [congruence | |].
    + rewrite (K2 Hn (stringToJobId_malformed _ Hb)). apply Hputs.
    + destruct (stringToJobId_value digits Hd Hmax) as [Hv Hjid].
      rewrite <- Harg in Hv, Hjid. rewrite <- Hv in Hno.
      rewrite (K3 Hn Hjid Hno). apply Hputs.
Qed.

End BuiltinFrames.

Section BuiltinFramesOnLinux.
#[local] Existing Instance Linux.platform.

Lemma builtins_start_no_process_witness :
  trace_grows builtin_event Linux.two_jobs
    (dispatch ["fg"; "%2"]%string 1 (Linux.replies 101 0) Linux.two_jobs).2
  ∧ (dispatch ["exit"; "now"]%string 0 (Linux.replies 0 0) Linux.two_jobs).1 = Break.
Proof.
  destruct (builtins_start_no_process "fg" ["%2"]%string 1 (Linux.replies 101 0)
              Linux.two_jobs) as (Hg & _).
  { unfold builtin_names. do 1 apply list_elem_of_further. apply list_elem_of_here. }
  destruct (builtins_start_no_process "exit" ["now"]%string 0 (Linux.replies 0 0)
              Linux.two_jobs) as (_ & _ & _ & Hexit & _).
  { unfold builtin_names. do 5 apply list_elem_of_further. apply list_elem_of_here. }
  split; [exact Hg | exact Hexit].
Defined.

Lemma killFunc_only_signals_witness :
  new_events Linux.two_jobs
    (killFunc ["kill"; "%2"]%string 2 (Linux.replies 0 0) Linux.two_jobs)
  = [EvKill 101 15]
  ∧ signals_to
      (new_events Linux.two_jobs
         (killFunc ["kill"; "%2"]%string 2 (Linux.replies 0 0) Linux.two_jobs))
    = [(OneProcess 101, 15)]
  ∧ new_events Linux.two_jobs
      (killFunc ["kill"; "%2"]%string 2 (Linux.replies_kill_fails 0 0) Linux.two_jobs)
    = [EvKill 101 15; EvWrite "kill: could not terminate job
"%string]
  ∧ signals_to
      (new_events Linux.two_jobs
         (killFunc ["kill"; "%7"]%string 2 (Linux.replies 0 0) Linux.two_jobs))
    = [].
Proof.
  destruct (killFunc_only_signals ["kill"; "%2"]%string 2 (Linux.replies 0 0)
              Linux.two_jobs) as (_ & _ & _ & _ & _ & Hsend & _).
  destruct (killFunc_only_signals ["kill"; "%2"]%string 2
              (Linux.replies_kill_fails 0 0) Linux.two_jobs)
    as (_ & _ & _ & _ & _ & Hfail & _).
  destruct (killFunc_only_signals ["kill"; "%7"]%string 2 (Linux.replies 0 0)
              Linux.two_jobs) as (_ & _ & _ & _ & _ & _ & Hnone).
  destruct (Hsend "2"%string 1%nat _ eq_refl eq_refl eq_refl
              ltac:(unfold INT_MAX; simpl; lia) (two_jobs_second "kill"))
    as [Hev Hone].
  destruct (Hfail "2"%string 1%nat _ eq_refl eq_refl eq_refl
              ltac:(unfold INT_MAX; simpl; lia) (two_jobs_second "kill"))
    as [Hev' _].
  split; [rewrite Hev; reflexivity |].
  split; [rewrite Hone by (simpl; lia); reflexivity |].
  split; [rewrite Hev'; reflexivity |].
  apply Hnone. right. right. exists "7"%string.
  split; [reflexivity |]. split; [reflexivity |].
  split; [unfold INT_MAX; simpl; lia |].
  vm_compute. repeat constructor; discriminate.
Defined.

End BuiltinFramesOnLinux.

(** ** Launching a command *)

Lemma sig_setmask_sig_block (m : gset Z) (st : shell) :
  sig_setmask (sigmask st) (sig_block m st) = st.
Proof. now destruct st. Qed.

Section Launch.
Context `{Platform}.

Lemma createJob_addJob command0 originalCommand0 pgid0 state0 bgProcess0 (st : shell) :
  let j := Job (fresh_id st) command0 originalCommand0 pgid0 state0 bgProcess0 (-1) in
  (createJob command0 originalCommand0 pgid0 state0 bgProcess0 st).1 = j
  ∧ addJob j (createJob command0 originalCommand0 pgid0 state0 bgProcess0 st).2
    = Shell (jobList st ++ [j]) (fresh_id st) (wrap_int (activeJobs st + 1))
        (sigmask st) (trace st).
Proof.
  destruct st as [l n a m t]. unfold createJob, addJob, fresh_id.
  cbn [activeJobs]. destruct (a =? 0); destruct l; split; reflexivity.
Qed.

(** The job [runCommand] makes for the child [pid]. *)
Lemma runCommand_job command0 argc argv bgProcess0 os (st : shell) :
  0 < fork_ret os →
  let j := Job (fresh_id st) command0 (joinString argc argv) (fork_ret os) RUNNING
             (if bgProcess0 =? 0 then 0 else 1) (-1) in
  let st6 := Shell (jobList st ++ [j]) (fresh_id st) (wrap_int (activeJobs st + 1))
               (sigmask st ∪ {[SIGCHLD]} ∪ all_signals)
               (trace st ++ [EvFork; EvSetpgid (fork_ret os) (fork_ret os)]) in
  runCommand command0 argc argv bgProcess0 os st
  = if negb (bgProcess0 =? 0) then
      (Returned 0,
       sig_setmask (sigmask st)
         (printf ("[" ++ fmt_d (id j) ++ "] " ++ fmt_d (fork_ret os) ++ nl) st6))
    else
      let st7 := foreground_wait (fork_ret os) os st6 in
      if (waitpid_ret os).1 <? 0
      then (Returned (-1), puts (strerror_errno os) st7)
      else (Returned 0,
            sig_setmask (sigmask st)
              (record_status (length (jobList st)) (waitpid_ret os).2 st7)).
Proof.
  intros Hf. unfold runCommand.
  destruct (fork_ret os =? 0) eqn:E0; [apply Z.eqb_eq in E0; lia |].
  apply Z.gtb_lt in Hf. rewrite Hf. cbv beta iota zeta.
  set (st4 := emit (EvSetpgid _ _) _).
  assert (H4 : st4 = Shell (jobList st) (nextJobId st) (activeJobs st)
                       (sigmask st ∪ {[SIGCHLD]} ∪ all_signals)
                       (trace st ++ [EvFork; EvSetpgid (fork_ret os) (fork_ret os)])).
  { unfold st4, emit, sig_block, set_sigmask. simpl. now rewrite <- app_assoc. }
  assert (Hfresh : fresh_id st4 = fresh_id st) by now rewrite H4.
  destruct (bgProcess0 =? 0) eqn:Eb; cbn [negb].
  - destruct (createJob_addJob command0 (joinString argc argv) (fork_ret os) RUNNING 0 st4)
      as [Hj Hadd].
    destruct (createJob _ _ _ _ _ st4) as [j st5]. cbn [fst snd] in Hj, Hadd.
    subst j. rewrite Hadd, Hfresh. rewrite H4. cbn [jobList nextJobId activeJobs sigmask trace].
    rewrite length_app. cbn [length]. rewrite Nat.add_sub.
    destruct (waitpid_ret os) as [wpid status]. reflexivity.
  - destruct (createJob_addJob command0 (joinString argc argv) (fork_ret os) RUNNING 1 st4)
      as [Hj Hadd].
    destruct (createJob _ _ _ _ _ st4) as [j st5]. cbn [fst snd] in Hj, Hadd.
    subst j. rewrite Hadd, Hfresh. rewrite H4. cbn [jobList nextJobId activeJobs sigmask trace].
    reflexivity.
Qed.

(** X14.  A failed [fork] makes [runCommand] return -1 having created no
    job and printed nothing.  A background launch returns 0 without
    waiting and without touching the terminal: the new job, [RUNNING]
    and in the background, with the id [createJob] gives, the path run,
    the joined arguments as display command and the child as process
    group, is added at the tail of the registry, and the one line
    "[id] pid" is printed. *)
Theorem runCommand_background_launch command0 argc argv bgProcess0 os (st : shell) :
  let r := runCommand command0 argc argv bgProcess0 os st in
  (fork_ret os < 0 →
     r.1 = Returned (-1) ∧ same_ids st r.2 ∧ jobList r.2 = jobList st
     ∧ new_events st r.2 = [EvFork])
  ∧ (0 < fork_ret os → bgProcess0 ≠ 0 →
     r.1 = Returned 0
     ∧ jobList r.2
       = jobList st
         ++ [Job (fresh_id st) command0 (joinString argc argv) (fork_ret os)
               RUNNING 1 (-1)]
     ∧ new_events st r.2
       = [EvFork; EvSetpgid (fork_ret os) (fork_ret os);
          EvWrite ("[" ++ fmt_d (fresh_id st) ++ "] " ++ fmt_d (fork_ret os) ++ nl)%string]
     ∧ sigmask r.2 = sigmask st).
Proof.
  intros r. subst r. split.
  - intros Hf. rewrite runCommand_fork_fails by exact Hf. cbn [fst snd].
    split; [reflexivity |]. split; [now repeat split |]. split; [reflexivity |].
    now apply new_events_app.
  - intros Hf Hb. rewrite (runCommand_job command0 argc argv bgProcess0 os st Hf).
    cbv zeta. apply Z.eqb_neq in Hb. rewrite Hb. cbn [negb fst snd].
    split; [reflexivity |]. split; [reflexivity |]. split; [|reflexivity].
    apply new_events_app. simpl. now rewrite <- app_assoc.
Qed.

(** The registry after a foreground launch whose wait succeeds. *)
Lemma runCommand_foreground_result command0 argc argv os (st : shell) :
  0 < fork_ret os → 0 ≤ (waitpid_ret os).1 →
  let r := runCommand command0 argc argv 0 os st in
  let j := Job (fresh_id st) command0 (joinString argc argv) (fork_ret os)
             RUNNING 0 (-1) in
  let status := (waitpid_ret os).2 in
  r.1 = Returned 0 ∧ sigmask r.2 = sigmask st
  ∧ trace r.2
    = trace st ++ [EvFork; EvSetpgid (fork_ret os) (fork_ret os)]
      ++ wait_events (fork_ret os) os (sigmask st ∪ {[SIGCHLD]} ∪ all_signals)
  ∧ (WIFEXITED status = true →
     jobList r.2 = jobList st ++ [set_state COMPLETED j])
  ∧ (WIFSTOPPED status = true →
     jobList r.2 = jobList st ++ [set_state STOPPED j])
  ∧ (WIFSIGNALED status = true →
     jobList r.2
     = jobList st ++ [set_termSig (WTERMSIG status) (set_state TERMINATED j)]).
Proof.
  intros Hf Hw r j status.
  subst r. rewrite (runCommand_job command0 argc argv 0 os st Hf) in *.
  cbv zeta in *. cbn [Z.eqb negb] in *. apply Z.ltb_ge in Hw. rewrite Hw in *.
  cbn [fst snd] in *. fold j. fold status.
  set (st6 := Shell (jobList st ++ [j]) _ _ _ _) in *.
  split; [reflexivity |]. split; [reflexivity |].
  split.
  { cbn [trace sig_setmask set_sigmask].
    rewrite (proj1 (record_status_trace _ _ _)), foreground_wait_events.
    unfold st6. cbn [trace emit_all sigmask]. now rewrite <- app_assoc. }
  assert (Hat : jobList (foreground_wait (fork_ret os) os st6)
                !! length (jobList st) = Some j).
  { change (jobList (foreground_wait (fork_ret os) os st6)) with (jobList st ++ [j]).
    now apply list_lookup_middle. }
  assert (Hins : ∀ x, <[length (jobList st) := x]> (jobList st ++ [j]) = jobList st ++ [x]).
  { intros x. rewrite insert_app_r_alt by lia. now rewrite Nat.sub_diag. }
  destruct (record_status_matched _ _ status _ Hat) as (He & Hs & Hg).
  repeat split; intros Hst.
  - rewrite (He Hst). apply Hins.
  - rewrite (Hs Hst). apply Hins.
  - rewrite (Hg Hst). apply Hins.
Qed.

(** X15.  A foreground launch whose wait succeeds returns 0 with the
    blocked signals of the call; the new job, not in the background, is
    at the tail of the registry in the state the status tells:
    [COMPLETED] after a normal exit, [STOPPED] after a stop, [TERMINATED]
    with the signal recorded after a death by signal.  Nothing is
    printed by the launch itself. *)
Theorem runCommand_foreground_launch command0 argc argv os (st : shell) :
  0 < fork_ret os → 0 ≤ (waitpid_ret os).1 →
  let r := runCommand command0 argc argv 0 os st in
  let j := Job (fresh_id st) command0 (joinString argc argv) (fork_ret os)
             RUNNING 0 (-1) in
  let status := (waitpid_ret os).2 in
  r.1 = Returned 0 ∧ sigmask r.2 = sigmask st
  ∧ stdout (new_events st r.2) = EmptyString
  ∧ (WIFEXITED status = true →
     jobList r.2 = jobList st ++ [set_state COMPLETED j])
  ∧ (WIFSTOPPED status = true →
     jobList r.2 = jobList st ++ [set_state STOPPED j])
  ∧ (WIFSIGNALED status = true →
     jobList r.2
     = jobList st ++ [set_termSig (WTERMSIG status) (set_state TERMINATED j)]).
Proof.
  intros Hf Hw.
  destruct (runCommand_foreground_result command0 argc argv os st Hf Hw)
    as (Hr & Hm & Ht & He & Hs & Hg).
  cbv zeta. split; [exact Hr |]. split; [exact Hm |].
  split; [|split; [exact He | split; [exact Hs | exact Hg]]].
  now rewrite (new_events_app _ _ _ Ht).
Qed.

(** The command of a line that is not a built-in and does not look like
    a path: lines 199-222. *)
Lemma dispatch_external (tokens : list string) (bgProcess0 : Z)
    (os : os_replies) (st : shell) :
  let c := nth 0 tokens EmptyString in
  let n := Z.of_nat (length tokens) in
  looks_like_path c = false → c ∉ builtin_names →
  dispatch tokens bgProcess0 os st
  = if negb (fileExists_ret os ("/bin/" ++ c) =? 0) then
      after_run (runCommand ("/bin/" ++ c) n tokens bgProcess0 os st)
    else if negb (fileExists_ret os ("/usr/bin/" ++ c) =? 0) then
      after_run (runCommand ("/usr/bin/" ++ c) n tokens bgProcess0 os st)
    else (Continue, printf (c ++ ": command not found" ++ nl) st).
Proof.
  intros c n Hp Hnot. unfold dispatch. fold c. fold n. rewrite Hp.
  assert (Hne : ∀ name, name ∈ builtin_names → String.eqb c name = false).
  { intros name Hin. apply String.eqb_neq. intros ->. now apply Hnot. }
  unfold builtin_names in Hne.
  rewrite !Hne by (repeat first [apply list_elem_of_here | apply list_elem_of_further]).
  now rewrite sig_setmask_sig_block.
Qed.

(** X16.  How the read loop finds the program of a command that is not a
    built-in.  A name that begins with "." or "/" is run as it is when
    [fileExists] accepts it, and otherwise only "No such file or
    directory" is printed.  Any other name is looked for in /bin and
    then, only when it is not there, in /usr/bin, and is run from the
    first place where [fileExists] accepts it; when neither does, the
    line "name: command not found" is printed and nothing else is done:
    no process is made and the state is otherwise as before. *)
Theorem dispatch_finds_program (tokens : list string) (bgProcess0 : Z)
    (os : os_replies) (st : shell) :
  let c := nth 0 tokens EmptyString in
  let n := Z.of_nat (length tokens) in
  (looks_like_path c = true →
     (fileExists_ret os c ≠ 0 →
        dispatch tokens bgProcess0 os st
        = after_run (runCommand c n tokens bgProcess0 os st))
     ∧ (fileExists_ret os c = 0 →
        dispatch tokens bgProcess0 os st
        = (Continue, printf (c ++ ": No such file or directory" ++ nl) st)))
  ∧ (looks_like_path c = false → c ∉ builtin_names →
     (fileExists_ret os ("/bin/" ++ c) ≠ 0 →
        dispatch tokens bgProcess0 os st
        = after_run (runCommand ("/bin/" ++ c) n tokens bgProcess0 os st))
     ∧ (fileExists_ret os ("/bin/" ++ c) = 0 →
        fileExists_ret os ("/usr/bin/" ++ c) ≠ 0 →
        dispatch tokens bgProcess0 os st
        = after_run (runCommand ("/usr/bin/" ++ c) n tokens bgProcess0 os st))
     ∧ (fileExists_ret os ("/bin/" ++ c) = 0 →
        fileExists_ret os ("/usr/bin/" ++ c) = 0 →
        dispatch tokens bgProcess0 os st
        = (Continue, printf (c ++ ": command not found" ++ nl) st))).
Proof.
  intros c n. split.
  - intros Hp. unfold dispatch. fold c. fold n. rewrite Hp. split; intros Hf.
    + apply Z.eqb_neq in Hf. now rewrite Hf.
    + now rewrite Hf.
  - intros Hp Hnot.
    rewrite (dispatch_external tokens bgProcess0 os st Hp Hnot). fold c. fold n.
    split; [|split].
    + intros Hf. apply Z.eqb_neq in Hf. now rewrite Hf.
    + intros H0 Hf. apply Z.eqb_neq in Hf. now rewrite H0, Hf.
    + intros H0 H1. now rewrite H0, H1.
Qed.

End Launch.

Section LaunchOnLinux.
#[local] Existing Instance Linux.platform.

Lemma runCommand_background_launch_witness :
  new_events Linux.one_job
    (runCommand "/bin/sleep" 2 ["sleep"; "9"]%string 1 (Linux.replies 101 0)
       Linux.one_job).2
  = [EvFork; EvSetpgid 101 101; EvWrite ("[2] 101" ++ nl)%string]
  ∧ new_events Linux.one_job
      (runCommand "/bin/sleep" 2 ["sleep"; "9"]%string 1 (Linux.replies (-1) 0)
         Linux.one_job).2
    = [EvFork].
Proof.
  destruct (runCommand_background_launch "/bin/sleep" 2 ["sleep"; "9"]%string 1
              (Linux.replies 101 0) Linux.one_job) as (_ & Hbg).
  destruct (runCommand_background_launch "/bin/sleep" 2 ["sleep"; "9"]%string 1
              (Linux.replies (-1) 0) Linux.one_job) as (Hfail & _).
  split.
  - destruct Hbg as (_ & _ & -> & _); [simpl; lia | discriminate | reflexivity].
  - destruct Hfail as (_ & _ & _ & ->); [simpl; lia | reflexivity].
Defined.

Lemma runCommand_foreground_launch_witness :
  state <$> jobList (runCommand "/bin/sleep" 2 ["sleep"; "9"]%string 0
                       (Linux.replies 101 Linux.status_sigterm) Linux.one_job).2
  = [RUNNING; TERMINATED].
Proof.
  destruct (runCommand_foreground_launch "/bin/sleep" 2 ["sleep"; "9"]%string
              (Linux.replies 101 Linux.status_sigterm) Linux.one_job
              ltac:(simpl; lia) ltac:(simpl; lia)) as (_ & _ & _ & _ & _ & ->);
    reflexivity.
Defined.

Lemma dispatch_finds_program_witness :
  dispatch ["nosuch"]%string 0
    (OsReplies 0 None 0 "" (λ _ _, 0) (0, 0) 1 (λ p, p) (λ _, 0) None (λ _, 0))
    Linux.one_job
  = (Continue, printf ("nosuch: command not found" ++ nl) Linux.one_job).
Proof.
  destruct (dispatch_finds_program ["nosuch"]%string 0
              (OsReplies 0 None 0 "" (λ _ _, 0) (0, 0) 1 (λ p, p) (λ _, 0) None (λ _, 0))
              Linux.one_job) as (_ & Hname).
  destruct Hname as (_ & _ & Hnone).
  - reflexivity.
  - unfold builtin_names. intros Hin.
    repeat (apply elem_of_cons in Hin as [Hin|Hin]; [discriminate Hin |]).
    inversion Hin.
  - apply Hnone; reflexivity.
Defined.

End LaunchOnLinux.

(** ** Leaving the shell *)

Lemma emit_all_nil (st : shell) : emit_all [] st = st.
Proof. destruct st. unfold emit_all. simpl. now rewrite app_nil_r. Qed.

Lemma kills_app (es1 es2 : list event) : kills (es1 ++ es2) = kills es1 ++ kills es2.
Proof.
  induction es1 as [|e es1 IH]; [reflexivity |].
  destruct e; simpl; now rewrite ?IH.
Qed.

Lemma fold_freeJob (l : list job) :
  ∀ st, fold_left (λ s current, freeJob current s) l st = emit_all (EvFree <$> l) st.
Proof.
  induction l as [|c l IH]; intros st; simpl.
  - now rewrite emit_all_nil.
  - rewrite IH. change (freeJob c st) with (emit_all [EvFree c] st).
    now rewrite emit_all_emit_all.
Qed.

Section ShutdownFacts.
Context `{Platform}.
Variable SIGHUP : Z.

Lemma cleanUpShell_loop_events (os : os_replies) (current : list job) :
  ∀ st, cleanUpShell_loop SIGHUP current os st
        = emit_all (flat_map (shutdown_events SIGHUP os) current) st.
Proof.
  induction current as [|c next IH]; intros st.
  - simpl. now rewrite emit_all_nil.
  - cbn [cleanUpShell_loop flat_map]. unfold shutdown_events at 1.
    assert (Hputs : ∀ s es0, puts s (emit_all es0 st)
                             = emit_all (es0 ++ [EvWrite (s ++ nl)%string]) st).
    { intros s es0. unfold puts, emit, emit_all. simpl. now rewrite <- app_assoc. }
    change (emit (EvKill (pgid c) SIGHUP) st) with (emit_all [EvKill (pgid c) SIGHUP] st).
    change (emit (EvKill (pgid c) SIGCONT) (emit_all [EvKill (pgid c) SIGHUP] st))
      with (emit_all [EvKill (pgid c) SIGCONT] (emit_all [EvKill (pgid c) SIGHUP] st)).
    rewrite emit_all_emit_all, !Hputs.
    destruct (state c) eqn:Es; repeat case_decide; try congruence;
      repeat case_match; rewrite IH, ?emit_all_emit_all; try reflexivity.
    all: now rewrite <- (emit_all_nil st) at 1; rewrite emit_all_emit_all.
Qed.

(** X17.  Leaving the shell.  [cleanUpShell] goes through the registry
    once, from the head, and what it does about a job is this and
    nothing else: for a running job the call [kill(pgid, SIGHUP)]; for a
    stopped job the call [kill(pgid, SIGHUP)] and, when that call did
    not fail, the call [kill(pgid, SIGCONT)]; for a finished job
    nothing; after a call that fails the line "SIGHUP failed" or
    "SIGCONT failed" is printed and the loop goes on with the next job.
    A process id being positive, each of these signals is for the one
    process the shell forked for the job.  After the loop every job of
    the registry is freed once, in order, and the process exits with
    status 0: the registry is empty and SIGCHLD, blocked at the start,
    is blocked to the end. *)
Theorem cleanUpShell_hangs_up (os : os_replies) (st : shell) :
  let st' := cleanUpShell SIGHUP os st in
  new_events st st'
  = flat_map (shutdown_events SIGHUP os) (jobList st)
    ++ (EvFree <$> jobList st) ++ [EvExit 0]
  ∧ (∀ c, shutdown_events SIGHUP os c
          = match state c with
            | RUNNING =>
                EvKill (pgid c) SIGHUP
                :: (if kill_ret os (pgid c) SIGHUP <? 0
                    then [EvWrite "SIGHUP failed
"%string] else [])
            | STOPPED =>
                EvKill (pgid c) SIGHUP
                :: (if kill_ret os (pgid c) SIGHUP <? 0
                    then [EvWrite "SIGHUP failed
"%string]
                    else EvKill (pgid c) SIGCONT
                         :: (if kill_ret os (pgid c) SIGCONT <? 0
                             then [EvWrite "SIGCONT failed
"%string] else []))
            | _ => []
            end)
  ∧ (Forall (λ c, 0 < pgid c) (jobList st) →
     Forall (λ r, ∃ pid, r.1 = OneProcess pid) (signals_to (new_events st st')))
  ∧ jobList st' = []
  ∧ SIGCHLD ∈ sigmask st'.
Proof.
  cbv zeta.
  assert (Hev : new_events st (cleanUpShell SIGHUP os st)
                = flat_map (shutdown_events SIGHUP os) (jobList st)
                  ++ (EvFree <$> jobList st) ++ [EvExit 0]).
  { unfold cleanUpShell, freeAllJobs.
    rewrite cleanUpShell_loop_events, fold_freeJob.
    apply new_events_app. simpl. now rewrite <- !app_assoc. }
  split; [exact Hev |]. split; [|split; [|split]].
  - intros c. unfold shutdown_events.
    destruct (state c); try reflexivity;
      destruct (kill_ret os (pgid c) SIGHUP <? 0); try reflexivity;
      destruct (kill_ret os (pgid c) SIGCONT <? 0); reflexivity.
  - intros Hpos. rewrite Hev. clear Hev.
    assert (Hfree : ∀ l : list job, signals_to ((EvFree <$> l) ++ [EvExit 0]) = []).
    { induction l as [|c l IH]; [reflexivity | exact IH]. }
    induction Hpos as [|c l Hc _ IH]; [cbn [flat_map app]; now rewrite Hfree |].
    cbn [flat_map]. rewrite <- app_assoc.
    assert (Hone : kill_recipient (pgid c) = OneProcess (pgid c)).
    { unfold kill_recipient. apply Z.ltb_lt in Hc. now rewrite Hc. }
    assert (Hrest : Forall (λ r, ∃ pid, r.1 = OneProcess pid)
                      (signals_to (flat_map (shutdown_events SIGHUP os) l
                                   ++ (EvFree <$> c :: l) ++ [EvExit 0]))).
    { rewrite fmap_cons.
      replace (signals_to (flat_map (shutdown_events SIGHUP os) l
                           ++ (EvFree c :: (EvFree <$> l)) ++ [EvExit 0]))
        with (signals_to (flat_map (shutdown_events SIGHUP os) l
                          ++ (EvFree <$> l) ++ [EvExit 0])); [exact IH |].
      clear. induction (flat_map (shutdown_events SIGHUP os) l) as [|e es IHes];
        [reflexivity |].
      destruct e; cbn [app signals_to]; now rewrite ?IHes. }
    unfold shutdown_events at 1.
    destruct (state c); try exact Hrest;
      repeat case_match; cbn [app signals_to]; rewrite Hone;
      repeat (constructor; [now eexists |]); exact Hrest.
  - reflexivity.
  - unfold cleanUpShell, freeAllJobs.
    rewrite cleanUpShell_loop_events, fold_freeJob. simpl.
    apply elem_of_union_r. now apply elem_of_singleton_2.
Qed.

End ShutdownFacts.

Section ShutdownOnLinux.
#[local] Existing Instance Linux.platform.

(** Leaving with a running job, process 100, and a stopped one, process
    101; SIGHUP is signal 1 and SIGCONT signal 18. *)
Lemma cleanUpShell_hangs_up_witness :
  new_events Linux.two_jobs (cleanUpShell 1 (Linux.replies 0 0) Linux.two_jobs)
  = [EvKill 100 1; EvKill 101 1; EvKill 101 18;
     EvFree (Job 1 "/bin/sleep" "sleep 5" 100 RUNNING 1 (-1));
     EvFree (Job 2 "/bin/sleep" "sleep 10" 101 STOPPED 0 (-1));
     EvExit 0]
  ∧ stdout (new_events Linux.two_jobs
              (cleanUpShell 1 (Linux.replies_kill_fails 0 0) Linux.two_jobs))
    = "SIGHUP failed
SIGHUP failed
"%string
  ∧ Forall (λ r, ∃ pid, r.1 = OneProcess pid)
      (signals_to
         (new_events Linux.two_jobs
            (cleanUpShell 1 (Linux.replies 0 0) Linux.two_jobs))).
Proof.
  destruct (cleanUpShell_hangs_up 1 (Linux.replies 0 0) Linux.two_jobs)
    as (Hev & _ & Hone & _).
  destruct (cleanUpShell_hangs_up 1 (Linux.replies_kill_fails 0 0) Linux.two_jobs)
    as (Hev' & _).
  split; [rewrite Hev; reflexivity |].
  split; [rewrite Hev'; reflexivity |].
  apply Hone.
  change (jobList Linux.two_jobs)
    with [Job 1 "/bin/sleep" "sleep 5" 100 RUNNING 1 (-1);
          Job 2 "/bin/sleep" "sleep 10" 101 STOPPED 0 (-1)].
  repeat constructor.
Defined.

End ShutdownOnLinux.

(** ** Job references and printed ids *)

Lemma all_digits_string_of_uint (d : Decimal.uint) :
  all_digits (NilEmpty.string_of_uint d) = true.
Proof. induction d; simpl; auto. Qed.

Lemma dec_value_of_uint_acc (d : Decimal.uint) :
  ∀ acc, dec_value (NilEmpty.string_of_uint d) (Z.pos acc)
         = Z.pos (Pos.of_uint_acc d acc).
Proof.
  induction d; intros acc; cbn [NilEmpty.string_of_uint dec_value Pos.of_uint_acc];
    [reflexivity | ..];
    rewrite <- IHd; f_equal; cbn [N_of_ascii N_of_digits Z.of_N]; simpl; lia.
Qed.

Lemma dec_value_of_uint (d : Decimal.uint) :
  dec_value (NilEmpty.string_of_uint d) 0 = Z.of_N (Pos.of_uint d).
Proof.
  induction d; cbn [NilEmpty.string_of_uint dec_value Pos.of_uint];
    [reflexivity | exact IHd | ..]; apply dec_value_of_uint_acc.
Qed.

(** What [printf("%d")] prints for a number that is not negative is made
    of digits, and its decimal value is the number. *)
Lemma fmt_d_digits (n : Z) :
  0 ≤ n → all_digits (fmt_d n) = true ∧ dec_value (fmt_d n) 0 = n.
Proof.
  intros Hn. unfold fmt_d. destruct n as [|p|p]; [split; reflexivity | | lia].
  cbn [Z.to_int NilEmpty.string_of_int]. split.
  - apply all_digits_string_of_uint.
  - now rewrite dec_value_of_uint, DecimalPos.Unsigned.of_to.
Qed.

Lemma stringToJobId_fmt_d (n : Z) :
  0 ≤ n ≤ INT_MAX → stringToJobId ("%" ++ fmt_d n) = n.
Proof.
  intros Hn. destruct (fmt_d_digits n) as [Hd Hv]; [lia |].
  rewrite stringToJobId_percent, stringToJobId_loop_value; [exact Hv | exact Hd | lia |].
  rewrite Hv. lia.
Qed.

(** X18.  The job reference is read as a decimal number: for digits
    whose value is at most [INT_MAX], [stringToJobId] of "%" followed by
    them is that value (leading zeros are accepted; a lone "%" is job
    0).  So the id that [jobs] and the launch line print with "%d",
    after a percent sign, is read back as the same id. *)
Theorem stringToJobId_reads_decimal :
  (∀ s, all_digits s = true → dec_value s 0 ≤ INT_MAX →
     stringToJobId ("%" ++ s) = dec_value s 0)
  ∧ (∀ n, 0 ≤ n ≤ INT_MAX → stringToJobId ("%" ++ fmt_d n) = n).
Proof.
  split.
  - intros s Hd Hmax. rewrite stringToJobId_percent.
    now apply stringToJobId_loop_value.
  - apply stringToJobId_fmt_d.
Qed.

Lemma stringToJobId_reads_decimal_witness :
  stringToJobId "%007" = 7 ∧ stringToJobId ("%" ++ fmt_d 2147483647) = 2147483647.
Proof.
  destruct stringToJobId_reads_decimal as [Hs Hn]. split.
  - apply (Hs "007"%string); [reflexivity | unfold INT_MAX; simpl; lia].
  - apply (Hn 2147483647). unfold INT_MAX. lia.
Defined.

(** ** A command line, typed *)

Lemma join_args_snoc (l : list string) (x : string) :
  l ≠ [] → join_args (l ++ [x]) = (join_args l ++ " " ++ x)%string.
Proof.
  induction l as [|a l IH]; [congruence |]. intros _.
  destruct l as [|b l].
  - reflexivity.
  - change ((a :: b :: l) ++ [x]) with (a :: (b :: l) ++ [x]).
    rewrite (join_args_cons a b l).
    change ((b :: l) ++ [x]) with (b :: l ++ [x]).
    rewrite (join_args_cons a b (l ++ [x])).
    change (b :: l ++ [x]) with ((b :: l) ++ [x]).
    rewrite IH by discriminate.
    now rewrite !string_app_assoc.
Qed.

Lemma join_args_snoc_app (init : list string) (t x : string) :
  join_args (init ++ [t ++ x]%string) = (join_args (init ++ [t]) ++ x)%string.
Proof.
  destruct init as [|a init]; [reflexivity |].
  rewrite !join_args_snoc by discriminate.
  now rewrite !string_app_assoc.
Qed.

Lemma tokenize_join (argv : list string) :
  Forall (λ t, t ≠ EmptyString ∧ has_delim " " t = false) argv →
  has_delim first_delims (hd EmptyString argv) = false →
  Z.of_nat (String.length (join_args argv)) < INT_MAX →
  tokenize (join_args argv)
  = Some (argv, Z.of_nat (length argv), Z.max 1 (Z.of_nat (length argv))).
Proof.
  intros Hall Hfirst Hmax.
  destruct (tokenize_facts (join_args argv) Hmax) as (tokens & Heq & _).
  assert (Hx : ∃ n c, tokenize (join_args argv) = Some (argv, n, c)).
  { destruct argv as [|a l]; [now exists 0, 1 |].
    inversion Hall as [|? ? [Ha Hd] Hrest]; subst. simpl in Hfirst.
    unfold tokenize. rewrite (strtok_join first_delims a l Ha Hfirst eq_refl).
    assert (Hne : Forall (λ t, t ≠ EmptyString) (a :: l)).
    { eapply Forall_impl; [exact Hall |]. simpl. tauto. }
    pose proof (join_args_length _ Hne) as Hlen.
    destruct (tokenize_loop_join l (String.length (join_args (a :: l))) a [] 0 1)
      as (n & c & ->); [cbn [length] in Hlen; lia | exact Hrest |].
    now exists n, c. }
  destruct Hx as (n & c & Hx). rewrite Hx in Heq. inversion Heq; subst.
  exact Hx.
Qed.

(** Lines 138-162 on a line made of tokens. *)
Lemma parseLine_join (tokens : list string) :
  tokens ≠ [] →
  Forall (λ t, t ≠ EmptyString ∧ has_delim " " t = false) tokens →
  has_delim first_delims (hd EmptyString tokens) = false →
  Z.of_nat (String.length (join_args tokens)) + 1 < INT_MAX →
  parseLine (join_args tokens ++ nl)
  = match handleAmpersand tokens (Z.of_nat (length tokens)) with
    | None => None
    | Some (bgProcess0, tokens1, numTokens1) =>
        if numTokens1 =? 0 then Some EmptyLine
        else Some (Command tokens1 bgProcess0
                     (if numTokens1 =? Z.of_nat (length tokens)
                      then Z.of_nat (length tokens) + 1
                      else Z.of_nat (length tokens)))
    end.
Proof.
  intros Hne Hall Hfirst Hmax. unfold parseLine.
  assert (Hnonempty : Forall (λ t, t ≠ EmptyString) tokens).
  { eapply Forall_impl; [exact Hall |]. simpl. tauto. }
  pose proof (join_args_length _ Hnonempty) as Hlen.
  assert (Hpos : (0 < length tokens)%nat) by (destruct tokens; [congruence | simpl; lia]).
  rewrite string_length_app. change (String.length nl) with 1%nat.
  destruct (Z.of_nat (String.length (join_args tokens) + 1) - 1 =? 0) eqn:E0;
    [apply Z.eqb_eq in E0; lia |].
  unfold nl at 1. rewrite drop_last_char_app.
  rewrite tokenize_join by (try assumption; lia).
  rewrite Z.max_r by lia.
  destruct (handleAmpersand tokens (Z.of_nat (length tokens)))
    as [[[bg tokens1] n1]|]; [|reflexivity].
  destruct (n1 =? 0); [reflexivity |].
  destruct (n1 =? Z.of_nat (length tokens)); [|reflexivity].
  rewrite wrap_int_small; [reflexivity |].
  assert (length tokens <= String.length (join_args tokens))%nat by exact Hlen.
  unfold INT_MAX in *. lia.
Qed.

Lemma handleAmpersand_snoc_amp (init : list string) (numTokens : Z) :
  handleAmpersand (init ++ ["&"%string]) numTokens
  = Some (1, init, wrap_int (numTokens - 1)).
Proof.
  unfold handleAmpersand. rewrite last_snoc. cbn [String.eqb Ascii.eqb Bool.eqb].
  now rewrite removelast_last.
Qed.

Lemma handleAmpersand_snoc_glued (init : list string) (body : string) (numTokens : Z) :
  body ≠ EmptyString →
  handleAmpersand (init ++ [(body ++ "&")%string]) numTokens
  = Some (1, init ++ [body], numTokens).
Proof.
  intros Hb. unfold handleAmpersand. rewrite last_snoc.
  assert (Hne : String.eqb (body ++ "&") "&" = false).
  { apply String.eqb_neq. intros Heq.
    apply (f_equal String.length) in Heq. rewrite string_length_app in Heq.
    destruct body; [congruence | simpl in Heq; lia]. }
  rewrite Hne, last_char_app. cbn [Ascii.eqb Bool.eqb].
  now rewrite removelast_last, drop_last_char_app.
Qed.

Lemma handleAmpersand_snoc_plain (init : list string) (t : string) (c : ascii)
    (numTokens : Z) :
  last_char t = Some c → c ≠ "&"%char →
  handleAmpersand (init ++ [t]) numTokens = Some (0, init ++ [t], numTokens).
Proof.
  intros Hc Hamp. unfold handleAmpersand. rewrite last_snoc.
  assert (Hne : String.eqb t "&" = false).
  { apply String.eqb_neq. intros ->. simpl in Hc. inversion Hc. congruence. }
  rewrite Hne, Hc.
  apply Ascii.eqb_neq in Hamp. now rewrite Hamp.
Qed.

Lemma parseLine_plain (init : list string) (t : string) (c : ascii) :
  Forall (λ t, t ≠ EmptyString ∧ has_delim " " t = false) (init ++ [t]) →
  has_delim first_delims (hd EmptyString (init ++ [t])) = false →
  Z.of_nat (String.length (join_args (init ++ [t]))) + 1 < INT_MAX →
  last_char t = Some c → c ≠ "&"%char →
  parseLine (join_args (init ++ [t]) ++ nl)
  = Some (Command (init ++ [t]) 0 (Z.of_nat (length (init ++ [t])) + 1)).
Proof.
  intros Hall Hfirst Hmax Hc Hamp.
  rewrite parseLine_join; try assumption; [|now destruct init].
  rewrite (handleAmpersand_snoc_plain init t c _ Hc Hamp).
  rewrite Z.eqb_refl.
  destruct (Z.of_nat (length (init ++ [t])) =? 0) eqn:E0; [|reflexivity].
  apply Z.eqb_eq in E0. rewrite length_app in E0. simpl in E0. lia.
Qed.

(** X19.  The three ways of typing a command.  Take arguments that are
    not empty and hold no space (the first one no tab, carriage return
    or newline either), the last of which does not end in "&".  Typed
    with single spaces and a newline, lines 138-162 give the arguments
    back, not for the background.  With " &" or with "&" right after the
    last argument they give the same arguments, for the background.  In
    each case the array has one slot more than there are arguments, for
    the null pointer of line 162. *)
Theorem parseLine_typed_command (init : list string) (t : string) (c : ascii) :
  let argv := init ++ [t] in
  let line := join_args argv in
  let slots := Z.of_nat (length argv) + 1 in
  Forall (λ t, t ≠ EmptyString ∧ has_delim " " t = false) argv →
  has_delim first_delims (hd EmptyString argv) = false →
  Z.of_nat (String.length line) + 3 < INT_MAX →
  last_char t = Some c → c ≠ "&"%char →
  parseLine (line ++ nl) = Some (Command argv 0 slots)
  ∧ parseLine (line ++ " &" ++ nl) = Some (Command argv 1 slots)
  ∧ parseLine (line ++ "&" ++ nl) = Some (Command argv 1 slots).
Proof.
  intros argv line slots Hall Hfirst Hmax Hc Hamp. subst line slots argv.
  assert (Hlen : length (init ++ [t]) = S (length init)).
  { rewrite length_app. simpl. lia. }
  assert (Ht : t ≠ EmptyString) by (intros ->; discriminate).
  assert (Hne : init ++ [t] ≠ []) by now destruct init.
  assert (Hjl : (length (init ++ [t]) <= String.length (join_args (init ++ [t])))%nat).
  { apply join_args_length. eapply Forall_impl; [exact Hall |]. simpl. tauto. }
  rewrite Hlen in Hjl.
  split; [|split].
  - apply (parseLine_plain init t c); try assumption. lia.
  - rewrite <- string_app_assoc.
    change (join_args (init ++ [t]) ++ " &")%string
      with (join_args (init ++ [t]) ++ " " ++ "&")%string.
    rewrite <- (join_args_snoc (init ++ [t]) "&" Hne).
    rewrite parseLine_join.
    + rewrite handleAmpersand_snoc_amp, (length_app (init ++ [t])), Hlen. cbn [length].
      rewrite wrap_int_small by (unfold INT_MAX in *; lia).
      replace (Z.of_nat (S (length init) + 1) - 1) with (Z.of_nat (S (length init))) by lia.
      destruct (Z.of_nat (S (length init)) =? 0) eqn:E0; [apply Z.eqb_eq in E0; lia |].
      destruct (Z.of_nat (S (length init)) =? Z.of_nat (S (length init) + 1)) eqn:E1;
        [apply Z.eqb_eq in E1; lia |].
      do 2 f_equal. lia.
    + now destruct (init ++ [t]).
    + apply Forall_app. split; [exact Hall |]. repeat constructor. discriminate.
    + destruct init; exact Hfirst.
    + rewrite (join_args_snoc _ _ Hne).
      rewrite !string_length_app. simpl. lia.
  - rewrite <- string_app_assoc.
    rewrite <- (join_args_snoc_app init t "&").
    apply Forall_app in Hall as [Hinit Hlast].
    inversion Hlast as [|? ? [_ Hd] _]; subst.
    rewrite parseLine_join.
    + rewrite (handleAmpersand_snoc_glued init t _ Ht), !length_app. cbn [length].
      rewrite Z.eqb_refl.
      destruct (Z.of_nat (length init + 1) =? 0) eqn:E0; [apply Z.eqb_eq in E0; lia |].
      reflexivity.
    + now destruct init.
    + apply Forall_app. split; [exact Hinit |]. repeat constructor.
      * intros Heq. destruct t; discriminate.
      * rewrite has_delim_app, Hd. reflexivity.
    + destruct init as [|a init]; [|exact Hfirst].
      simpl in *. rewrite has_delim_app, Hfirst. reflexivity.
    + rewrite join_args_snoc_app, string_length_app. simpl. lia.
Qed.

Lemma parseLine_typed_command_witness :
  parseLine ("sleep 5" ++ nl) = Some (Command ["sleep"; "5"]%string 0 3)
  ∧ parseLine ("sleep 5 &" ++ nl) = Some (Command ["sleep"; "5"]%string 1 3)
  ∧ parseLine ("sleep 5&" ++ nl) = Some (Command ["sleep"; "5"]%string 1 3).
Proof.
  apply (parseLine_typed_command ["sleep"]%string "5" "5").
  - repeat constructor; discriminate.
  - reflexivity.
  - unfold INT_MAX. simpl. lia.
  - reflexivity.
  - discriminate.
Defined.

(** ** From the prompt to the job *)

Lemma nb_digits_double (d : Decimal.uint) :
  (Decimal.nb_digits (Decimal.Little.double d) <= S (Decimal.nb_digits d))%nat
  ∧ (Decimal.nb_digits (Decimal.Little.succ_double d) <= S (Decimal.nb_digits d))%nat.
Proof. induction d; simpl; lia. Qed.

Lemma nb_digits_to_little_uint (p : positive) :
  (Decimal.nb_digits (Pos.to_little_uint p) <= Pos.size_nat p)%nat.
Proof.
  induction p as [p IH|p IH|]; simpl; [| |lia].
  - pose proof (proj2 (nb_digits_double (Pos.to_little_uint p))). lia.
  - pose proof (proj1 (nb_digits_double (Pos.to_little_uint p))). lia.
Qed.

Lemma size_nat_bound (p : positive) :
  ∀ n : nat, Z.pos p < 2 ^ Z.of_nat n → (Pos.size_nat p <= n)%nat.
Proof.
  induction p as [p IH|p IH|]; intros [|n] Hp;
    try (change (2 ^ Z.of_nat 0) with 1 in Hp; lia);
    rewrite Nat2Z.inj_succ, Z.pow_succ_r in Hp by lia; simpl.
  - apply le_n_S, IH. lia.
  - apply le_n_S, IH. lia.
  - lia.
Qed.

Lemma string_of_uint_length (d : Decimal.uint) :
  String.length (NilEmpty.string_of_uint d) = Decimal.nb_digits d.
Proof. induction d; simpl; congruence. Qed.

(** [printf("%d")] of an [int] that is not negative prints few
    characters. *)
Lemma fmt_d_length (n : Z) :
  0 ≤ n ≤ INT_MAX → (String.length (fmt_d n) <= 31)%nat.
Proof.
  intros Hn. unfold fmt_d. destruct n as [|p|p]; [simpl; lia | | lia].
  cbn [Z.to_int NilEmpty.string_of_int].
  rewrite string_of_uint_length. unfold Pos.to_uint.
  rewrite DecimalFacts.nb_digits_rev.
  etransitivity; [apply nb_digits_to_little_uint |].
  apply size_nat_bound. unfold INT_MAX in Hn. simpl. lia.
Qed.

Lemma isdigit_not_delim (c : ascii) :
  isdigit c = true →
  is_delim first_delims c = false ∧ is_delim " " c = false ∧ c ≠ "&"%char.
Proof.
  destruct c as [[] [] [] [] [] [] [] []]; try discriminate;
    intros _; repeat split; discriminate.
Qed.

Lemma all_digits_no_delim (s : string) :
  all_digits s = true →
  has_delim first_delims s = false ∧ has_delim " " s = false.
Proof.
  induction s as [|c rest IH]; [easy |]. cbn [all_digits has_delim].
  intros Hd. apply andb_prop in Hd as [Hc Hrest].
  destruct (isdigit_not_delim c Hc) as (-> & -> & _). now apply IH.
Qed.

Lemma last_char_digits (s : string) :
  ∀ x, all_digits s = true → x ≠ "&"%char →
    ∃ c, last_char (String x s) = Some c ∧ c ≠ "&"%char.
Proof.
  induction s as [|y rest IH]; intros x Hd Hx.
  - now exists x.
  - cbn [all_digits] in Hd. apply andb_prop in Hd as [Hy Hrest].
    destruct (IH y Hrest) as (c & Hc & Hamp); [apply (isdigit_not_delim y Hy) |].
    exists c. split; [|exact Hamp]. exact Hc.
Qed.

Lemma all_digits_c_string (s : string) : all_digits s = true → c_string s = s.
Proof.
  induction s as [|c rest IH]; [reflexivity |]. cbn [all_digits c_string].
  intros Hd. apply andb_prop in Hd as [Hc Hrest]. rewrite (IH Hrest).
  destruct c as [[] [] [] [] [] [] [] []]; try discriminate; reflexivity.
Qed.

Lemma signals_to_kills (es : list event) :
  signals_to es = (λ k, (kill_recipient k.1, k.2)) <$> kills es.
Proof.
  induction es as [|e es IH]; [reflexivity |].
  destruct e; cbn [signals_to kills]; rewrite ?fmap_cons, IH; reflexivity.
Qed.

(** The line "name %digits" is read as the command [name] with the job
    reference as its one argument. *)
Lemma parseLine_job_reference (name s : string) :
  name ≠ EmptyString → has_delim first_delims name = false →
  all_digits s = true →
  Z.of_nat (String.length name + String.length s) + 3 < INT_MAX →
  parseLine (name ++ " %" ++ s ++ nl)
  = Some (Command [name; ("%" ++ s)%string] 0 3).
Proof.
  intros Hname Hnd Hd Hlen.
  destruct (all_digits_no_delim s Hd) as [Hs1 Hs2].
  destruct (last_char_digits s "%" Hd) as (c & Hc & Hamp); [discriminate |].
  assert (Hjoin : (name ++ " %" ++ s ++ nl)%string
                  = (join_args ([name] ++ [("%" ++ s)%string]) ++ nl)%string).
  { cbn [app join_args]. now rewrite !string_app_assoc. }
  rewrite Hjoin.
  apply (parseLine_plain [name] ("%" ++ s)%string c).
  - repeat constructor; try assumption; try discriminate.
    now apply has_delim_later_of_first.
  - exact Hnd.
  - cbn [app join_args]. rewrite !string_length_app. simpl. lia.
  - exact Hc.
  - exact Hamp.
Qed.

Lemma c_string_app (a b : string) :
  c_string a = a → c_string (a ++ b) = (a ++ c_string b)%string.
Proof.
  induction a as [|x a IH]; [reflexivity |].
  rewrite !string_app_cons. cbn [c_string].
  destruct (Ascii.eqb x Ascii.zero); [discriminate |].
  intros Ha. inversion Ha as [Ha']. now rewrite Ha', IH.
Qed.

(** The same for the characters [getline] has read. *)
Lemma readLine_job_reference (name s : string) :
  name ≠ EmptyString → c_string name = name →
  has_delim first_delims name = false →
  all_digits s = true →
  Z.of_nat (String.length name + String.length s) + 3 < INT_MAX →
  readLine (name ++ " %" ++ s ++ nl)
  = Some (Command [name; ("%" ++ s)%string] 0 3).
Proof.
  intros Hname Hnul Hnd Hd Hlen.
  rewrite readLine_parseLine; [now apply parseLine_job_reference |].
  replace (name ++ " %" ++ s ++ nl)%string
    with ((name ++ " %" ++ s) ++ String (ascii_of_nat 10) EmptyString)%string
    by (unfold nl; now rewrite !string_app_assoc).
  rewrite drop_last_char_app.
  rewrite c_string_app by exact Hnul.
  change (" %" ++ s)%string with (String " " (String "%" s)).
  cbn [c_string Ascii.eqb Bool.eqb]. now rewrite (all_digits_c_string s Hd).
Qed.

Lemma first_with_id_sorted (l : list job) :
  ∀ i j, StronglySorted Z.lt (id <$> l) → l !! i = Some j → first_with_id (id j) l i j.
Proof.
  induction l as [|c next IH]; intros i j Hsorted Hi; [discriminate |].
  rewrite fmap_cons in Hsorted. inversion Hsorted as [|? ? Hnext Hall]; subst.
  destruct i as [|i]; simpl in Hi.
  - inversion Hi; subst. repeat split. intros k j' Hk. lia.
  - destruct (IH i j Hnext Hi) as (_ & _ & Hbefore).
    repeat split; [exact Hi |].
    intros [|k] j' Hk Hj'; simpl in Hj'.
    + inversion Hj'; subst.
      rewrite Forall_fmap, Forall_forall in Hall.
      specialize (Hall j (list_elem_of_lookup_2 _ _ _ Hi)). simpl in Hall. lia.
    + apply (Hbefore k j'); [lia | exact Hj'].
Qed.

Lemma kills_cleanup_events (l : list job) : kills (flat_map cleanup_events l) = [].
Proof.
  induction l as [|c l IH]; [reflexivity |].
  cbn [flat_map]. rewrite kills_app, IH. unfold cleanup_events.
  repeat case_decide; reflexivity.
Qed.

Section PromptToJob.
Context `{Platform}.

(** X20.  From the prompt to the job, when no signal is delivered to the
    shell during the turn (a SIGCHLD that tells of the death of the job
    comes after it).  In a registry as the shell keeps it, take a job
    that is not finished, its process id positive.  The line "kill %"
    with the id of the job as [jobs] prints it makes one turn of the
    read loop that goes on and in which the only call of [kill] is
    [kill(pgid, SIGTERM)] for that job: SIGTERM for the one process the
    shell forked for the job and for nothing else.  At the end of the
    turn the registry holds the jobs that were not finished, this one
    among them: [kill] does not remove the job, the reaper and a later
    cleanup pass do.  The blocked signals are as before. *)
Theorem kill_line_signals_job (n : Z) (os : os_replies) (st : shell)
    (i : nat) (j : job) :
  registry_ok n st → n ≤ INT_MAX →
  jobList st !! i = Some j → ¬ is_finished j → 0 < pgid j →
  ∃ st',
    mainTurn ("kill %" ++ fmt_d (id j) ++ nl) os st = Some (Continue, st')
    ∧ kills (new_events st st') = [(pgid j, SIGTERM)]
    ∧ signals_to (new_events st st') = [(OneProcess (pgid j), SIGTERM)]
    ∧ jobList st' = filter (λ j, ¬ is_finished j) (jobList st)
    ∧ j ∈ jobList st'
    ∧ sigmask st' = sigmask st.
Proof.
  intros Hok Hn Hi Hlive Hpid.
  assert (Hid : 0 ≤ id j ≤ INT_MAX).
  { destruct Hok as (_ & _ & Hnext & Hids & _).
    rewrite Forall_fmap, Forall_forall in Hids.
    specialize (Hids j (list_elem_of_lookup_2 _ _ _ Hi)). simpl in Hids.
    unfold INT_MAX in *. lia. }
  pose proof (fmt_d_length (id j) Hid) as Hlen.
  destruct (fmt_d_digits (id j)) as [Hd _]; [lia |].
  unfold mainTurn.
  change ("kill %" ++ fmt_d (id j) ++ nl)%string
    with ("kill" ++ " %" ++ fmt_d (id j) ++ nl)%string.
  rewrite (readLine_job_reference "kill" (fmt_d (id j)));
    [| discriminate | reflexivity | reflexivity | exact Hd
     | unfold INT_MAX; simpl; lia].
  set (st1 := cleanUpJobs st).
  assert (Hok1 : registry_ok n st1) by now apply registry_ok_cleanUpJobs.
  assert (Hin : j ∈ jobList st1).
  { unfold st1. rewrite cleanUpJobs_jobList. apply list_elem_of_filter.
    split; [exact Hlive | exact (list_elem_of_lookup_2 _ _ _ Hi)]. }
  destruct (proj1 (list_elem_of_lookup _ _) Hin) as (i1 & Hi1).
  assert (Hfirst : first_with_id (id j) (jobList st1) i1 j).
  { apply first_with_id_sorted; [apply Hok1 | exact Hi1]. }
  assert (Hbody : mainBody ["kill"; "%" ++ fmt_d (id j)]%string 0 os st
                  = (Continue,
                     cleanUpJobs
                       (sig_setmask (sigmask st1)
                          (killFunc ["kill"; "%" ++ fmt_d (id j)]%string 2 os
                             (sig_block {[SIGCHLD]} st1))))) by reflexivity.
  rewrite Hbody. eexists. split; [reflexivity |].
  assert (Hkill : killFunc ["kill"; "%" ++ fmt_d (id j)]%string 2 os
                    (sig_block {[SIGCHLD]} st1)
                  = emit_all
                      (EvKill (pgid j) SIGTERM
                       :: (if kill_ret os (pgid j) SIGTERM <? 0
                           then [EvWrite ("kill: could not terminate job" ++ nl)%string]
                           else []))
                      (sig_block {[SIGCHLD]} st1)).
  { unfold killFunc. cbn [Z.eqb Pos.eqb negb nth].
    rewrite (stringToJobId_fmt_d (id j) Hid).
    destruct (id j =? -1) eqn:E; [apply Z.eqb_eq in E; lia |].
    change (jobList (sig_block {[SIGCHLD]} st1)) with (jobList st1).
    rewrite (find_id_first _ _ _ _ Hfirst).
    destruct (kill_ret os (pgid j) SIGTERM <? 0);
      unfold puts, emit, emit_all; simpl; now rewrite <- ?app_assoc. }
  rewrite Hkill.
  set (es := EvKill (pgid j) SIGTERM :: _).
  assert (Hl1 : Forall (λ j, ¬ is_finished j) (jobList st1)).
  { unfold st1. rewrite cleanUpJobs_jobList. apply filter_not_finished_Forall. }
  rewrite cleanUpJobs_live by exact Hl1.
  assert (Hkills : kills (new_events st
                            (emit_all es (sig_block {[SIGCHLD]} st1)))
                   = [(pgid j, SIGTERM)]).
  { rewrite (new_events_app st _ (flat_map cleanup_events (jobList st) ++ es)).
    + rewrite kills_app, kills_cleanup_events. unfold es.
      now destruct (kill_ret os (pgid j) SIGTERM <? 0).
    + simpl. unfold st1. rewrite cleanUpJobs_trace. now rewrite <- app_assoc. }
  split; [|split; [|split; [|split]]].
  - exact Hkills.
  - rewrite signals_to_kills.
    change (new_events st (sig_setmask (sigmask st1)
                             (emit_all es (sig_block {[SIGCHLD]} st1))))
      with (new_events st (emit_all es (sig_block {[SIGCHLD]} st1))).
    rewrite Hkills. cbn [fmap list_fmap fst snd]. unfold kill_recipient.
    apply Z.ltb_lt in Hpid. now rewrite Hpid.
  - simpl. unfold st1. apply cleanUpJobs_jobList.
  - exact Hin.
  - simpl. unfold st1. apply cleanUpJobs_frame.
Qed.

End PromptToJob.

Section PromptToJobOnLinux.
#[local] Existing Instance Linux.platform.

Lemma kill_line_signals_job_witness :
  ∃ st',
    mainTurn ("kill %" ++ fmt_d 2 ++ nl) (Linux.replies 101 0) Linux.two_jobs
    = Some (Continue, st')
    ∧ kills (new_events Linux.two_jobs st') = [(101, SIGTERM)]
    ∧ signals_to (new_events Linux.two_jobs st') = [(OneProcess 101, SIGTERM)]
    ∧ jobList st' = filter (λ j, ¬ is_finished j) (jobList Linux.two_jobs)
    ∧ Job 2 "/bin/sleep" "sleep 10" 101 STOPPED 0 (-1) ∈ jobList st'
    ∧ sigmask st' = sigmask Linux.two_jobs.
Proof.
  apply (kill_line_signals_job 2 (Linux.replies 101 0) Linux.two_jobs 1
           (Job 2 "/bin/sleep" "sleep 10" 101 STOPPED 0 (-1))).
  - unfold registry_ok.
    change (jobList Linux.two_jobs)
      with [Job 1 "/bin/sleep" "sleep 5" 100 RUNNING 1 (-1);
            Job 2 "/bin/sleep" "sleep 10" 101 STOPPED 0 (-1)].
    change (activeJobs Linux.two_jobs) with 2.
    change (nextJobId Linux.two_jobs) with 2.
    simpl. repeat split; try lia; repeat constructor; simpl; lia.
  - unfold INT_MAX. lia.
  - reflexivity.
  - unfold is_finished. simpl. intros [?|?]; discriminate.
  - simpl. lia.
Defined.

End PromptToJobOnLinux.

(** ** A foreground command, from the line to the next prompt *)


Section ForegroundTurn.
Context `{Platform}.


End ForegroundTurn.

Section ForegroundTurnOnLinux.
#[local] Existing Instance Linux.platform.


End ForegroundTurnOnLinux.

(** ** The forked child *)

Section Child.
Context `{Platform}.

(** X22.  In the forked child ([fork] has returned 0) [runCommand] never
    comes back to the read loop, given that [execv] returns only when it
    has failed.  The child takes the blocked signals of the call again,
    makes a process group of its own and calls [execv] once with the
    path and the arguments; when that fails it exits with [errno],
    having printed "No such file or directory" only when the first
    argument begins with "." or "/".  It changes nothing in its copy of
    the registry, sends no signal and waits for nothing. *)
Theorem runCommand_child_never_returns command0 argc argv bgProcess0 os (st : shell) :
  fork_ret os = 0 → execv_ret os ≠ Some 0 →
  let r := runCommand command0 argc argv bgProcess0 os st in
  after_run r = (Gone, r.2)
  ∧ jobList r.2 = jobList st ∧ same_ids st r.2 ∧ sigmask r.2 = sigmask st
  ∧ new_events st r.2
    = [EvFork; EvSetpgid 0 0; EvExecv command0 argv]
      ++ match execv_ret os with
         | None => []
         | Some _ =>
             (if looks_like_path (nth 0 argv EmptyString)
              then [EvWrite (command0 ++ ": No such file or directory" ++ nl)%string]
              else [])
             ++ [EvExit (errno os)]
         end.
Proof.
  intros Hf Hx. cbv zeta.
  split; [|split; [|split; [|split]]].
  - unfold after_run, runCommand. rewrite Hf. cbn [Z.eqb].
    destruct (execv_ret os) as [r|]; [|reflexivity].
    destruct (r =? 0) eqn:E; [apply Z.eqb_eq in E; congruence | reflexivity].
  - unfold runCommand. rewrite Hf. cbn [Z.eqb].
    repeat case_match; reflexivity.
  - apply runCommand_no_job. lia.
  - now apply runCommand_child_mask.
  - apply new_events_app. unfold runCommand. rewrite Hf. cbn [Z.eqb].
    destruct (execv_ret os) as [r|]; [|simpl; now rewrite <- !app_assoc].
    destruct (r =? 0) eqn:E; [apply Z.eqb_eq in E; congruence |].
    destruct (looks_like_path (nth 0 argv EmptyString)); simpl;
      now rewrite <- !app_assoc.
Qed.

(** X23.  [bg] does not look whether the job has ended.  When the job it
    finds (the first one whose id is the number the reference is read
    as) is [COMPLETED] or [TERMINATED] (the reaper has marked it and no
    cleanup pass has run since), [bg] marks it [RUNNING] and background
    and makes the one call [kill(pgid, SIGCONT)], which is for the one
    process the shell forked for the job, a process that is no more;
    when the call fails, "bg: could not continue process" is printed.
    Whatever the call answers, the entry of the registry is brought
    back: the cleanup pass that follows keeps the job, which stays in
    the registry as a running background job. *)
Theorem bg_revives_finished_job (argv : list string) (os : os_replies)
    (st : shell) (i : nat) (j : job) :
  stringToJobId (nth 1 argv EmptyString) ≠ -1 →
  first_with_id (stringToJobId (nth 1 argv EmptyString)) (jobList st) i j →
  is_finished j →
  let st' := cleanUpJobs (bg argv 2 os st) in
  new_events st (bg argv 2 os st)
  = EvKill (pgid j) SIGCONT
    :: (if kill_ret os (pgid j) SIGCONT <? 0
        then [EvWrite "bg: could not continue process
"%string]
        else [])
  ∧ (0 < pgid j →
     signals_to (new_events st (bg argv 2 os st)) = [(OneProcess (pgid j), SIGCONT)])
  ∧ jobList st'
    = filter (λ j, ¬ is_finished j)
        (<[i := set_state RUNNING (set_bgProcess 1 j)]> (jobList st))
  ∧ set_state RUNNING (set_bgProcess 1 j) ∈ jobList st'.
Proof.
  intros Hjid Hfirst Hfin. cbv zeta.
  assert (Hnr : state j ≠ RUNNING).
  { destruct Hfin as [E|E]; rewrite E; discriminate. }
  assert (Hl : jobList (bg argv 2 os st)
               = <[i := set_state RUNNING (set_bgProcess 1 j)]> (jobList st)).
  { rewrite (bg_found argv os st i j Hjid Hfirst), decide_False by exact Hnr.
    cbv zeta. destruct (kill_ret os (pgid j) SIGCONT <? 0); reflexivity. }
  assert (Hev : new_events st (bg argv 2 os st)
                = EvKill (pgid j) SIGCONT
                  :: (if kill_ret os (pgid j) SIGCONT <? 0
                      then [EvWrite ("bg: could not continue process" ++ nl)%string]
                      else [])).
  { rewrite (bg_found argv os st i j Hjid Hfirst), decide_False by exact Hnr.
    cbv zeta. apply new_events_app.
    destruct (kill_ret os (pgid j) SIGCONT <? 0); simpl; now rewrite <- ?app_assoc. }
  split; [exact Hev |]. split; [|split].
  - intros Hpos. rewrite Hev. cbn [signals_to]. unfold kill_recipient.
    apply Z.ltb_lt in Hpos. rewrite Hpos.
    now destruct (kill_ret os (pgid j) SIGCONT <? 0).
  - now rewrite cleanUpJobs_jobList, Hl.
  - rewrite cleanUpJobs_jobList, Hl. apply list_elem_of_filter. split.
    + unfold is_finished. simpl. intros [?|?]; discriminate.
    + destruct Hfirst as (Hi & _).
      apply (list_elem_of_lookup_2 _ i). apply list_lookup_insert_eq.
      now apply lookup_lt_Some in Hi.
Qed.

End Child.

Section ChildOnLinux.
#[local] Existing Instance Linux.platform.

Lemma runCommand_child_never_returns_witness :
  new_events Linux.one_job
    (runCommand "./nosuch" 1 ["./nosuch"]%string 0
       (OsReplies 0 (Some (-1)) 2 "No such file or directory" (λ _ _, 0) (0, 0) 1
          (λ p, p) (λ _, 1) None (λ _, 0))
       Linux.one_job).2
  = [EvFork; EvSetpgid 0 0; EvExecv "./nosuch" ["./nosuch"]%string;
     EvWrite ("./nosuch: No such file or directory" ++ nl)%string; EvExit 2].
Proof.
  destruct (runCommand_child_never_returns "./nosuch" 1 ["./nosuch"]%string 0
              (OsReplies 0 (Some (-1)) 2 "No such file or directory" (λ _ _, 0)
                 (0, 0) 1 (λ p, p) (λ _, 1) None (λ _, 0))
              Linux.one_job) as (_ & _ & _ & _ & ->);
    [reflexivity | discriminate | reflexivity].
Defined.

(** The job of [sleep 5 &] has exited and has been reaped after the
    cleanup pass of the turn; [bg %1] of that turn brings it back, the
    call of [kill] failing as it does for a process that is no more. *)
Lemma bg_revives_finished_job_witness :
  state <$> jobList (exec [Linux.sleep5; OpCleanup;
                           OpSigchld [(100, Linux.status_exit0)]] initial)
  = [COMPLETED]
  ∧ new_events
      (exec [Linux.sleep5; OpCleanup; OpSigchld [(100, Linux.status_exit0)]] initial)
      (exec [Linux.sleep5; OpCleanup; OpSigchld [(100, Linux.status_exit0)];
             OpBg ["bg"; "%1"]%string (Linux.replies_kill_fails 0 0)] initial)
    = [EvKill 100 18; EvWrite "bg: could not continue process
"%string]
  ∧ (λ j, (id j, pgid j, state j, bgProcess j))
      <$> jobList
            (exec [Linux.sleep5; OpCleanup; OpSigchld [(100, Linux.status_exit0)];
                   OpBg ["bg"; "%1"]%string (Linux.replies_kill_fails 0 0);
                   OpCleanup] initial)
    = [(1, 100, RUNNING, 1)].
Proof.
  pose proof (bg_revives_finished_job ["bg"; "%1"]%string
                (Linux.replies_kill_fails 0 0)
                (exec [Linux.sleep5; OpCleanup; OpSigchld [(100, Linux.status_exit0)]]
                   initial)
                0 (Job 1 "/bin/sleep" "sleep 5" 100 COMPLETED 1 (-1))) as Hbg.
  destruct Hbg as (Hev & _ & Hl & _).
  - discriminate.
  - repeat split. intros k j' Hk. lia.
  - now left.
  - split; [reflexivity |].
    split; [exact Hev |].
    change (exec [Linux.sleep5; OpCleanup; OpSigchld [(100, Linux.status_exit0)];
                  OpBg ["bg"; "%1"]%string (Linux.replies_kill_fails 0 0);
                  OpCleanup] initial)
      with (cleanUpJobs
              (bg ["bg"; "%1"]%string 2 (Linux.replies_kill_fails 0 0)
                 (exec [Linux.sleep5; OpCleanup; OpSigchld [(100, Linux.status_exit0)]]
                    initial))).
    rewrite Hl. reflexivity.
Defined.

End ChildOnLinux.
